(** * Adaptive image preprocessing: control logic of
      [backend/service/preprocess_image.py]

    The development embeds the deterministic decision logic of the
    preprocessing service: the skew classifier, the quality score, the
    recommendation table, the priority-ordered first pass, the derivation and
    merge of option sets, the override pass and the entry point.  Pixel-level
    routines of the imaging libraries (filters, colour conversions, codecs)
    are not interpreted: they are the fields of the record [runtime], each a
    function that may raise. *)

From Stdlib Require Import ZArith QArith Qabs Qminmax List Bool Sorting.Sorted Permutation Lia Lqa.
From stdpp Require Import gmap strings list fin_maps.

Local Open Scope string_scope.
Local Open Scope Z_scope.
Set Warnings "-register-all".

(** ** Python values *)

(** The dynamically typed values that travel through option and
    recommendation dictionaries. *)
Inductive value : Type :=
  | VNone : value
  | VBool : bool → value
  | VInt : Z → value
  | VFloat : Q → value
  | VStr : string → value
  | VDict : gmap string value → value.

(** [isinstance(v, dict)] *)
Definition is_dict (v : value) : bool :=
  match v with VDict _ => true | _ => false end.

(** Python truthiness, [bool(v)]. *)
Definition truthy (v : value) : bool :=
  match v with
  | VNone => false
  | VBool b => b
  | VInt n => negb (n =? 0)
  | VFloat q => negb (Qeq_bool q 0)
  | VStr s => negb (String.eqb s "")
  | VDict d => negb (bool_decide (d = ∅))
  end.

(** [d.get(k, default)] *)
Definition dict_get (d : gmap string value) (k : string) (default : value) : value :=
  match d !! k with Some v => v | None => default end.

(** ** Skew classification ([DocumentAnalyzer._detect_skew]) *)

Module Skew.

(** A line segment [(x1, y1, x2, y2)] as returned by [cv2.HoughLinesP]. *)
Record segment := Segment { x1 : Z; y1 : Z; x2 : Z; y2 : Z }.

(** What the loop over contours reads of one contour: [cv2.contourArea] and
    the rotated rectangle of [cv2.minAreaRect], [rect[1][0]], [rect[1][1]]
    and [rect[2]]. *)
Record contour := Contour { area : Q; rect_w : Q; rect_h : Q; rect_angle : Q }.

(** Outcome of the first [try] block up to the loop: the edge detector or
    the Hough transform raised, the transform found nothing ([None]), or it
    returned segments. *)
Inductive hough_outcome :=
  | HoughRaised
  | HoughNoLines
  | HoughLines (lines : list segment).

(** The library results the detector works from; [contours = None] when
    [cv2.findContours] raised. *)
Record skew_input := SkewInput {
  hough : hough_outcome;
  contours : option (list contour)
}.

Record skew_result := SkewResult { angle : Q; level : string; confidence : Q }.

(** [-45 <= a <= 45] *)
Definition in_range (a : Q) : bool := Qle_bool (-45) a && Qle_bool a 45.

Section Detector.

(** [math.atan2(dy, dx) * 180.0 / np.pi], on integer arguments. *)
Variable atan2_deg : Z → Z → Q.

(** The loop of the first [try] block. *)
Fixpoint hough_angles (lines : list segment) : list Q :=
  match lines with
  | [] => []
  | s :: rest =>
      if negb (x2 s - x1 s =? 0) then
        let a := atan2_deg (y2 s - y1 s) (x2 s - x1 s) in
        if in_range a then a :: hough_angles rest else hough_angles rest
      else hough_angles rest
  end.

(** The loop of the second [try] block. *)
Fixpoint rect_angles (cs : list contour) : list Q :=
  match cs with
  | [] => []
  | c :: rest =>
      if negb (Qle_bool (area c) 1000) then
        let a := if negb (Qle_bool (rect_h c) (rect_w c))
                 then (rect_angle c + 90)%Q else rect_angle c in
        if in_range a then a :: rect_angles rest else rect_angles rest
      else rect_angles rest
  end.

(** The list [angles] after both blocks. *)
Definition pooled_angles (i : skew_input) : list Q :=
  (match hough i with
   | HoughLines lines => hough_angles lines
   | _ => []
   end)
  ++ (match contours i with
      | Some cs => rect_angles cs
      | None => []
      end).

Fixpoint insert_sorted (x : Q) (l : list Q) : list Q :=
  match l with
  | [] => [x]
  | y :: rest => if Qle_bool x y then x :: l else y :: insert_sorted x rest
  end.

Definition sort_angles (l : list Q) : list Q := foldr insert_sorted [] l.

(** [np.median] of a list: the middle element of the sorted list, or the mean
    of the two middle elements when the length is even. *)
Definition np_median (l : list Q) : Q :=
  let s := sort_angles l in
  let n := length s in
  if Nat.even n
  then ((nth (Nat.div2 n - 1) s 0 + nth (Nat.div2 n) s 0) / 2)%Q
  else nth (Nat.div2 n) s 0%Q.

Definition skew_level (skew_angle : Q) : string :=
  let abs_angle := Qabs skew_angle in
  if negb (Qle_bool abs_angle 5) then "high"
  else if negb (Qle_bool abs_angle 1) then "medium"
  else "low".

Definition _detect_skew (i : skew_input) : skew_result :=
  let angles := pooled_angles i in
  let skew_angle := match angles with [] => 0%Q | _ => np_median angles end in
  {| angle := skew_angle;
     level := skew_level skew_angle;
     confidence := match angles with
                   | [] => 0%Q
                   | _ => (inject_Z (Z.of_nat (length angles)) / 10)%Q
                   end |}.

End Detector.

End Skew.

(** ** Ordered dictionaries *)

(** The recommendation dictionary is iterated with [.items()], so it is kept
    as an association list in insertion order. *)
Fixpoint assoc {A} (k : string) (l : list (string * A)) : option A :=
  match l with
  | [] => None
  | (k', v) :: rest => if bool_decide (k' = k) then Some v else assoc k rest
  end.

(** [d[k] = v]: an existing key keeps its position, a new key goes last. *)
Fixpoint dict_set {A} (k : string) (v : A) (l : list (string * A)) : list (string * A) :=
  match l with
  | [] => [(k, v)]
  | (k', v') :: rest =>
      if bool_decide (k' = k) then (k, v) :: rest else (k', v') :: dict_set k v rest
  end.

(** A dictionary literal. *)
Definition dict_of (l : list (string * value)) : value := VDict (list_to_map l).

(** ** Quality score and recommendations ([DocumentAnalyzer]) *)

Module Analyzer.

(** Result of [_assess_brightness]. *)
Record brightness_report := BrightnessReport {
  level : string;
  mean_brightness : Q;
  dark_pixels_ratio : Q;
  bright_pixels_ratio : Q
}.

Definition count_if (p : Z → bool) (l : list Z) : Z :=
  Z.of_nat (length (filter (λ x, p x = true) l)).

(** [_assess_brightness(gray)] on the flattened pixel intensities.  Bin [i] of
    the 256-bin histogram counts the pixels of intensity [i]; means and ratios
    are taken in exact arithmetic. *)
Definition _assess_brightness (gray : list Z) : brightness_report :=
  let size := inject_Z (Z.of_nat (length gray)) in
  let total := inject_Z (fold_right Z.add 0 gray) in
  let hist_dark := inject_Z (count_if (λ p, p <? 50) gray) in
  let hist_bright := inject_Z (count_if (λ p, 200 <=? p) gray) in
  let mean := (total / size)%Q in
  let dark_pixels := (hist_dark / size)%Q in
  let bright_pixels := (hist_bright / size)%Q in
  let brightness_level :=
    if negb (Qle_bool 80 mean) then
      (if negb (Qle_bool dark_pixels (3 # 10)) then "very_dark" else "dark")
    else if negb (Qle_bool mean 180) then
      (if negb (Qle_bool bright_pixels (3 # 10)) then "overexposed" else "bright")
    else "normal" in
  {| level := brightness_level;
     mean_brightness := mean;
     dark_pixels_ratio := dark_pixels;
     bright_pixels_ratio := bright_pixels |}.

(** The fields of the analysis dictionary that the control logic reads: the
    [level] (or [type]) of each sub-analysis and the skew result. *)
Record measurements := Measurements {
  noise_level : string;
  contrast_quality : string;
  brightness_level : string;
  skew_angle : Skew.skew_result;
  document_type : string;
  blur_level : string
}.

(** [table.get(k, 0)] on a literal table. *)
Definition bonus (table : list (string * Z)) (k : string) : Z :=
  match assoc k table with Some n => n | None => 0 end.

Definition contrast_table := [("high", 25); ("medium", 15); ("low", 0)].
Definition brightness_table :=
  [("normal", 20); ("bright", 15); ("dark", 10); ("very_dark", 0); ("overexposed", 5)].
Definition noise_table := [("low", 0); ("medium", -5); ("high", -15)].
Definition blur_table := [("sharp", 5); ("moderate", 0); ("blurry", -10)].
Definition skew_table := [("low", 0); ("medium", -2); ("high", -5)].

Definition _calculate_quality_score (a : measurements) : Z :=
  let score := 50 in
  let score := score + bonus contrast_table (contrast_quality a) in
  let score := score + bonus brightness_table (brightness_level a) in
  let score := score + bonus noise_table (noise_level a) in
  let score := score + bonus blur_table (blur_level a) in
  let score := score + bonus skew_table (Skew.level (skew_angle a)) in
  Z.max 0 (Z.min 100 score).

(** The sum of base and bonuses before clamping. *)
Definition raw_score (m : measurements) : Z :=
  50 + bonus contrast_table (contrast_quality m)
     + bonus brightness_table (brightness_level m)
     + bonus noise_table (noise_level m)
     + bonus blur_table (blur_level m)
     + bonus skew_table (Skew.level (skew_angle m)).

(** [s in [a, b]] *)
Definition one_of (s a b : string) : bool := bool_decide (s = a) || bool_decide (s = b).

Definition _generate_recommendations (a : measurements) : list (string * value) :=
  let recommendations :=
    [ ("deskew", dict_of [("enabled", VBool false); ("priority", VInt 0)]);
      ("denoise", dict_of [("enabled", VBool false); ("strength", VInt 0); ("priority", VInt 0)]);
      ("contrast", dict_of [("enabled", VBool false); ("adjustment", VInt 0); ("priority", VInt 0)]);
      ("brightness", dict_of [("enabled", VBool false); ("adjustment", VInt 0); ("priority", VInt 0)]);
      ("sharpen", dict_of [("enabled", VBool false); ("strength", VInt 0); ("priority", VInt 0)]);
      ("threshold_method", VStr "adaptive") ] in
  let skew := Skew.level (skew_angle a) in
  let recommendations :=
    if one_of skew "medium" "high" then
      dict_set "deskew"
        (dict_of [("enabled", VBool true);
                  ("priority", VInt (if bool_decide (skew = "high") then 3 else 2));
                  ("angle_threshold", VFloat (1 # 2)); ("max_angle", VInt 10)])
        recommendations
    else recommendations in
  let recommendations :=
    if one_of (noise_level a) "medium" "high" then
      let strength := if bool_decide (noise_level a = "high") then 3 else 2 in
      dict_set "denoise"
        (dict_of [("enabled", VBool true); ("strength", VInt strength);
                  ("priority", VInt (if bool_decide (noise_level a = "high") then 2 else 1))])
        recommendations
    else recommendations in
  let recommendations :=
    if bool_decide (contrast_quality a = "low") then
      dict_set "contrast"
        (dict_of [("enabled", VBool true); ("adjustment", VInt 30); ("priority", VInt 2)])
        recommendations
    else recommendations in
  let level := brightness_level a in
  let recommendations :=
    if one_of level "dark" "very_dark" then
      let adjustment := if bool_decide (level = "very_dark") then 40 else 20 in
      dict_set "brightness"
        (dict_of [("enabled", VBool true); ("adjustment", VInt adjustment); ("priority", VInt 2)])
        recommendations
    else if bool_decide (level = "overexposed") then
      dict_set "brightness"
        (dict_of [("enabled", VBool true); ("adjustment", VInt (-20)); ("priority", VInt 1)])
        recommendations
    else recommendations in
  let recommendations :=
    if bool_decide (blur_level a = "blurry") then
      dict_set "sharpen"
        (dict_of [("enabled", VBool true); ("strength", VInt 2); ("priority", VInt 1)])
        recommendations
    else recommendations in
  dict_set "threshold_method"
    (VStr (if bool_decide (document_type a = "text_heavy") then "adaptive" else "otsu"))
    recommendations.

(** The analysis dictionary once [quality_score] and [recommendations] have
    been added to it. *)
Record analysis := Analysis {
  measured : measurements;
  quality_score : Z;
  recommendations : list (string * value)
}.

(** The last two assignments of [analyze_document_quality]. *)
Definition complete (m : measurements) : analysis :=
  {| measured := m;
     quality_score := _calculate_quality_score m;
     recommendations := _generate_recommendations m |}.

End Analyzer.

(** ** Automatic options ([_derive_auto_preprocessing_options]) *)

Module AutoOpts.
Import Analyzer.

Definition _derive_auto_preprocessing_options (a : analysis) : gmap string value :=
  let opts : gmap string value := ∅ in
  let q := quality_score a in
  let noise := noise_level (measured a) in
  let opts :=
    if bool_decide (noise = "high") then <["denoise" := dict_of [("strength", VInt 7)]]> opts
    else if bool_decide (noise = "medium") then <["denoise" := dict_of [("strength", VInt 4)]]> opts
    else if bool_decide (noise = "low") && (q <? 45) then
      <["denoise" := dict_of [("strength", VInt 3)]]> opts
    else opts in
  let contrast := contrast_quality (measured a) in
  let opts :=
    if bool_decide (contrast = "low") then <["contrast" := VInt 30]> opts
    else if bool_decide (contrast = "medium") && (q <? 60) then <["contrast" := VInt 15]> opts
    else opts in
  let brightness := brightness_level (measured a) in
  let opts :=
    if bool_decide (brightness = "very_dark") then <["brightness" := VInt 40]> opts
    else if bool_decide (brightness = "dark") then <["brightness" := VInt 20]> opts
    else if bool_decide (brightness = "overexposed") then <["brightness" := VInt (-20)]> opts
    else opts in
  let blur := blur_level (measured a) in
  let opts :=
    if bool_decide (blur = "blurry") && (q <? 65) then <["sharpen" := VInt 1]> opts
    else opts in
  let doc_type := document_type (measured a) in
  if one_of doc_type "simple_text" "text_heavy"
     && negb (bool_decide (brightness = "overexposed"))
  then <["grayscale" := VBool true]> opts
  else opts.

(** The five rules of [_derive_auto_preprocessing_options] taken one at a
    time, each as the update it makes to [opts]. *)
Definition denoise_rule (a : analysis) (opts : gmap string value) : gmap string value :=
  let q := quality_score a in
  let noise := noise_level (measured a) in
  if bool_decide (noise = "high") then <["denoise" := dict_of [("strength", VInt 7)]]> opts
  else if bool_decide (noise = "medium") then <["denoise" := dict_of [("strength", VInt 4)]]> opts
  else if bool_decide (noise = "low") && (q <? 45) then
    <["denoise" := dict_of [("strength", VInt 3)]]> opts
  else opts.

Definition contrast_rule (a : analysis) (opts : gmap string value) : gmap string value :=
  let q := quality_score a in
  let contrast := contrast_quality (measured a) in
  if bool_decide (contrast = "low") then <["contrast" := VInt 30]> opts
  else if bool_decide (contrast = "medium") && (q <? 60) then <["contrast" := VInt 15]> opts
  else opts.

Definition brightness_rule (a : analysis) (opts : gmap string value) : gmap string value :=
  let brightness := brightness_level (measured a) in
  if bool_decide (brightness = "very_dark") then <["brightness" := VInt 40]> opts
  else if bool_decide (brightness = "dark") then <["brightness" := VInt 20]> opts
  else if bool_decide (brightness = "overexposed") then <["brightness" := VInt (-20)]> opts
  else opts.

Definition sharpen_rule (a : analysis) (opts : gmap string value) : gmap string value :=
  if bool_decide (blur_level (measured a) = "blurry") && (quality_score a <? 65)
  then <["sharpen" := VInt 1]> opts
  else opts.

Definition grayscale_rule (a : analysis) (opts : gmap string value) : gmap string value :=
  if one_of (document_type (measured a)) "simple_text" "text_heavy"
     && negb (bool_decide (brightness_level (measured a) = "overexposed"))
  then <["grayscale" := VBool true]> opts
  else opts.

End AutoOpts.

(** ** The imaging runtime *)

(** Levels returned by the sub-analyses other than skew
    ([_assess_noise_level], [_assess_contrast], [_assess_brightness],
    [_classify_document_type], [_assess_blur]). *)
Record cv_levels := CvLevels {
  cv_noise : string;
  cv_contrast : string;
  cv_brightness : string;
  cv_document_type : string;
  cv_blur : string
}.

(** The library routines the service calls.  [None] stands for a raised
    exception.  [Img] is a pixel array. *)
Record runtime (Img : Type) := Runtime {
  (** [int(s)] on a string *)
  int_of_str : string → option Z;
  (** [math.atan2(dy, dx) * 180.0 / np.pi] *)
  atan2_deg : Z → Z → Q;
  (** [Image.open], the mode conversions and [np.array] *)
  load_image : list Byte.byte → option Img;
  (** [len(img.shape) == 3] *)
  ndim3 : Img → bool;
  (** [cv2.cvtColor(img, cv2.COLOR_RGB2GRAY)] *)
  rgb_to_gray : Img → option Img;
  (** [cv2.cvtColor(img, cv2.COLOR_GRAY2RGB)] *)
  gray_to_rgb : Img → option Img;
  (** the five level classifiers on a grayscale array *)
  assess_levels : Img → option cv_levels;
  (** thresholding, edge detection, Hough transform and contour extraction
      of [_detect_skew] *)
  skew_source : Img → option Skew.skew_input;
  (** the rotation of [_apply_deskew] applied to the colour and the gray
      array by the given angle *)
  warp_rotate : Img → Img → Q → option (Img * Img);
  (** [cv2.fastNlMeansDenoisingColored(img, None, h, hColor, template, search)] *)
  nl_means_colored : Img → value → value → Z → Z → option Img;
  (** [cv2.fastNlMeansDenoising(img, None, h, template, search)] *)
  nl_means : Img → value → Z → Z → option Img;
  (** [np.array(ImageEnhance.Contrast(Image.fromarray(img)).enhance(factor))] *)
  enhance_contrast : Img → Q → option Img;
  (** [cv2.convertScaleAbs(img, alpha=1.0, beta=beta)] *)
  convert_scale_abs : Img → value → option Img;
  (** [np.clip(cv2.filter2D(img, -1, kernel), 0, 255).astype(np.uint8)] for
      the [float32] kernel the code builds from the given strength:
      [[[-1,-1,-1],[-1,9,-1],[-1,-1,-1]] * strength], its centre then
      replaced by [centre - strength + 1] *)
  filter2d_clip : Img → Q → option Img;
  (** [Image.fromarray] and the JPEG encoder *)
  save_jpeg : Img → option (list Byte.byte)
}.

Arguments int_of_str {Img}.
Arguments atan2_deg {Img}.
Arguments load_image {Img}.
Arguments ndim3 {Img}.
Arguments rgb_to_gray {Img}.
Arguments gray_to_rgb {Img}.
Arguments assess_levels {Img}.
Arguments skew_source {Img}.
Arguments warp_rotate {Img}.
Arguments nl_means_colored {Img}.
Arguments nl_means {Img}.
Arguments enhance_contrast {Img}.
Arguments convert_scale_abs {Img}.
Arguments filter2d_clip {Img}.
Arguments save_jpeg {Img}.

(** Lines written to the logger. *)
Inductive event :=
  | LogApplying (step_name : string) (priority : value)
  | LogApplied (op : string)
  | LogFailed (op : string)
  | LogUserApplied (op : string)
  | LogUserFailed (op : string).

(** A number as arithmetic sees it; [None] is a [TypeError]. *)
Definition num_of_value (v : value) : option Q :=
  match v with
  | VBool b => Some (inject_Z (Z.b2z b))
  | VInt n => Some (inject_Z n)
  | VFloat q => Some q
  | _ => None
  end.

(** [x or y] *)
Definition py_or (x y : value) : value := if truthy x then x else y.

(** [max(1, min(15, n))] *)
Definition clamp_strength (n : Z) : Z := Z.max 1 (Z.min 15 n).

(** ** The first pass ([DynamicPreprocessor]) *)

Module Pass1.

(** An entry of [steps]: [(priority, step_name, config)]; the priority is
    whatever value the configuration holds. *)
Definition step : Type := value * string * gmap string value.

Definition step_priority (s : step) : value := s.1.1.
Definition step_name (s : step) : string := s.1.2.
Definition step_config (s : step) : gmap string value := s.2.

(** [config.get('priority', 0)] *)
Definition priority_of (config : gmap string value) : value :=
  dict_get config "priority" (VInt 0).

(** [a < b] on two sort keys: numbers (booleans, integers, floats) compare
    by value and strings by code point; [None] is the [TypeError] of any
    other pair. *)
Definition py_lt (a b : value) : option bool :=
  match a, b with
  | VStr s, VStr t => Some (String.ltb s t)
  | _, _ =>
      x ← num_of_value a;
      y ← num_of_value b;
      Some (negb (Qle_bool y x))
  end.

(** [isinstance(config, dict) and config.get('enabled', False)] *)
Definition is_enabled (config : value) : bool :=
  match config with
  | VDict c => truthy (dict_get c "enabled" (VBool false))
  | _ => false
  end.

(** The loop that fills [steps]. *)
Fixpoint collect_steps (items : list (string * value)) : list step :=
  match items with
  | [] => []
  | (name, VDict c) :: rest =>
      if truthy (dict_get c "enabled" (VBool false))
      then (priority_of c, name, c) :: collect_steps rest
      else collect_steps rest
  | _ :: rest => collect_steps rest
  end.

(** [steps.sort(key=lambda x: x[0], reverse=True)]: a stable sort in
    descending order, entries of equal priority keep their order.  The keys
    are compared with [<]; a comparison that raises makes the sort raise,
    which happens exactly when the list holds two keys that do not compare
    (a list of one entry is never compared). *)
Fixpoint insert_step (s : step) (l : list step) : option (list step) :=
  match l with
  | [] => Some [s]
  | t :: rest =>
      match py_lt (step_priority s) (step_priority t) with
      | Some true => rest' ← insert_step s rest; Some (t :: rest')
      | Some false => Some (s :: l)
      | None => None
      end
  end.

Fixpoint sort_steps (l : list step) : option (list step) :=
  match l with
  | [] => Some []
  | s :: rest => sorted ← sort_steps rest; insert_step s sorted
  end.

Section Operators.

Context {Img : Type} (rt : runtime Img).

(** [self.analyzer._detect_skew(gray)] *)
Definition detect_skew (gray : Img) : option Skew.skew_result :=
  Skew._detect_skew (atan2_deg rt) <$> skew_source rt gray.

(** Body of the [try] of [_apply_deskew]: [None] when it raised,
    [Some None] when it fell through without rotating. *)
Definition deskew_body (img gray : Img) (config : gmap string value)
  : option (option (Img * Img)) :=
  sk ← detect_skew gray;
  threshold ← num_of_value (dict_get config "angle_threshold" (VFloat (1 # 2)));
  if negb (Qle_bool (Qabs (Skew.angle sk)) threshold)
  then Some <$> warp_rotate rt img gray (Skew.angle sk)
  else Some None.

Definition _apply_deskew (img gray : Img) (config : gmap string value)
  : (Img * Img) * list event :=
  match deskew_body img gray config with
  | Some (Some rotated) => (rotated, [LogApplied "deskew"])
  | Some None => ((img, gray), [])
  | None => ((img, gray), [LogFailed "deskew"])
  end.

Definition denoise_body (img gray : Img) (config : gmap string value)
  : option (Img * Img) :=
  let strength := dict_get config "strength" (VInt 2) in
  denoised_img ← (if ndim3 rt img
                  then nl_means_colored rt img strength strength 7 21
                  else nl_means rt img strength 7 21);
  denoised_gray ← nl_means rt gray strength 7 21;
  Some (denoised_img, denoised_gray).

Definition _apply_denoise (img gray : Img) (config : gmap string value)
  : (Img * Img) * list event :=
  match denoise_body img gray config with
  | Some r => (r, [LogApplied "denoise"])
  | None => ((img, gray), [LogFailed "denoise"])
  end.

Definition contrast_body (img gray : Img) (config : gmap string value)
  : option (Img * Img) :=
  adjustment ← num_of_value (dict_get config "adjustment" (VInt 0));
  let factor := (1 + adjustment / 100)%Q in
  result_img ← enhance_contrast rt img factor;
  result_gray ← (if ndim3 rt result_img then rgb_to_gray rt result_img
                 else Some result_img);
  Some (result_img, result_gray).

Definition _apply_contrast (img gray : Img) (config : gmap string value)
  : (Img * Img) * list event :=
  match contrast_body img gray config with
  | Some r => (r, [LogApplied "contrast"])
  | None => ((img, gray), [LogFailed "contrast"])
  end.

Definition brightness_body (img gray : Img) (config : gmap string value)
  : option (Img * Img) :=
  let adjustment := dict_get config "adjustment" (VInt 0) in
  brightened_img ← convert_scale_abs rt img adjustment;
  brightened_gray ← convert_scale_abs rt gray adjustment;
  Some (brightened_img, brightened_gray).

Definition _apply_brightness (img gray : Img) (config : gmap string value)
  : (Img * Img) * list event :=
  match brightness_body img gray config with
  | Some r => (r, [LogApplied "brightness"])
  | None => ((img, gray), [LogFailed "brightness"])
  end.

Definition sharpen_body (img gray : Img) (config : gmap string value)
  : option (Img * Img) :=
  strength ← num_of_value (dict_get config "strength" (VInt 1));
  sharpened_img ← filter2d_clip rt img strength;
  sharpened_gray ← filter2d_clip rt gray strength;
  Some (sharpened_img, sharpened_gray).

Definition _apply_sharpen (img gray : Img) (config : gmap string value)
  : (Img * Img) * list event :=
  match sharpen_body img gray config with
  | Some r => (r, [LogApplied "sharpen"])
  | None => ((img, gray), [LogFailed "sharpen"])
  end.

(** The dispatch on [step_name] in the loop over [steps]. *)
Definition dispatch (name : string) (config : gmap string value) (img gray : Img)
  : (Img * Img) * list event :=
  if bool_decide (name = "deskew") then _apply_deskew img gray config
  else if bool_decide (name = "denoise") then _apply_denoise img gray config
  else if bool_decide (name = "contrast") then _apply_contrast img gray config
  else if bool_decide (name = "brightness") then _apply_brightness img gray config
  else if bool_decide (name = "sharpen") then _apply_sharpen img gray config
  else ((img, gray), []).

(** The loop over [steps], threading [current_img], [current_gray] and the
    log. *)
Fixpoint run_steps (steps : list step) (current : Img * Img)
  : (Img * Img) * list event :=
  match steps with
  | [] => (current, [])
  | s :: rest =>
      let '(next, log) := dispatch (step_name s) (step_config s) current.1 current.2 in
      let '(final, log') := run_steps rest next in
      (final, (LogApplying (step_name s) (step_priority s) :: log ++ log')%list)
  end.

(** [_apply_adaptive_preprocessing]; the two colour conversions at its head
    and the sort are outside any [try]. *)
Definition _apply_adaptive_preprocessing (img_array : Img)
    (recommendations : list (string * value)) : option (Img * list event) :=
  working ← (if ndim3 rt img_array
             then gray ← rgb_to_gray rt img_array; Some (img_array, gray)
             else rgb ← gray_to_rgb rt img_array; Some (rgb, img_array));
  steps ← sort_steps (collect_steps recommendations);
  let '(final, log) := run_steps steps working in
  Some (final.1, log).

(** [DocumentAnalyzer.analyze_document_quality] *)
Definition analyze_document_quality (img_array : Img) : option Analyzer.analysis :=
  gray ← (if ndim3 rt img_array then rgb_to_gray rt img_array else Some img_array);
  lv ← assess_levels rt gray;
  sk ← detect_skew gray;
  Some (Analyzer.complete
          {| Analyzer.noise_level := cv_noise lv;
             Analyzer.contrast_quality := cv_contrast lv;
             Analyzer.brightness_level := cv_brightness lv;
             Analyzer.skew_angle := sk;
             Analyzer.document_type := cv_document_type lv;
             Analyzer.blur_level := cv_blur lv |}).

(** [DynamicPreprocessor.process_document] *)
Definition process_document (img_array : Img)
  : option (Img * Analyzer.analysis * list event) :=
  analysis ← analyze_document_quality img_array;
  '(processed_img, log) ←
     _apply_adaptive_preprocessing img_array (Analyzer.recommendations analysis);
  Some (processed_img, analysis, log).

End Operators.

End Pass1.

(** ** Option merging *)

Module Merge.

(** Body of the loop of [_merge_preprocessing_options] for one item [(k, v)]
    of [user_opts]. *)
Definition merge_item (k : string) (v : value) (merged : gmap string value)
  : gmap string value :=
  match v, merged !! k with
  | VDict dv, Some (VDict dm) => <[k := VDict (dv ∪ dm)]> merged
  | _, _ => <[k := v]> merged
  end.

(** [_merge_preprocessing_options(auto_opts, user_opts)]; [None] is Python's
    [None]. *)
Definition _merge_preprocessing_options
    (auto_opts : gmap string value) (user_opts : option (gmap string value))
  : gmap string value :=
  match user_opts with
  | None => auto_opts
  | Some u =>
      if bool_decide (u = ∅) then auto_opts
      else map_fold merge_item auto_opts u
  end.

(** What one loop iteration stores under its key, given the value found
    there before. *)
Definition merged_entry (old : option value) (v : value) : value :=
  match v, old with
  | VDict dv, Some (VDict dm) => VDict (dv ∪ dm)
  | _, _ => v
  end.

End Merge.

(** ** The override pass ([_apply_user_overrides]) *)

Module Overrides.

Section Overrides.

Context {Img : Type} (rt : runtime Img).

(** [int(v)]; [None] is a [TypeError] or [ValueError]. *)
Definition py_int (v : value) : option Z :=
  match v with
  | VBool b => Some (Z.b2z b)
  | VInt n => Some n
  | VFloat q => Some (Z.quot (Qnum q) (Z.pos (Qden q)))
  | VStr s => int_of_str rt s
  | VNone | VDict _ => None
  end.

(** The [isinstance] cascade on [denoise_opt]: the triple
    [(strength, template, search)], or [None] when an [int(...)] raised. *)
Definition denoise_params (denoise_opt : value) : option (Z * Z * Z) :=
  match denoise_opt with
  | VBool _ => Some (3, 7, 21)
  | VInt n => Some (clamp_strength n, 7, 21)
  | VDict d =>
      strength ← py_int (dict_get d "strength" (VInt 3));
      template ← py_int (dict_get d "template" (VInt 7));
      search ← py_int (dict_get d "search" (VInt 21));
      Some (clamp_strength strength, template, search)
  | _ => Some (3, 7, 21)
  end.

(** The grayscale block; its conversion is not inside a [try]. *)
Definition user_grayscale (opts : gmap string value) (working_img : Img)
  : option (Img * list event) :=
  if truthy (dict_get opts "grayscale" (VBool false)) then
    if ndim3 rt working_img then
      gray ← rgb_to_gray rt working_img;
      Some (gray, [LogUserApplied "grayscale"])
    else Some (working_img, [])
  else Some (working_img, []).

(** Body of the [try] of the denoise block. *)
Definition user_denoise_body (denoise_opt : value) (working_img : Img) : option Img :=
  '(strength, template, search) ← denoise_params denoise_opt;
  if ndim3 rt working_img
  then nl_means_colored rt working_img (VInt strength) (VInt strength) template search
  else nl_means rt working_img (VInt strength) template search.

Definition user_denoise (opts : gmap string value) (working_img : Img)
  : Img * list event :=
  let denoise_opt := dict_get opts "denoise" (VBool false) in
  if truthy denoise_opt then
    match user_denoise_body denoise_opt working_img with
    | Some img => (img, [LogUserApplied "denoise"])
    | None => (working_img, [LogUserFailed "denoise"])
    end
  else (working_img, []).

(** [int(opts.get(key, 0) or 0)], evaluated outside any [try]. *)
Definition int_option (opts : gmap string value) (key : string) : option Z :=
  py_int (py_or (dict_get opts key (VInt 0)) (VInt 0)).

Definition user_contrast_body (contrast_value : Z) (working_img : Img) : option Img :=
  pil_img ← (if ndim3 rt working_img then Some working_img
             else gray_to_rgb rt working_img);
  let contrast_factor := (1 + inject_Z contrast_value / 100)%Q in
  enhance_contrast rt pil_img contrast_factor.

Definition user_contrast (opts : gmap string value) (working_img : Img)
  : option (Img * list event) :=
  contrast_value ← int_option opts "contrast";
  if negb (contrast_value =? 0) then
    match user_contrast_body contrast_value working_img with
    | Some img => Some (img, [LogUserApplied "contrast"])
    | None => Some (working_img, [LogUserFailed "contrast"])
    end
  else Some (working_img, []).

Definition user_brightness (opts : gmap string value) (working_img : Img)
  : option (Img * list event) :=
  brightness_value ← int_option opts "brightness";
  if negb (brightness_value =? 0) then
    match convert_scale_abs rt working_img (VInt brightness_value) with
    | Some img => Some (img, [LogUserApplied "brightness"])
    | None => Some (working_img, [LogUserFailed "brightness"])
    end
  else Some (working_img, []).

Definition user_sharpen (opts : gmap string value) (working_img : Img)
  : option (Img * list event) :=
  sharpen_value ← int_option opts "sharpen";
  if 0 <? sharpen_value then
    match filter2d_clip rt working_img (inject_Z sharpen_value) with
    | Some img => Some (img, [LogUserApplied "sharpen"])
    | None => Some (working_img, [LogUserFailed "sharpen"])
    end
  else Some (working_img, []).

(** [_apply_user_overrides(processed_img, preprocessing_options, analysis)];
    the third argument is not read. *)
Definition _apply_user_overrides (processed_img : Img) (opts : gmap string value)
  : option (Img * list event) :=
  working_img ← (if ndim3 rt processed_img then Some processed_img
                 else gray_to_rgb rt processed_img);
  '(working_img, log_g) ← user_grayscale opts working_img;
  let '(working_img, log_d) := user_denoise opts working_img in
  '(working_img, log_c) ← user_contrast opts working_img;
  '(working_img, log_b) ← user_brightness opts working_img;
  '(working_img, log_s) ← user_sharpen opts working_img;
  Some (working_img, (log_g ++ log_d ++ log_c ++ log_b ++ log_s)%list).

End Overrides.

End Overrides.

(** ** The entry point ([dynamic_preprocess_image]) *)

Module Entry.

(** The report dictionary, without its wall-clock field
    [processing_time_ms]. *)
Record report := Report {
  quality_score : Z;
  document_type : string;
  brightness_level : string;
  contrast_level : string;
  noise_level : string;
  skew_angle : Q;
  blur_level : string;
  processing_applied : list string;
  original_size_kb : Q;
  processed_size_kb : Q;
  auto_preprocessing_options : gmap string value;
  final_preprocessing_options : gmap string value
}.

(** The comprehension that fills [processing_applied]. *)
Definition enabled_names (recommendations : list (string * value)) : list string :=
  (filter (λ kv, Pass1.is_enabled kv.2 = true) recommendations).*1.

Definition size_kb (b : list Byte.byte) : Q := (inject_Z (Z.of_nat (length b)) / 1024)%Q.

Section Entry.

Context {Img : Type} (rt : runtime Img).

(** [dynamic_preprocess_image(image_bytes, preprocessing_options)]: [None]
    when the call raises, otherwise the returned pair together with the
    lines logged by the two passes. *)
Definition dynamic_preprocess_image
    (image_bytes : list Byte.byte) (preprocessing_options : option (gmap string value))
  : option (list Byte.byte * report * list event) :=
  img_array ← load_image rt image_bytes;
  '(processed_img, analysis, log1) ← Pass1.process_document rt img_array;
  let auto_opts := AutoOpts._derive_auto_preprocessing_options analysis in
  let final_opts := Merge._merge_preprocessing_options auto_opts preprocessing_options in
  '(processed_img, log2) ←
     (if negb (bool_decide (final_opts = ∅))
      then Overrides._apply_user_overrides rt processed_img final_opts
      else Some (processed_img, []));
  rgb ← (if ndim3 rt processed_img then Some processed_img
         else gray_to_rgb rt processed_img);
  encoded ← save_jpeg rt rgb;
  let m := Analyzer.measured analysis in
  Some (encoded,
        {| quality_score := Analyzer.quality_score analysis;
           document_type := Analyzer.document_type m;
           brightness_level := Analyzer.brightness_level m;
           contrast_level := Analyzer.contrast_quality m;
           noise_level := Analyzer.noise_level m;
           skew_angle := Skew.angle (Analyzer.skew_angle m);
           blur_level := Analyzer.blur_level m;
           processing_applied := enabled_names (Analyzer.recommendations analysis);
           original_size_kb := size_kb image_bytes;
           processed_size_kb := size_kb encoded;
           auto_preprocessing_options := auto_opts;
           final_preprocessing_options := final_opts |},
        (log1 ++ log2)%list).

(** Operators of the first pass that completed: the names logged as applied. *)
Definition succeeded_in_pass1 (log : list event) : list string :=
  omap (λ e, match e with LogApplied op => Some op | _ => None end) log.

End Entry.

End Entry.

(** ** The level classifiers ([DocumentAnalyzer._assess_*]) *)

Module Measures.

(** A contour as [_classify_document_type] reads it: [cv2.contourArea] and
    the width and height of [cv2.boundingRect]. *)
Record blob := Blob { blob_area : Q; blob_w : Z; blob_h : Z }.

(** The numbers the classifiers obtain from the imaging libraries on a
    grayscale array. *)
Record cv_measures (Img : Type) := CvMeasures {
  (** [cv2.Laplacian(gray, cv2.CV_64F).var()] *)
  laplacian_variance : Img → Q;
  (** [np.var(cv2.filter2D(gray, -1, kernel))] for the 3x3 high-pass kernel *)
  highpass_variance : Img → Q;
  (** [np.mean(np.sqrt(local_variance))] *)
  local_std_mean : Img → Q;
  (** [np.var(sobelx) + np.var(sobely)] *)
  sobel_variance : Img → Q;
  (** [np.std(gray)] *)
  std_dev : Img → Q;
  (** [float(np.max(gray))] and [float(np.min(gray))] *)
  max_value : Img → Q;
  min_value : Img → Q;
  (** [self.weighted_std(np.arange(256), hist)] *)
  histogram_spread : Img → Q;
  (** [np.sum(edges > 0) / edges.size] for the Canny edges *)
  edge_density : Img → Q;
  (** the external contours of the closed edge map *)
  closed_contours : Img → list blob
}.

Arguments laplacian_variance {Img}.
Arguments highpass_variance {Img}.
Arguments local_std_mean {Img}.
Arguments sobel_variance {Img}.
Arguments std_dev {Img}.
Arguments max_value {Img}.
Arguments min_value {Img}.
Arguments histogram_spread {Img}.
Arguments edge_density {Img}.
Arguments closed_contours {Img}.

Record noise_report := NoiseReport {
  noise_level : string;
  noise_laplacian_variance : Q;
  noise_variance : Q;
  noise_local_std : Q
}.

Record blur_report := BlurReport {
  blur_level : string;
  blur_laplacian_variance : Q;
  blur_sobel_variance : Q
}.

Record contrast_report := ContrastReport {
  contrast_level : string;
  rms_contrast : Q;
  michelson_contrast : Q;
  contrast_histogram_spread : Q
}.

Record document_type_report := DocumentTypeReport {
  doc_type : string;
  doc_edge_density : Q;
  text_regions : Z
}.

(** [a > b] *)
Definition Qgt_bool (a b : Q) : bool := negb (Qle_bool a b).

Section Classifiers.

Context {Img : Type} (cv : cv_measures Img).

Definition _assess_noise_level (gray : Img) : noise_report :=
  let laplacian_var := laplacian_variance cv gray in
  let noise_variance := highpass_variance cv gray in
  let avg_local_std := local_std_mean cv gray in
  let noise_level :=
    if Qgt_bool laplacian_var 1000 && Qgt_bool noise_variance 50 then "high"
    else if Qgt_bool laplacian_var 500 && Qgt_bool noise_variance 20 then "medium"
    else "low" in
  {| noise_level := noise_level;
     noise_laplacian_variance := laplacian_var;
     noise_variance := noise_variance;
     noise_local_std := avg_local_std |}.

Definition _assess_contrast (gray : Img) : contrast_report :=
  let rms_contrast := std_dev cv gray in
  let max_val := max_value cv gray in
  let min_val := min_value cv gray in
  let michelson_contrast :=
    if Qgt_bool (max_val + min_val) 0
    then ((max_val - min_val) / (max_val + min_val))%Q
    else 0%Q in
  let hist_spread := histogram_spread cv gray in
  let contrast_level :=
    if Qgt_bool rms_contrast 60 && Qgt_bool michelson_contrast (7 # 10) then "high"
    else if Qgt_bool rms_contrast 30 && Qgt_bool michelson_contrast (4 # 10) then "medium"
    else "low" in
  {| contrast_level := contrast_level;
     rms_contrast := rms_contrast;
     michelson_contrast := michelson_contrast;
     contrast_histogram_spread := hist_spread |}.

(** The loop of [_classify_document_type] that counts text-like contours. *)
Fixpoint count_text_like (contours : list blob) : Z :=
  match contours with
  | [] => 0
  | c :: rest =>
      if Qgt_bool (blob_area c) 10 && Qgt_bool 5000 (blob_area c) then
        let aspect_ratio :=
          if 0 <? blob_h c then (inject_Z (blob_w c) / inject_Z (blob_h c))%Q
          else 0%Q in
        if Qgt_bool aspect_ratio (1 # 10) && Qgt_bool 10 aspect_ratio
        then 1 + count_text_like rest
        else count_text_like rest
      else count_text_like rest
  end.

Definition _classify_document_type (gray : Img) : document_type_report :=
  let edge_density := edge_density cv gray in
  let text_like_contours := count_text_like (closed_contours cv gray) in
  let doc_type :=
    if Qgt_bool edge_density (5 # 100) && (50 <? text_like_contours) then "text_heavy"
    else if Qgt_bool edge_density (1 # 10) then "mixed_content"
    else "simple_text" in
  {| doc_type := doc_type;
     doc_edge_density := edge_density;
     text_regions := text_like_contours |}.

Definition _assess_blur (gray : Img) : blur_report :=
  let laplacian_var := laplacian_variance cv gray in
  let sobel_var := sobel_variance cv gray in
  let blur_level :=
    if Qgt_bool laplacian_var 800 then "sharp"
    else if Qgt_bool laplacian_var 200 then "moderate"
    else "blurry" in
  {| blur_level := blur_level;
     blur_laplacian_variance := laplacian_var;
     blur_sobel_variance := sobel_var |}.

(** The entries [analyze_document_quality] collects for one grayscale
    array, given its brightness level and its skew result. *)
Definition measurements_of (gray : Img) (brightness_level : string)
    (skew : Skew.skew_result) : Analyzer.measurements :=
  {| Analyzer.noise_level := noise_level (_assess_noise_level gray);
     Analyzer.contrast_quality := contrast_level (_assess_contrast gray);
     Analyzer.brightness_level := brightness_level;
     Analyzer.skew_angle := skew;
     Analyzer.document_type := doc_type (_classify_document_type gray);
     Analyzer.blur_level := blur_level (_assess_blur gray) |}.

End Classifiers.

End Measures.

(** ** Standalone assessment ([assess_document_quality]) *)

Module Assess.

(** The dictionary [assess_document_quality] returns; [detailed_analysis]
    holds the six sub-analyses. *)
Record assessment := Assessment {
  quality_score : Z;
  recommendations : list (string * value);
  detailed_analysis : Analyzer.measurements
}.

Definition assess_document_quality {Img : Type} (rt : runtime Img)
    (image_bytes : list Byte.byte) : option assessment :=
  img_array ← load_image rt image_bytes;
  analysis ← Pass1.analyze_document_quality rt img_array;
  Some {| quality_score := Analyzer.quality_score analysis;
          recommendations := Analyzer.recommendations analysis;
          detailed_analysis := Analyzer.measured analysis |}.

End Assess.

(** ** Temporary files ([create_temp_file],
       [apply_dynamic_preprocessing_to_file]) *)

Module Files.

(** The files on disk and the caller's list of paths to clean up. *)
Record fs_state := FsState {
  files : gmap string (list Byte.byte);
  temp_file_paths : list string
}.

(** What [apply_dynamic_preprocessing_to_file] returns beside the path: the
    report of the pipeline, or the literal
    [{"processing_applied": [], "quality_score": None}]. *)
Inductive file_report :=
  | Processed (report : Entry.report)
  | PassThrough.

(** The global name [logger] as [utils/helper/preprocessing.py] binds it:
    the module has no such global (its only [logger] is a local variable of
    [preprocess_image]), so reading the name raises [NameError]. *)
Definition helper_logger : option unit := None.

(** [c.lower()] for an ASCII letter; other bytes are left as they are. *)
Definition ascii_lower (c : Ascii.ascii) : Ascii.ascii :=
  let n := Ascii.nat_of_ascii c in
  if (65 <=? n)%nat && (n <=? 90)%nat then Ascii.ascii_of_nat (n + 32) else c.

(** [s.lower()], enough to decide membership in a list of ASCII suffixes. *)
Fixpoint lower (s : string) : string :=
  match s with
  | EmptyString => EmptyString
  | String c rest => String (ascii_lower c) (lower rest)
  end.

Definition image_extensions : list string :=
  [".jpg"; ".jpeg"; ".png"; ".tif"; ".tiff"; ".bmp"; ".webp"].

(** [file_ext.lower() in [...]] *)
Definition is_image_extension (file_ext : string) : bool :=
  bool_decide (lower file_ext ∈ image_extensions).

Section Files.

Context {Img : Type} (rt : runtime Img).

(** [tempfile.NamedTemporaryFile(delete=False, suffix=suffix)]: the name the
    system picks given the files present, or [None] when it raises. *)
Variable named_temporary_file : gmap string (list Byte.byte) → string → option string.

(** The state after the call and the returned path, [None] when the call
    raised.  The file is written and its path appended before the line that
    reads [logger]; leaving the [with] block closes the file and keeps it
    ([delete=False]). *)
Definition create_temp_file (content : list Byte.byte) (suffix : string)
    (st : fs_state) : fs_state * option string :=
  match named_temporary_file (files st) suffix with
  | None => (st, None)
  | Some temp_path =>
      ({| files := <[temp_path := content]> (files st);
          temp_file_paths := (temp_file_paths st ++ [temp_path])%list |},
       _ ← helper_logger; Some temp_path)
  end.

Definition apply_dynamic_preprocessing_to_file
    (file_bytes : list Byte.byte) (file_ext : string)
    (preprocessing_options : option (gmap string value)) (st : fs_state)
  : fs_state * option (string * file_report) :=
  if is_image_extension file_ext then
    match Entry.dynamic_preprocess_image rt file_bytes preprocessing_options with
    | None => (st, None)
    | Some (processed_bytes, report, _) =>
        let '(st', created) := create_temp_file processed_bytes file_ext st in
        (st', temp_path ← created; Some (temp_path, Processed report))
    end
  else
    let '(st', created) := create_temp_file file_bytes file_ext st in
    (st', temp_path ← created; Some (temp_path, PassThrough)).

End Files.

End Files.

(** ** The OCR request handler's use of the pipeline
       ([app/services/ocr_adapter.py], [run_ocr]) *)

Module Caller.

(** The literal options [run_ocr] passes. *)
Definition caller_options : gmap string value :=
  {[ "denoise" := dict_of [("strength", VInt 7); ("template", VInt 7);
                           ("search", VInt 21)] ]}.

(** [file_type != "application/pdf" and file_type and
    file_type.startswith("image/")] *)
Definition wants_preprocessing (file_type : string) : bool :=
  negb (bool_decide (file_type = "application/pdf"))
  && negb (bool_decide (file_type = ""))
  && String.prefix "image/" file_type.

(** The preprocessing block of [run_ocr]: the pair [(file_bytes, file_type)]
    handed to the document processor. *)
Definition preprocess_input {Img : Type} (rt : runtime Img)
    (file_bytes : list Byte.byte) (file_type : string)
  : list Byte.byte * string :=
  if wants_preprocessing file_type then
    match Entry.dynamic_preprocess_image rt file_bytes (Some caller_options) with
    | Some (processed_bytes, _, _) => (processed_bytes, "image/jpeg")
    | None => (file_bytes, file_type)
    end
  else (file_bytes, file_type).

End Caller.

(** ** Reading a recommendation dictionary *)

(** Whether the entry under [k] is a dictionary whose [enabled] is true. *)
Definition enabled_at (recs : list (string * value)) (k : string) : bool :=
  match assoc k recs with
  | Some v => Pass1.is_enabled v
  | None => false
  end.

(** Field [f] of the dictionary stored under [k]. *)
Definition field_at (recs : list (string * value)) (k f : string) : option value :=
  match assoc k recs with
  | Some (VDict c) => c !! f
  | _ => None
  end.

(** ** Reading the log *)

(** The step names of the "Applying ..." lines, in the order logged: the
    operators the first pass dispatched. *)
Definition dispatched (log : list event) : list string :=
  omap (λ e, match e with LogApplying name _ => Some name | _ => None end) log.

(** Descending order of priority: the two keys compare and the first is
    not below the second. *)
Definition priority_ge (s t : Pass1.step) : Prop :=
  Pass1.py_lt (Pass1.step_priority s) (Pass1.step_priority t) = Some false.

(** A step whose priority equals [p] as Python compares. *)
Definition same_priority (p : value) (s : Pass1.step) : bool :=
  match Pass1.py_lt p (Pass1.step_priority s), Pass1.py_lt (Pass1.step_priority s) p with
  | Some false, Some false => true
  | _, _ => false
  end.

(** A priority that is a number, and one that is a string. *)
Definition numeric_priority (s : Pass1.step) : Prop :=
  is_Some (num_of_value (Pass1.step_priority s)).

Definition string_priority (s : Pass1.step) : Prop :=
  ∃ t, Pass1.step_priority s = VStr t.

(** Priorities the sort can compare: there is at most one of them, or they
    are all numbers, or all strings. *)
Definition comparable_priorities (l : list Pass1.step) : Prop :=
  (length l <= 1)%nat ∨ Forall numeric_priority l ∨ Forall string_priority l.

(** ** The first pass as a composition of operators *)

(** The five operators of the first pass by name. *)
Definition operators {Img} (rt : runtime Img)
  : list (string * (Img → Img → gmap string value → (Img * Img) * list event)) :=
  [("deskew", Pass1._apply_deskew rt); ("denoise", Pass1._apply_denoise rt);
   ("contrast", Pass1._apply_contrast rt); ("brightness", Pass1._apply_brightness rt);
   ("sharpen", Pass1._apply_sharpen rt)].

(** The working pair after the operator a step names has been applied to
    it with the step's configuration; a name outside the table leaves the
    pair as it is. *)
Definition operator_result {Img} (rt : runtime Img) (current : Img * Img)
    (s : Pass1.step) : Img * Img :=
  match assoc (Pass1.step_name s) (operators rt) with
  | Some operator => (operator current.1 current.2 (Pass1.step_config s)).1
  | None => current
  end.

(** The operators of a list of steps applied one after the other, the
    first step first. *)
Definition applied_in_order {Img} (rt : runtime Img) (steps : list Pass1.step)
    (working : Img * Img) : Img * Img :=
  fold_left (operator_result rt) steps working.

(** The pair the first pass starts from: the image in three channels and in
    one. *)
Definition working_pair {Img} (rt : runtime Img) (img_array : Img) : option (Img * Img) :=
  if ndim3 rt img_array
  then gray ← rgb_to_gray rt img_array; Some (img_array, gray)
  else rgb ← gray_to_rgb rt img_array; Some (rgb, img_array).

(** Lines of the override pass. *)
Definition user_event (e : event) : Prop :=
  match e with
  | LogUserApplied _ | LogUserFailed _ => True
  | _ => False
  end.

(** The operator a log line is about. *)
Definition event_op (e : event) : string :=
  match e with
  | LogApplying name _ => name
  | LogApplied op | LogFailed op | LogUserApplied op | LogUserFailed op => op
  end.

(** ** Naming the blocks of the override pass *)

(** The block of [_apply_user_overrides] that reads option [key]. *)
Definition override_block {Img} (rt : runtime Img) (key : string)
    (opts : gmap string value) (working_img : Img) : option (Img * list event) :=
  if bool_decide (key = "grayscale") then Overrides.user_grayscale rt opts working_img
  else if bool_decide (key = "denoise") then Some (Overrides.user_denoise rt opts working_img)
  else if bool_decide (key = "contrast") then Overrides.user_contrast rt opts working_img
  else if bool_decide (key = "brightness") then Overrides.user_brightness rt opts working_img
  else if bool_decide (key = "sharpen") then Overrides.user_sharpen rt opts working_img
  else Some (working_img, []).

(** The integer a denoise dictionary yields for a sub-key: its own entry
    converted with [int], or the default when the sub-key is absent. *)
Definition sub_option {Img} (rt : runtime Img) (d : gmap string value)
    (key : string) (default n : Z) : Prop :=
  (d !! key = None ∧ n = default)
  ∨ (∃ v, d !! key = Some v ∧ Overrides.py_int rt v = Some n).

(** Two option dictionaries that the override pass cannot tell apart: it
    reads [grayscale] and [denoise] for truth, and the three others through
    [int_option]. *)
Definition same_reading {Img} (rt : runtime Img) (opts opts' : gmap string value) : Prop :=
  truthy (dict_get opts "grayscale" (VBool false))
    = truthy (dict_get opts' "grayscale" (VBool false))
  ∧ (dict_get opts "denoise" (VBool false) = dict_get opts' "denoise" (VBool false)
     ∨ (truthy (dict_get opts "denoise" (VBool false)) = false
        ∧ truthy (dict_get opts' "denoise" (VBool false)) = false))
  ∧ Overrides.int_option rt opts "contrast" = Overrides.int_option rt opts' "contrast"
  ∧ Overrides.int_option rt opts "brightness" = Overrides.int_option rt opts' "brightness"
  ∧ Overrides.int_option rt opts "sharpen" = Overrides.int_option rt opts' "sharpen".

(** ** Runtimes for concrete runs *)

(** A runtime on one-pixel images: every page measures as [lv], carries no
    line and no contour, the denoising filters raise when [filters_raise],
    and every other routine succeeds and returns its input. *)
Definition test_runtime (lv : cv_levels) (filters_raise : bool) : runtime unit :=
  {| int_of_str := λ _, None;
     atan2_deg := λ _ _, 0%Q;
     load_image := λ _, Some tt;
     ndim3 := λ _, true;
     rgb_to_gray := λ _, Some tt;
     gray_to_rgb := λ _, Some tt;
     assess_levels := λ _, Some lv;
     skew_source := λ _, Some {| Skew.hough := Skew.HoughNoLines;
                                 Skew.contours := Some [] |};
     warp_rotate := λ img gray _, Some (img, gray);
     nl_means_colored := λ img _ _ _ _, if filters_raise then None else Some img;
     nl_means := λ img _ _ _, if filters_raise then None else Some img;
     enhance_contrast := λ img _, Some img;
     convert_scale_abs := λ img _, Some img;
     filter2d_clip := λ img _, Some img;
     save_jpeg := λ _, Some [] |}.

(** A sharp, well lit, noisy page. *)
Definition noisy_levels : cv_levels :=
  {| cv_noise := "high"; cv_contrast := "high"; cv_brightness := "normal";
     cv_document_type := "mixed_content"; cv_blur := "sharp" |}.

(** A runtime on labelled images: an image is its layout (three channels
    or one) together with the routines applied to it so far, the latest
    last.  As in the imaging library, a colour conversion rejects the other
    layout, the classifiers and the skew detector take one channel, the
    colour denoiser three and the plain denoiser one; the encoder takes three
    channels.  Both denoisers raise when [filters_raise]. *)
Definition labelled : Type := bool * list string.

Definition mark (label : string) (img : labelled) : labelled :=
  (img.1, (img.2 ++ [label])%list).

Definition labelled_runtime (lv : cv_levels) (page : Skew.skew_input)
    (filters_raise : bool) : runtime labelled :=
  {| int_of_str := λ _, None;
     atan2_deg := λ _ _, 0%Q;
     load_image := λ _, Some (true, []);
     ndim3 := λ img, img.1;
     rgb_to_gray := λ img, if img.1 then Some (false, img.2) else None;
     gray_to_rgb := λ img, if img.1 then None else Some (true, img.2);
     assess_levels := λ img, if img.1 then None else Some lv;
     skew_source := λ img, if img.1 then None else Some page;
     warp_rotate := λ img gray _, Some (mark "rotate" img, mark "rotate" gray);
     nl_means_colored := λ img _ _ _ _,
       if filters_raise then None
       else if img.1 then Some (mark "denoise" img) else None;
     nl_means := λ img _ _ _,
       if filters_raise then None
       else if img.1 then None else Some (mark "denoise" img);
     enhance_contrast := λ img _, Some (mark "contrast" img);
     convert_scale_abs := λ img _, Some (mark "brightness" img);
     filter2d_clip := λ img _, Some (mark "sharpen" img);
     save_jpeg := λ img, if img.1 then Some [] else None |}.

(** A page with three large blocks, each tilted by 3 degrees, and no
    detected line. *)
Definition slanted_page : Skew.skew_input :=
  {| Skew.hough := Skew.HoughNoLines;
     Skew.contours :=
       Some (repeat {| Skew.area := 2000; Skew.rect_w := 40; Skew.rect_h := 20;
                       Skew.rect_angle := 3 |} 3) |}.

(** ** Concrete inputs used in the statements *)

(** The measurements of a uniform mid-gray page. *)
Definition mid_gray_measurements : Analyzer.measurements :=
  {| Analyzer.noise_level := "low";
     Analyzer.contrast_quality := "low";
     Analyzer.brightness_level := "normal";
     Analyzer.skew_angle := {| Skew.angle := 0; Skew.level := "low"; Skew.confidence := 0 |};
     Analyzer.document_type := "simple_text";
     Analyzer.blur_level := "blurry" |}.

(** A page on which every correction is recommended. *)
Definition poor_scan_measurements : Analyzer.measurements :=
  {| Analyzer.noise_level := "high";
     Analyzer.contrast_quality := "low";
     Analyzer.brightness_level := "very_dark";
     Analyzer.skew_angle :=
       {| Skew.angle := 7; Skew.level := "high"; Skew.confidence := 3 # 10 |};
     Analyzer.document_type := "text_heavy";
     Analyzer.blur_level := "blurry" |}.

(** The pixels of an all-black 100x100 page. *)
Definition all_black : list Z := repeat 0 (100 * 100)%nat.

(** The option keys the override pass reads. *)
Definition recognized_keys : list string :=
  ["grayscale"; "denoise"; "contrast"; "brightness"; "sharpen"].

(** The analysis of [poor_scan_measurements] and of [mid_gray_measurements]. *)
Definition poor_scan_analysis : Analyzer.analysis :=
  Analyzer.complete poor_scan_measurements.
Definition mid_gray_analysis : Analyzer.analysis :=
  Analyzer.complete mid_gray_measurements.

(** A page with eleven large upright blocks and no detected line. *)
Definition eleven_blocks : Skew.skew_input :=
  {| Skew.hough := Skew.HoughNoLines;
     Skew.contours :=
       Some (repeat {| Skew.area := 2000; Skew.rect_w := 40; Skew.rect_h := 20;
                       Skew.rect_angle := 0 |} 11) |}.

(** A page with three long segments, two level and one climbing, and one
    large block tilted by 8 degrees. *)
Definition tilted_page : Skew.skew_input :=
  {| Skew.hough :=
       Skew.HoughLines [ {| Skew.x1 := 0; Skew.y1 := 10; Skew.x2 := 200; Skew.y2 := 10 |};
                         {| Skew.x1 := 0; Skew.y1 := 50; Skew.x2 := 200; Skew.y2 := 50 |};
                         {| Skew.x1 := 5; Skew.y1 := 0; Skew.x2 := 5; Skew.y2 := 300 |} ];
     Skew.contours :=
       Some [ {| Skew.area := 5000; Skew.rect_w := 100; Skew.rect_h := 50;
                 Skew.rect_angle := 8 |};
              {| Skew.area := 300; Skew.rect_w := 20; Skew.rect_h := 15;
                 Skew.rect_angle := 30 |} ] |}.

(** An angle function that is right on level segments, the only ones
    [tilted_page] passes to it. *)
Definition level_atan2 : Z → Z → Q := λ _ _, 0%Q.

(** A slightly tilted, washed-out page: deskew and contrast at priority 2,
    denoise, brightness and sharpen at priority 1. *)
Definition mixed_measurements : Analyzer.measurements :=
  {| Analyzer.noise_level := "medium";
     Analyzer.contrast_quality := "low";
     Analyzer.brightness_level := "overexposed";
     Analyzer.skew_angle :=
       {| Skew.angle := 2; Skew.level := "medium"; Skew.confidence := 1 # 2 |};
     Analyzer.document_type := "simple_text";
     Analyzer.blur_level := "blurry" |}.

(** Two enabled entries, the second with the float priority 2.5. *)
Definition float_priority_recommendations : list (string * value) :=
  [("denoise", dict_of [("enabled", VBool true); ("strength", VInt 2);
                        ("priority", VInt 1)]);
   ("sharpen", dict_of [("enabled", VBool true); ("strength", VInt 2);
                        ("priority", VFloat (5 # 2))])].

(** Two enabled entries, the second with a string for its priority. *)
Definition string_priority_recommendations : list (string * value) :=
  [("denoise", dict_of [("enabled", VBool true); ("strength", VInt 2);
                        ("priority", VInt 1)]);
   ("sharpen", dict_of [("enabled", VBool true); ("strength", VInt 2);
                        ("priority", VStr "3")])].

(** The first bytes of a PNG file, standing for an image that decodes. *)
Definition png_bytes : list Byte.byte :=
  [Byte.x89; Byte.x50; Byte.x4e; Byte.x47; Byte.x0d; Byte.x0a; Byte.x1a; Byte.x0a].

(** A run on a noisy page in which both denoising filters raise. *)
Definition failed_denoise_run : option (list Byte.byte * Entry.report * list event) :=
  Entry.dynamic_preprocess_image (test_runtime noisy_levels true) png_bytes None.

(** The same page with working filters. *)
Definition clean_run : option (list Byte.byte * Entry.report * list event) :=
  Entry.dynamic_preprocess_image (test_runtime noisy_levels false) png_bytes None.

(** The report and the log of a run, empty when the call raised. *)
Definition applied_of (run : option (list Byte.byte * Entry.report * list event))
  : list string :=
  match run with
  | Some (_, report, _) => Entry.processing_applied report
  | None => []
  end.

Definition log_of (run : option (list Byte.byte * Entry.report * list event))
  : list event :=
  match run with
  | Some (_, _, log) => log
  | None => []
  end.


(** The options the override pass converts with [int] outside any [try]. *)
Definition integer_keys : list string := ["contrast"; "brightness"; "sharpen"].

Definition scenario_auto : gmap string value :=
  {[ "denoise" := VDict (<["strength" := VInt 3]> (<["template" := VInt 7]> {[ "search" := VInt 21 ]})) ]}.
Definition scenario_user : gmap string value :=
  {[ "denoise" := VDict {[ "strength" := VInt 9 ]} ]}.
Definition scenario_merged : gmap string value :=
  {[ "denoise" := VDict (<["strength" := VInt 9]> (<["template" := VInt 7]> {[ "search" := VInt 21 ]})) ]}.

(** Library measures that return the same numbers for every array: the
    Laplacian variance, the high-pass variance and the extreme values are
    given, six contours are found. *)
Definition flat_measures (laplacian highpass lowest highest : Q)
  : Measures.cv_measures unit :=
  {| Measures.laplacian_variance := λ _, laplacian;
     Measures.highpass_variance := λ _, highpass;
     Measures.local_std_mean := λ _, 0%Q;
     Measures.sobel_variance := λ _, 0%Q;
     Measures.std_dev := λ _, 0%Q;
     Measures.max_value := λ _, highest;
     Measures.min_value := λ _, lowest;
     Measures.histogram_spread := λ _, 0%Q;
     Measures.edge_density := λ _, (2 # 10)%Q;
     Measures.closed_contours :=
       λ _, repeat {| Measures.blob_area := 100; Measures.blob_w := 12;
                      Measures.blob_h := 8 |} 6 |}.

(** Library measures of a page with the given edge density and the given
    number of small contours of glyph shape. *)
Definition contour_measures (density : Q) (count : nat) : Measures.cv_measures unit :=
  {| Measures.laplacian_variance := λ _, 300%Q;
     Measures.highpass_variance := λ _, 10%Q;
     Measures.local_std_mean := λ _, 0%Q;
     Measures.sobel_variance := λ _, 0%Q;
     Measures.std_dev := λ _, 40%Q;
     Measures.max_value := λ _, 250%Q;
     Measures.min_value := λ _, 10%Q;
     Measures.histogram_spread := λ _, 0%Q;
     Measures.edge_density := λ _, density;
     Measures.closed_contours :=
       λ _, repeat {| Measures.blob_area := 100; Measures.blob_w := 12;
                      Measures.blob_h := 8 |} count |}.

(** A sharp, level, well lit page of good contrast: nothing to correct. *)
Definition clean_measurements : Analyzer.measurements :=
  {| Analyzer.noise_level := "low";
     Analyzer.contrast_quality := "high";
     Analyzer.brightness_level := "normal";
     Analyzer.skew_angle := {| Skew.angle := 0; Skew.level := "low"; Skew.confidence := 0 |};
     Analyzer.document_type := "text_heavy";
     Analyzer.blur_level := "sharp" |}.

(** The same noisy page processed with a user option. *)
Definition sharpened_run : option (list Byte.byte * Entry.report * list event) :=
  Entry.dynamic_preprocess_image (test_runtime noisy_levels false) png_bytes
    (Some {[ "sharpen" := VInt 2 ]}).

(** The report of a run, if the call returned. *)
Definition report_of (run : option (list Byte.byte * Entry.report * list event))
  : option Entry.report :=
  match run with
  | Some (_, report, _) => Some report
  | None => None
  end.

(** A name service that offers one name per suffix and raises when that name
    is taken. *)
Definition single_name (present : gmap string (list Byte.byte)) (suffix : string)
  : option string :=
  let path := "/tmp/tmp0" +:+ suffix in
  match present !! path with
  | None => Some path
  | Some _ => None
  end.

(** No file on disk, nothing to clean up. *)
Definition empty_disk : Files.fs_state :=
  {| Files.files := ∅; Files.temp_file_paths := [] |}.

(** A runtime whose decoder rejects every input. *)
Definition undecodable_runtime : runtime unit :=
  {| int_of_str := λ _, None;
     atan2_deg := λ _ _, 0%Q;
     load_image := λ _, None;
     ndim3 := λ _, true;
     rgb_to_gray := λ _, Some tt;
     gray_to_rgb := λ _, Some tt;
     assess_levels := λ _, Some noisy_levels;
     skew_source := λ _, Some {| Skew.hough := Skew.HoughNoLines;
                                 Skew.contours := Some [] |};
     warp_rotate := λ img gray _, Some (img, gray);
     nl_means_colored := λ img _ _ _ _, Some img;
     nl_means := λ img _ _ _, Some img;
     enhance_contrast := λ img _, Some img;
     convert_scale_abs := λ img _, Some img;
     filter2d_clip := λ img _, Some img;
     save_jpeg := λ _, Some [] |}.

(* ================================================================= *)
(** * Theorems *)

(** ** Properties of the merge *)

Module MergeFacts.
Import Merge.
Lemma merge_item_insert k v merged :
  merge_item k v merged = <[k := merged_entry (merged !! k) v]> merged.
Proof.
  unfold merge_item, merged_entry.
  destruct v; try reflexivity.
  destruct (merged !! k) as [[]|]; reflexivity.
Qed.

(** The loop touches each key of [user_opts] once, so the final value under a
    key depends on the two input dictionaries at that key only. *)
Lemma merge_fold_lookup (auto u : gmap string value) (k : string) :
  map_fold merge_item auto u !! k =
    match u !! k with
    | Some v => Some (merged_entry (auto !! k) v)
    | None => auto !! k
    end.
Proof.
  revert k.
  apply (map_fold_weak_ind
           (λ r m, ∀ k, r !! k = match m !! k with
                                  | Some v => Some (merged_entry (auto !! k) v)
                                  | None => auto !! k
                                  end)).
  - intros k. rewrite lookup_empty. reflexivity.
  - intros i x m r Hi IH k.
    rewrite merge_item_insert.
    destruct (decide (i = k)) as [->|Hne].
    + rewrite !lookup_insert_eq. rewrite (IH k), Hi. reflexivity.
    + rewrite !lookup_insert_ne by assumption. apply IH.
Qed.

Lemma merge_lookup auto u k :
  _merge_preprocessing_options auto (Some u) !! k =
    match u !! k with
    | Some v => Some (merged_entry (auto !! k) v)
    | None => auto !! k
    end.
Proof.
  unfold _merge_preprocessing_options.
  case_bool_decide as Hu.
  - subst u. rewrite lookup_empty. reflexivity.
  - apply merge_fold_lookup.
Qed.

End MergeFacts.

(** ** The quality score *)

Module ScoreFacts.
Import Analyzer.

Ltac table_cases :=
  unfold bonus, contrast_table, brightness_table, noise_table, blur_table,
    skew_table; simpl; repeat case_bool_decide; simpl.

Lemma contrast_bonus_range k : 0 <= bonus contrast_table k <= 25.
Proof. table_cases; lia. Qed.

Lemma brightness_bonus_range k : 0 <= bonus brightness_table k <= 20.
Proof. table_cases; lia. Qed.

Lemma noise_penalty_range k : -15 <= bonus noise_table k <= 0.
Proof. table_cases; lia. Qed.

Lemma blur_bonus_range k : -10 <= bonus blur_table k <= 5.
Proof. table_cases; lia. Qed.

Lemma skew_penalty_range k : -5 <= bonus skew_table k <= 0.
Proof. table_cases; lia. Qed.

Lemma raw_score_range m : 20 <= raw_score m <= 100.
Proof.
  unfold raw_score.
  pose proof (contrast_bonus_range (contrast_quality m)).
  pose proof (brightness_bonus_range (brightness_level m)).
  pose proof (noise_penalty_range (noise_level m)).
  pose proof (blur_bonus_range (blur_level m)).
  pose proof (skew_penalty_range (Skew.level (skew_angle m))).
  lia.
Qed.

End ScoreFacts.

(** C3. The quality score is 50 plus the level-indexed bonuses of the five
    tables (contrast: high 25, medium 15, low 0; brightness: normal 20,
    bright 15, dark 10, very_dark 0, overexposed 5; noise: low 0, medium -5,
    high -15; blur: sharp 5, moderate 0, blurry -10; skew: low 0, medium -2,
    high -5), clamped to [0, 100]; it always lies in [0, 100], and the
    classification (contrast low, brightness normal, noise low, blur blurry,
    skew low) scores 60. *)
Theorem quality_score_formula (m : Analyzer.measurements) :
  Analyzer._calculate_quality_score m
    = Z.max 0 (Z.min 100 (Analyzer.raw_score m))
  ∧ 0 <= Analyzer._calculate_quality_score m <= 100
  ∧ map (Analyzer.bonus Analyzer.contrast_table) ["high"; "medium"; "low"]
      = [25; 15; 0]
  ∧ map (Analyzer.bonus Analyzer.brightness_table)
        ["normal"; "bright"; "dark"; "very_dark"; "overexposed"]
      = [20; 15; 10; 0; 5]
  ∧ map (Analyzer.bonus Analyzer.noise_table) ["low"; "medium"; "high"]
      = [0; -5; -15]
  ∧ map (Analyzer.bonus Analyzer.blur_table) ["sharp"; "moderate"; "blurry"]
      = [5; 0; -10]
  ∧ map (Analyzer.bonus Analyzer.skew_table) ["low"; "medium"; "high"]
      = [0; -2; -5]
  ∧ (Analyzer.contrast_quality m = "low" →
     Analyzer.brightness_level m = "normal" →
     Analyzer.noise_level m = "low" →
     Analyzer.blur_level m = "blurry" →
     Skew.level (Analyzer.skew_angle m) = "low" →
     Analyzer._calculate_quality_score m = 60).
Proof.
  split; [reflexivity|].
  split.
  { unfold Analyzer._calculate_quality_score. lia. }
  repeat (split; [reflexivity|]).
  intros Hc Hb Hn Hbl Hs.
  unfold Analyzer._calculate_quality_score.
  rewrite Hc, Hb, Hn, Hbl, Hs. reflexivity.
Qed.

Lemma quality_score_formula_witness :
  Analyzer._calculate_quality_score mid_gray_measurements = 60.
Proof.
  apply (quality_score_formula mid_gray_measurements); reflexivity.
Defined.

(** ** The recommendation table *)

Module DictFacts.

Lemma assoc_dict_set_eq {A} k (v : A) l : assoc k (dict_set k v l) = Some v.
Proof.
  induction l as [|[k' v'] l IH]; simpl.
  - rewrite bool_decide_eq_true_2; reflexivity.
  - case_bool_decide as Hk; simpl.
    + rewrite bool_decide_eq_true_2; reflexivity.
    + rewrite bool_decide_eq_false_2 by assumption. exact IH.
Qed.

Lemma assoc_dict_set_ne {A} k k' (v : A) l :
  k' ≠ k → assoc k (dict_set k' v l) = assoc k l.
Proof.
  intros Hne. induction l as [|[k0 v0] l IH]; simpl.
  - rewrite bool_decide_eq_false_2; [reflexivity | assumption].
  - case_bool_decide as Hk; simpl.
    + subst k0. rewrite !bool_decide_eq_false_2 by assumption. reflexivity.
    + rewrite IH. reflexivity.
Qed.

Lemma dict_set_keys {A} k (v : A) l :
  is_Some (assoc k l) → (dict_set k v l).*1 = l.*1.
Proof.
  induction l as [|[k0 v0] l IH]; simpl.
  - intros [? ?]; discriminate.
  - case_bool_decide as Hk; csimpl; intros Hs.
    + subst k0. reflexivity.
    + rewrite IH; [reflexivity | assumption].
Qed.

Lemma assoc_is_Some_keys {A} k (l : list (string * A)) :
  is_Some (assoc k l) ↔ k ∈ l.*1.
Proof.
  induction l as [|[k0 v0] l IH]; csimpl.
  - split; [intros [? ?]; discriminate | intros H; inversion H].
  - case_bool_decide as Hk.
    + subst k0. split; [intros _; left | intros _; eexists; reflexivity].
    + rewrite IH. split; [intros H; right; exact H|].
      intros H. inversion H; subst; [congruence | assumption].
Qed.

(** A conditional assignment, as the analyzer writes them. *)
Lemma assoc_cond_set {A} k k' (c : bool) (v : A) l :
  assoc k (if c then dict_set k' v l else l) =
    if c && bool_decide (k' = k) then Some v else assoc k l.
Proof.
  destruct c; simpl; [|reflexivity].
  case_bool_decide as Hk.
  - subst k'. apply assoc_dict_set_eq.
  - apply assoc_dict_set_ne. assumption.
Qed.

Lemma keys_cond_set {A} k (c : bool) (v : A) l :
  k ∈ l.*1 → (if c then dict_set k v l else l).*1 = l.*1.
Proof.
  intros Hk. destruct c; [|reflexivity].
  apply dict_set_keys, assoc_is_Some_keys, Hk.
Qed.

Lemma assoc_if {A} k (c : bool) (l1 l2 : list (string * A)) :
  assoc k (if c then l1 else l2) = if c then assoc k l1 else assoc k l2.
Proof. destruct c; reflexivity. Qed.

Lemma if_same {A} (c : bool) (x : A) : (if c then x else x) = x.
Proof. destruct c; reflexivity. Qed.

End DictFacts.

Module RecommendFacts.
Import Analyzer DictFacts.

(** Reads one key through the chain of conditional assignments. *)
Ltac entry_cases :=
  unfold _generate_recommendations; cbv zeta;
  set (base := ("deskew", _) :: _);
  repeat first
    [ rewrite assoc_dict_set_ne by discriminate
    | rewrite assoc_if
    | rewrite if_same
    | rewrite assoc_dict_set_eq ];
  subst base;
  repeat match goal with
         | |- context [if ?c then _ else _] => destruct c
         end;
  reflexivity.

Lemma deskew_entry m :
  assoc "deskew" (_generate_recommendations m) =
    Some (if one_of (Skew.level (skew_angle m)) "medium" "high"
          then dict_of [("enabled", VBool true);
                        ("priority",
                          VInt (if bool_decide (Skew.level (skew_angle m) = "high")
                                then 3 else 2));
                        ("angle_threshold", VFloat (1 # 2)); ("max_angle", VInt 10)]
          else dict_of [("enabled", VBool false); ("priority", VInt 0)]).
Proof. entry_cases. Qed.

Lemma denoise_entry m :
  assoc "denoise" (_generate_recommendations m) =
    Some (if one_of (noise_level m) "medium" "high"
          then dict_of [("enabled", VBool true);
                        ("strength",
                          VInt (if bool_decide (noise_level m = "high") then 3 else 2));
                        ("priority",
                          VInt (if bool_decide (noise_level m = "high") then 2 else 1))]
          else dict_of [("enabled", VBool false); ("strength", VInt 0);
                        ("priority", VInt 0)]).
Proof. entry_cases. Qed.

Lemma contrast_entry m :
  assoc "contrast" (_generate_recommendations m) =
    Some (if bool_decide (contrast_quality m = "low")
          then dict_of [("enabled", VBool true); ("adjustment", VInt 30);
                        ("priority", VInt 2)]
          else dict_of [("enabled", VBool false); ("adjustment", VInt 0);
                        ("priority", VInt 0)]).
Proof. entry_cases. Qed.

Lemma brightness_entry m :
  assoc "brightness" (_generate_recommendations m) =
    Some (if one_of (brightness_level m) "dark" "very_dark"
          then dict_of [("enabled", VBool true);
                        ("adjustment",
                          VInt (if bool_decide (brightness_level m = "very_dark")
                                then 40 else 20));
                        ("priority", VInt 2)]
          else if bool_decide (brightness_level m = "overexposed")
          then dict_of [("enabled", VBool true); ("adjustment", VInt (-20));
                        ("priority", VInt 1)]
          else dict_of [("enabled", VBool false); ("adjustment", VInt 0);
                        ("priority", VInt 0)]).
Proof. entry_cases. Qed.

Lemma sharpen_entry m :
  assoc "sharpen" (_generate_recommendations m) =
    Some (if bool_decide (blur_level m = "blurry")
          then dict_of [("enabled", VBool true); ("strength", VInt 2);
                        ("priority", VInt 1)]
          else dict_of [("enabled", VBool false); ("strength", VInt 0);
                        ("priority", VInt 0)]).
Proof. entry_cases. Qed.

Lemma threshold_entry m :
  assoc "threshold_method" (_generate_recommendations m) =
    Some (VStr (if bool_decide (document_type m = "text_heavy")
                then "adaptive" else "otsu")).
Proof. entry_cases. Qed.

Lemma recommendation_keys m :
  (_generate_recommendations m).*1 =
    ["deskew"; "denoise"; "contrast"; "brightness"; "sharpen"; "threshold_method"].
Proof.
  unfold _generate_recommendations; cbv zeta.
  set (base := ("deskew", _) :: _).
  assert (Hbase : base.*1 =
    ["deskew"; "denoise"; "contrast"; "brightness"; "sharpen"; "threshold_method"])
    by reflexivity.
  rewrite <- Hbase. clearbody base.
  assert (Hset : ∀ k (v : value) l, l.*1 = base.*1 → k ∈ base.*1 →
                 (dict_set k v l).*1 = base.*1).
  { intros k v l Hl Hk. rewrite dict_set_keys; [exact Hl|].
    apply assoc_is_Some_keys. rewrite Hl. exact Hk. }
  assert (Hin : ∀ k, k ∈ ["deskew"; "denoise"; "contrast"; "brightness"; "sharpen";
                           "threshold_method"] → k ∈ base.*1)
    by (intros k Hk; rewrite Hbase; exact Hk).
  repeat first
    [ reflexivity
    | apply Hset; [| apply Hin, list_elem_of_In; simpl; tauto]
    | match goal with
      | |- (if ?c then _ else _).*1 = _ => destruct c
      end ].
Qed.

End RecommendFacts.

(** C5. The recommendation set is derived from the levels alone: deskew is
    enabled iff the skew level is medium or high, with priority 3 if high
    else 2, angle_threshold 0.5 and max_angle 10; denoise is enabled iff the
    noise level is medium or high, with strength 3 if high else 2 and
    priority 2 if high else 1; contrast is enabled iff the contrast level is
    low, with adjustment 30 and priority 2; brightness is enabled iff the
    brightness level is dark, very_dark or overexposed, with adjustment 40
    for very_dark, 20 for dark and -20 for overexposed, and priority 2 for
    the two dark levels, 1 for overexposed; sharpen is enabled iff the blur
    level is blurry, with strength 2 and priority 1; threshold_method is
    'adaptive' iff the document type is text_heavy, else 'otsu'. *)
Theorem recommendations_table (m : Analyzer.measurements) :
  let recs := Analyzer._generate_recommendations m in
  let skew := Skew.level (Analyzer.skew_angle m) in
  let noise := Analyzer.noise_level m in
  let brightness := Analyzer.brightness_level m in
  recs.*1 = ["deskew"; "denoise"; "contrast"; "brightness"; "sharpen";
             "threshold_method"]
  ∧ (enabled_at recs "deskew" = true ↔ skew = "medium" ∨ skew = "high")
  ∧ (enabled_at recs "deskew" = true →
       field_at recs "deskew" "priority"
         = Some (VInt (if bool_decide (skew = "high") then 3 else 2))
       ∧ field_at recs "deskew" "angle_threshold" = Some (VFloat (1 # 2))
       ∧ field_at recs "deskew" "max_angle" = Some (VInt 10))
  ∧ (enabled_at recs "denoise" = true ↔ noise = "medium" ∨ noise = "high")
  ∧ (enabled_at recs "denoise" = true →
       field_at recs "denoise" "strength"
         = Some (VInt (if bool_decide (noise = "high") then 3 else 2))
       ∧ field_at recs "denoise" "priority"
         = Some (VInt (if bool_decide (noise = "high") then 2 else 1)))
  ∧ (enabled_at recs "contrast" = true ↔ Analyzer.contrast_quality m = "low")
  ∧ (enabled_at recs "contrast" = true →
       field_at recs "contrast" "adjustment" = Some (VInt 30)
       ∧ field_at recs "contrast" "priority" = Some (VInt 2))
  ∧ (enabled_at recs "brightness" = true ↔
       brightness = "dark" ∨ brightness = "very_dark" ∨ brightness = "overexposed")
  ∧ (enabled_at recs "brightness" = true →
       field_at recs "brightness" "adjustment"
         = Some (VInt (if bool_decide (brightness = "very_dark") then 40
                       else if bool_decide (brightness = "dark") then 20
                       else -20))
       ∧ field_at recs "brightness" "priority"
         = Some (VInt (if bool_decide (brightness = "overexposed") then 1 else 2)))
  ∧ (enabled_at recs "sharpen" = true ↔ Analyzer.blur_level m = "blurry")
  ∧ (enabled_at recs "sharpen" = true →
       field_at recs "sharpen" "strength" = Some (VInt 2)
       ∧ field_at recs "sharpen" "priority" = Some (VInt 1))
  ∧ (assoc "threshold_method" recs = Some (VStr "adaptive") ↔
       Analyzer.document_type m = "text_heavy")
  ∧ (Analyzer.document_type m ≠ "text_heavy" →
       assoc "threshold_method" recs = Some (VStr "otsu")).
Proof.
  intros recs skew noise brightness.
  subst recs skew noise brightness.
  unfold enabled_at, field_at.
  rewrite RecommendFacts.recommendation_keys, RecommendFacts.deskew_entry,
    RecommendFacts.denoise_entry, RecommendFacts.contrast_entry,
    RecommendFacts.brightness_entry, RecommendFacts.sharpen_entry,
    RecommendFacts.threshold_entry.
  unfold Analyzer.one_of.
  repeat split;
    repeat case_bool_decide; simpl;
    try reflexivity; try discriminate; try congruence; try tauto;
    try (intros [?|?]; congruence);
    try (intros [?|[?|?]]; congruence).
Qed.

Lemma recommendations_table_witness :
  (field_at (Analyzer._generate_recommendations poor_scan_measurements)
     "deskew" "priority" = Some (VInt 3)
   ∧ field_at (Analyzer._generate_recommendations poor_scan_measurements)
       "denoise" "strength" = Some (VInt 3)
   ∧ field_at (Analyzer._generate_recommendations poor_scan_measurements)
       "contrast" "adjustment" = Some (VInt 30)
   ∧ field_at (Analyzer._generate_recommendations poor_scan_measurements)
       "brightness" "adjustment" = Some (VInt 40)
   ∧ field_at (Analyzer._generate_recommendations poor_scan_measurements)
       "sharpen" "strength" = Some (VInt 2))
  ∧ assoc "threshold_method" (Analyzer._generate_recommendations mid_gray_measurements)
      = Some (VStr "otsu").
Proof.
  split.
  - destruct (recommendations_table poor_scan_measurements)
      as (_ & _ & Hdeskew & _ & Hdenoise & _ & Hcontrast & _ & Hbrightness & _
          & Hsharpen & _).
    split; [apply Hdeskew; vm_compute; reflexivity|].
    split; [apply Hdenoise; vm_compute; reflexivity|].
    split; [apply Hcontrast; vm_compute; reflexivity|].
    split; [apply Hbrightness; vm_compute; reflexivity|].
    apply Hsharpen; vm_compute; reflexivity.
  - destruct (recommendations_table mid_gray_measurements)
      as (_ & _ & _ & _ & _ & _ & _ & _ & _ & _ & _ & _ & Hotsu).
    apply Hotsu. vm_compute. discriminate.
Defined.

(** ** The automatic options *)

Module AutoFacts.
Import Analyzer AutoOpts DictFacts.

(** The function is the composition of its five rules. *)
Lemma derive_by_rules a :
  _derive_auto_preprocessing_options a =
    grayscale_rule a (sharpen_rule a (brightness_rule a (contrast_rule a
      (denoise_rule a ∅)))).
Proof. reflexivity. Qed.

Lemma lookup_if (c : bool) (m1 m2 : gmap string value) k :
  (if c then m1 else m2) !! k = if c then m1 !! k else m2 !! k.
Proof. destruct c; reflexivity. Qed.

Ltac rule_cases :=
  cbv zeta;
  repeat match goal with
         | |- context [if ?c then _ else _] => destruct c
         end;
  rewrite ?lookup_insert_eq, ?lookup_insert_ne by assumption; reflexivity.

Lemma denoise_rule_other a m k : "denoise" ≠ k → denoise_rule a m !! k = m !! k.
Proof. intros Hk. unfold denoise_rule. rule_cases. Qed.

Lemma contrast_rule_other a m k : "contrast" ≠ k → contrast_rule a m !! k = m !! k.
Proof. intros Hk. unfold contrast_rule. rule_cases. Qed.

Lemma brightness_rule_other a m k :
  "brightness" ≠ k → brightness_rule a m !! k = m !! k.
Proof. intros Hk. unfold brightness_rule. rule_cases. Qed.

Lemma sharpen_rule_other a m k : "sharpen" ≠ k → sharpen_rule a m !! k = m !! k.
Proof. intros Hk. unfold sharpen_rule. rule_cases. Qed.

Lemma grayscale_rule_other a m k :
  "grayscale" ≠ k → grayscale_rule a m !! k = m !! k.
Proof. intros Hk. unfold grayscale_rule. rule_cases. Qed.

Ltac skip_rules :=
  rewrite derive_by_rules;
  rewrite ?grayscale_rule_other, ?sharpen_rule_other, ?brightness_rule_other,
    ?contrast_rule_other, ?denoise_rule_other by discriminate.

Lemma auto_denoise a :
  _derive_auto_preprocessing_options a !! "denoise" =
    if bool_decide (noise_level (measured a) = "high")
    then Some (dict_of [("strength", VInt 7)])
    else if bool_decide (noise_level (measured a) = "medium")
    then Some (dict_of [("strength", VInt 4)])
    else if bool_decide (noise_level (measured a) = "low") && (quality_score a <? 45)
    then Some (dict_of [("strength", VInt 3)])
    else None.
Proof. skip_rules. unfold denoise_rule. rule_cases. Qed.

Lemma auto_contrast a :
  _derive_auto_preprocessing_options a !! "contrast" =
    if bool_decide (contrast_quality (measured a) = "low") then Some (VInt 30)
    else if bool_decide (contrast_quality (measured a) = "medium")
            && (quality_score a <? 60)
    then Some (VInt 15)
    else None.
Proof.
  skip_rules. unfold contrast_rule. rewrite !lookup_if.
  rewrite !lookup_insert_eq, denoise_rule_other, lookup_empty by discriminate.
  reflexivity.
Qed.

Lemma auto_brightness a :
  _derive_auto_preprocessing_options a !! "brightness" =
    if bool_decide (brightness_level (measured a) = "very_dark") then Some (VInt 40)
    else if bool_decide (brightness_level (measured a) = "dark") then Some (VInt 20)
    else if bool_decide (brightness_level (measured a) = "overexposed")
    then Some (VInt (-20))
    else None.
Proof.
  skip_rules. unfold brightness_rule. rewrite !lookup_if.
  rewrite !lookup_insert_eq, contrast_rule_other, denoise_rule_other, lookup_empty
    by discriminate.
  reflexivity.
Qed.

Lemma auto_sharpen a :
  _derive_auto_preprocessing_options a !! "sharpen" =
    if bool_decide (blur_level (measured a) = "blurry") && (quality_score a <? 65)
    then Some (VInt 1)
    else None.
Proof.
  skip_rules. unfold sharpen_rule. rewrite !lookup_if.
  rewrite !lookup_insert_eq, brightness_rule_other, contrast_rule_other,
    denoise_rule_other, lookup_empty by discriminate.
  reflexivity.
Qed.

Lemma auto_grayscale a :
  _derive_auto_preprocessing_options a !! "grayscale" =
    if one_of (document_type (measured a)) "simple_text" "text_heavy"
       && negb (bool_decide (brightness_level (measured a) = "overexposed"))
    then Some (VBool true)
    else None.
Proof.
  skip_rules. unfold grayscale_rule. rewrite !lookup_if.
  rewrite !lookup_insert_eq, sharpen_rule_other, brightness_rule_other,
    contrast_rule_other, denoise_rule_other, lookup_empty by discriminate.
  reflexivity.
Qed.

Lemma auto_other a k :
  k ∉ recognized_keys → _derive_auto_preprocessing_options a !! k = None.
Proof.
  intros Hk.
  assert (Hne : ∀ k', k' ∈ recognized_keys → k' ≠ k) by (intros k' Hk' ->; auto).
  rewrite derive_by_rules.
  rewrite grayscale_rule_other, sharpen_rule_other, brightness_rule_other,
    contrast_rule_other, denoise_rule_other
    by (apply Hne, list_elem_of_In; simpl; tauto).
  apply lookup_empty.
Qed.

End AutoFacts.

(** C6. The automatic options are: denoise strength 7 if noise is high, 4 if
    medium, 3 if low and the score is below 45; contrast 30 if contrast is
    low, 15 if medium and the score is below 60; brightness 40 if very_dark,
    20 if dark, -20 if overexposed; sharpen 1 if blur is blurry and the score
    is below 65; grayscale True iff the document type is simple_text or
    text_heavy and brightness is not overexposed; nothing else is set.  An
    all-black page has brightness level very_dark, so its automatic options
    contain brightness 40. *)
Theorem auto_options_table (a : Analyzer.analysis) :
  let opts := AutoOpts._derive_auto_preprocessing_options a in
  let q := Analyzer.quality_score a in
  let noise := Analyzer.noise_level (Analyzer.measured a) in
  let contrast := Analyzer.contrast_quality (Analyzer.measured a) in
  let brightness := Analyzer.brightness_level (Analyzer.measured a) in
  let blur := Analyzer.blur_level (Analyzer.measured a) in
  let doc_type := Analyzer.document_type (Analyzer.measured a) in
  (noise = "high" → opts !! "denoise" = Some (dict_of [("strength", VInt 7)]))
  ∧ (noise = "medium" → opts !! "denoise" = Some (dict_of [("strength", VInt 4)]))
  ∧ (noise = "low" → q < 45 →
       opts !! "denoise" = Some (dict_of [("strength", VInt 3)]))
  ∧ (noise ≠ "high" → noise ≠ "medium" → ¬ (noise = "low" ∧ q < 45) →
       opts !! "denoise" = None)
  ∧ (contrast = "low" → opts !! "contrast" = Some (VInt 30))
  ∧ (contrast = "medium" → q < 60 → opts !! "contrast" = Some (VInt 15))
  ∧ (contrast ≠ "low" → ¬ (contrast = "medium" ∧ q < 60) →
       opts !! "contrast" = None)
  ∧ (brightness = "very_dark" → opts !! "brightness" = Some (VInt 40))
  ∧ (brightness = "dark" → opts !! "brightness" = Some (VInt 20))
  ∧ (brightness = "overexposed" → opts !! "brightness" = Some (VInt (-20)))
  ∧ (brightness ≠ "very_dark" → brightness ≠ "dark" → brightness ≠ "overexposed" →
       opts !! "brightness" = None)
  ∧ (blur = "blurry" → q < 65 → opts !! "sharpen" = Some (VInt 1))
  ∧ (¬ (blur = "blurry" ∧ q < 65) → opts !! "sharpen" = None)
  ∧ (opts !! "grayscale" = Some (VBool true) ↔
       (doc_type = "simple_text" ∨ doc_type = "text_heavy")
       ∧ brightness ≠ "overexposed")
  ∧ (opts !! "grayscale" ≠ Some (VBool true) → opts !! "grayscale" = None)
  ∧ (∀ k, k ∉ recognized_keys → opts !! k = None)
  ∧ Analyzer.level (Analyzer._assess_brightness all_black) = "very_dark"
  ∧ (brightness = Analyzer.level (Analyzer._assess_brightness all_black) →
       opts !! "brightness" = Some (VInt 40)).
Proof.
  intros opts q noise contrast brightness blur doc_type.
  subst opts q noise contrast brightness blur doc_type.
  assert (Hblack : Analyzer.level (Analyzer._assess_brightness all_black) = "very_dark")
    by (vm_compute; reflexivity).
  rewrite Hblack.
  rewrite AutoFacts.auto_denoise, AutoFacts.auto_contrast, AutoFacts.auto_brightness,
    AutoFacts.auto_sharpen, AutoFacts.auto_grayscale.
  unfold Analyzer.one_of.
  generalize (Analyzer.quality_score a) (Analyzer.noise_level (Analyzer.measured a))
    (Analyzer.contrast_quality (Analyzer.measured a))
    (Analyzer.brightness_level (Analyzer.measured a))
    (Analyzer.blur_level (Analyzer.measured a))
    (Analyzer.document_type (Analyzer.measured a)).
  intros q noise contrast brightness blur doc_type.
  assert (Hlt : ∀ n, q < n → (q <? n) = true) by (intros n Hn; apply Z.ltb_lt, Hn).
  split; [intros ->; reflexivity|].
  split; [intros ->; reflexivity|].
  split; [intros -> Hq; rewrite (Hlt _ Hq); reflexivity|].
  split.
  { intros H1 H2 H3. rewrite !bool_decide_eq_false_2 by assumption.
    case_bool_decide as Hlow; simpl; [|reflexivity].
    destruct (Z.ltb_spec q 45) as [Hq|Hq]; [|reflexivity].
    exfalso. apply H3. split; assumption. }
  split; [intros ->; reflexivity|].
  split; [intros -> Hq; rewrite (Hlt _ Hq); reflexivity|].
  split.
  { intros H1 H2. rewrite bool_decide_eq_false_2 by assumption.
    case_bool_decide as Hmed; simpl; [|reflexivity].
    destruct (Z.ltb_spec q 60) as [Hq|Hq]; [|reflexivity].
    exfalso. apply H2. split; assumption. }
  split; [intros ->; reflexivity|].
  split; [intros ->; reflexivity|].
  split; [intros ->; reflexivity|].
  split; [intros H1 H2 H3; rewrite !bool_decide_eq_false_2 by assumption; reflexivity|].
  split; [intros -> Hq; rewrite (Hlt _ Hq); reflexivity|].
  split.
  { intros H1. case_bool_decide as Hbl; simpl; [|reflexivity].
    destruct (Z.ltb_spec q 65) as [Hq|Hq]; [|reflexivity].
    exfalso. apply H1. split; assumption. }
  split.
  { split.
    - intros H.
      destruct (bool_decide (doc_type = "simple_text")) eqn:E1;
        destruct (bool_decide (doc_type = "text_heavy")) eqn:E2;
        destruct (bool_decide (brightness = "overexposed")) eqn:E3;
        simpl in H; try discriminate H;
        apply bool_decide_eq_false in E3;
        (split; [|exact E3]).
      + left. apply bool_decide_eq_true in E1. exact E1.
      + left. apply bool_decide_eq_true in E1. exact E1.
      + right. apply bool_decide_eq_true in E2. exact E2.
    - intros [[Hd|Hd] Hb]; rewrite (bool_decide_eq_false_2 _ Hb);
        rewrite (bool_decide_eq_true_2 _ Hd); simpl.
      + reflexivity.
      + rewrite orb_true_r. reflexivity. }
  split.
  { destruct (_ && _); [intros H; exfalso; apply H; reflexivity | reflexivity]. }
  split; [intros k Hk; apply AutoFacts.auto_other; exact Hk|].
  split; [reflexivity|].
  intros ->. reflexivity.
Qed.

Lemma auto_options_table_witness :
  (AutoOpts._derive_auto_preprocessing_options poor_scan_analysis !! "denoise"
     = Some (dict_of [("strength", VInt 7)])
   ∧ AutoOpts._derive_auto_preprocessing_options poor_scan_analysis !! "contrast"
     = Some (VInt 30)
   ∧ AutoOpts._derive_auto_preprocessing_options poor_scan_analysis !! "brightness"
     = Some (VInt 40)
   ∧ AutoOpts._derive_auto_preprocessing_options poor_scan_analysis !! "sharpen"
     = Some (VInt 1))
  ∧ (AutoOpts._derive_auto_preprocessing_options mid_gray_analysis !! "denoise" = None
     ∧ AutoOpts._derive_auto_preprocessing_options mid_gray_analysis !! "brightness"
       = None
     ∧ AutoOpts._derive_auto_preprocessing_options mid_gray_analysis !! "grayscale"
       = Some (VBool true)).
Proof.
  split.
  - destruct (auto_options_table poor_scan_analysis)
      as (Hhigh & _ & _ & _ & Hlow & _ & _ & _ & _ & _ & _ & Hblurry & _ & _ & _ & _
          & _ & Hblack).
    split; [apply Hhigh; reflexivity|].
    split; [apply Hlow; reflexivity|].
    split; [apply Hblack; vm_compute; reflexivity|].
    apply Hblurry; [reflexivity | vm_compute; reflexivity].
  - destruct (auto_options_table mid_gray_analysis)
      as (_ & _ & _ & Hnone & _ & _ & _ & _ & _ & _ & Hnormal & _ & _ & Hgray & _).
    split.
    { apply Hnone; [discriminate | discriminate |].
      intros [_ Hq]. vm_compute in Hq. discriminate Hq. }
    split; [apply Hnormal; discriminate|].
    apply Hgray. split; [left; reflexivity | discriminate].
Defined.

(** C4. Merging with no user options, or with an empty dictionary, returns
    the automatic options; a scalar user value replaces the automatic value
    under its key; where both sides hold a dictionary under a key, the merged
    dictionary has every user sub-key with the user value and every other
    automatic sub-key with the automatic value; keys the user does not
    mention keep the automatic value; and the denoise scenario merges to
    strength 9, template 7, search 21. *)
Theorem merge_precedence (auto_opts user_opts : gmap string value) :
  Merge._merge_preprocessing_options auto_opts None = auto_opts
  ∧ Merge._merge_preprocessing_options auto_opts (Some ∅) = auto_opts
  ∧ (∀ k v, user_opts !! k = Some v → is_dict v = false →
       Merge._merge_preprocessing_options auto_opts (Some user_opts) !! k = Some v)
  ∧ (∀ k du da, user_opts !! k = Some (VDict du) → auto_opts !! k = Some (VDict da) →
       ∃ dm, Merge._merge_preprocessing_options auto_opts (Some user_opts) !! k
               = Some (VDict dm)
             ∧ (∀ s x, du !! s = Some x → dm !! s = Some x)
             ∧ (∀ s x, du !! s = None → da !! s = Some x → dm !! s = Some x)
             ∧ (∀ s, du !! s = None → da !! s = None → dm !! s = None))
  ∧ (∀ k, user_opts !! k = None →
       Merge._merge_preprocessing_options auto_opts (Some user_opts) !! k
         = auto_opts !! k)
  ∧ Merge._merge_preprocessing_options scenario_auto (Some scenario_user)
      = scenario_merged.
Proof.
  split; [reflexivity|].
  split; [reflexivity|].
  split.
  { intros k v Hu Hv. rewrite MergeFacts.merge_lookup, Hu.
    destruct v; try reflexivity. discriminate Hv. }
  split.
  { intros k du da Hu Ha. exists (du ∪ da).
    rewrite MergeFacts.merge_lookup, Hu, Ha. simpl.
    split; [reflexivity|].
    split; [|split].
    - intros s x Hs. apply lookup_union_Some_l. exact Hs.
    - intros s x Hs Hx. rewrite lookup_union_r by exact Hs. exact Hx.
    - intros s Hs Hx. rewrite lookup_union_r by exact Hs. exact Hx. }
  split.
  { intros k Hu. rewrite MergeFacts.merge_lookup, Hu. reflexivity. }
  vm_compute. reflexivity.
Qed.

Lemma merge_precedence_witness :
  ∃ dm, Merge._merge_preprocessing_options scenario_auto (Some scenario_user)
          !! "denoise" = Some (VDict dm)
        ∧ dm !! "strength" = Some (VInt 9)
        ∧ dm !! "template" = Some (VInt 7)
        ∧ dm !! "search" = Some (VInt 21).
Proof.
  destruct (merge_precedence scenario_auto scenario_user)
    as (_ & _ & _ & Hdict & _).
  destruct (Hdict "denoise" {[ "strength" := VInt 9 ]}
              (<["strength" := VInt 3]> (<["template" := VInt 7]>
                 {[ "search" := VInt 21 ]})))
    as (dm & Hdm & Huser & Hauto & _); [reflexivity | reflexivity |].
  exists dm. split; [exact Hdm|].
  split; [apply Huser; reflexivity|].
  split; apply Hauto; reflexivity.
Defined.

(** ** The override pass *)

Module OverrideFacts.
Import Overrides.

Lemma clamp_strength_range n : 1 <= clamp_strength n <= 15.
Proof. unfold clamp_strength. lia. Qed.

Lemma clamp_strength_cases n :
  (n < 1 → clamp_strength n = 1)
  ∧ (1 <= n <= 15 → clamp_strength n = n)
  ∧ (15 < n → clamp_strength n = 15).
Proof. unfold clamp_strength. lia. Qed.

Section WithRuntime.

Context {Img : Type} (rt : runtime Img).

Lemma sub_option_int d key default n :
  sub_option rt d key default n →
  py_int rt (dict_get d key (VInt default)) = Some n.
Proof.
  unfold sub_option, dict_get.
  intros [[-> ->] | (v & -> & Hv)]; [reflexivity | exact Hv].
Qed.

Lemma denoise_params_dict d s t se :
  sub_option rt d "strength" 3 s →
  sub_option rt d "template" 7 t →
  sub_option rt d "search" 21 se →
  denoise_params rt (VDict d) = Some (clamp_strength s, t, se).
Proof.
  intros Hs Ht Hse. simpl.
  rewrite (sub_option_int _ _ _ _ Hs), (sub_option_int _ _ _ _ Ht),
    (sub_option_int _ _ _ _ Hse).
  reflexivity.
Qed.

(** With a truthy option whose parameters are [(s, t, se)], the denoise
    block is one call of the filter that matches the image, with those
    parameters, kept if it returns and dropped if it raises. *)
Lemma user_denoise_call opts w v s t se :
  opts !! "denoise" = Some v →
  truthy v = true →
  denoise_params rt v = Some (s, t, se) →
  user_denoise rt opts w =
    match (if ndim3 rt w
           then nl_means_colored rt w (VInt s) (VInt s) t se
           else nl_means rt w (VInt s) t se) with
    | Some img => (img, [LogUserApplied "denoise"])
    | None => (w, [LogUserFailed "denoise"])
    end.
Proof.
  intros Hv Ht Hp. unfold user_denoise, user_denoise_body, dict_get.
  rewrite Hv, Ht, Hp. reflexivity.
Qed.

End WithRuntime.

End OverrideFacts.

(** C7. In the override pass a bool denoise option gives (strength,
    template, search) = (3, 7, 21); an int n gives strength n clamped to
    [1, 15] with template 7 and search 21, so 50 gives 15 and a value below 1
    gives 1; a dict gives its own strength clamped to [1, 15] (default 3),
    its own template (default 7) and its own search (default 21); and a
    truthy option runs the denoising filter with exactly these parameters. *)
Theorem denoise_option_parameters {Img : Type} (rt : runtime Img) :
  (∀ b, Overrides.denoise_params rt (VBool b) = Some (3, 7, 21))
  ∧ (∀ n, Overrides.denoise_params rt (VInt n) = Some (clamp_strength n, 7, 21)
          ∧ 1 <= clamp_strength n <= 15
          ∧ (n < 1 → clamp_strength n = 1)
          ∧ (1 <= n <= 15 → clamp_strength n = n)
          ∧ (15 < n → clamp_strength n = 15))
  ∧ Overrides.denoise_params rt (VInt 50) = Some (15, 7, 21)
  ∧ (∀ d s t se,
       sub_option rt d "strength" 3 s →
       sub_option rt d "template" 7 t →
       sub_option rt d "search" 21 se →
       Overrides.denoise_params rt (VDict d) = Some (clamp_strength s, t, se))
  ∧ (∀ opts w v s t se,
       opts !! "denoise" = Some v →
       truthy v = true →
       Overrides.denoise_params rt v = Some (s, t, se) →
       Overrides.user_denoise rt opts w =
         match (if ndim3 rt w
                then nl_means_colored rt w (VInt s) (VInt s) t se
                else nl_means rt w (VInt s) t se) with
         | Some img => (img, [LogUserApplied "denoise"])
         | None => (w, [LogUserFailed "denoise"])
         end).
Proof.
  split; [intros b; reflexivity|].
  split.
  { intros n. split; [reflexivity|].
    split; [apply OverrideFacts.clamp_strength_range|].
    apply OverrideFacts.clamp_strength_cases. }
  split; [reflexivity|].
  split; [apply OverrideFacts.denoise_params_dict|].
  apply OverrideFacts.user_denoise_call.
Qed.

Lemma denoise_option_parameters_witness :
  Overrides.denoise_params (test_runtime noisy_levels false)
    (VDict {[ "strength" := VInt 40 ]}) = Some (15, 7, 21)
  ∧ Overrides.user_denoise (test_runtime noisy_levels false)
      {[ "denoise" := VInt (-2) ]} tt = (tt, [LogUserApplied "denoise"])
  ∧ clamp_strength 0 = 1.
Proof.
  destruct (denoise_option_parameters (test_runtime noisy_levels false))
    as (_ & Hint & _ & Hdict & Hcall).
  split.
  { apply (Hdict {[ "strength" := VInt 40 ]} 40 7 21).
    - right. exists (VInt 40). split; reflexivity.
    - left. split; reflexivity.
    - left. split; reflexivity. }
  split.
  { apply (Hcall {[ "denoise" := VInt (-2) ]} tt (VInt (-2)) 1 7 21); reflexivity. }
  destruct (Hint 0) as (_ & _ & Hlow & _). apply Hlow. lia.
Defined.

Module DisableFacts.
Import Overrides.

Section WithRuntime.

Context {Img : Type} (rt : runtime Img).

Lemma dict_get_delete_ne (m : gmap string value) k k' d :
  k ≠ k' → dict_get (delete k m) k' d = dict_get m k' d.
Proof. intros Hne. unfold dict_get. rewrite lookup_delete_ne by exact Hne. reflexivity. Qed.

Lemma dict_get_delete_eq (m : gmap string value) k d : dict_get (delete k m) k d = d.
Proof. unfold dict_get. rewrite lookup_delete_eq. reflexivity. Qed.

Lemma dict_get_Some (m : gmap string value) k v d : m !! k = Some v → dict_get m k d = v.
Proof. intros H. unfold dict_get. rewrite H. reflexivity. Qed.

Lemma int_option_falsy opts key v :
  opts !! key = Some v → v = VBool false ∨ v = VInt 0 → int_option rt opts key = Some 0.
Proof.
  intros Hv Hf. unfold int_option. rewrite (dict_get_Some _ _ _ _ Hv).
  destruct Hf as [-> | ->]; reflexivity.
Qed.

Lemma int_option_absent opts key : opts !! key = None → int_option rt opts key = Some 0.
Proof. intros H. unfold int_option, dict_get. rewrite H. reflexivity. Qed.

Lemma int_option_delete_ne opts k key :
  k ≠ key → int_option rt (delete k opts) key = int_option rt opts key.
Proof. intros Hne. unfold int_option. rewrite dict_get_delete_ne by exact Hne. reflexivity. Qed.

(** Removing a key whose value is [False] or [0] changes nothing the pass
    reads. *)
Lemma delete_falsy_same_reading opts k v :
  opts !! k = Some v → v = VBool false ∨ v = VInt 0 →
  same_reading rt opts (delete k opts).
Proof.
  intros Hv Hf.
  assert (Htruthy : truthy v = false) by (destruct Hf as [-> | ->]; reflexivity).
  assert (Hint : ∀ key, int_option rt opts key = int_option rt (delete k opts) key).
  { intros key. destruct (decide (k = key)) as [<- | Hne].
    - rewrite (int_option_falsy _ _ _ Hv Hf).
      symmetry. apply int_option_absent, lookup_delete_eq.
    - symmetry. apply int_option_delete_ne, Hne. }
  unfold same_reading.
  split.
  { destruct (decide (k = "grayscale")) as [-> | Hne].
    - rewrite dict_get_delete_eq, (dict_get_Some _ _ _ _ Hv). exact Htruthy.
    - rewrite dict_get_delete_ne by exact Hne. reflexivity. }
  split.
  { destruct (decide (k = "denoise")) as [-> | Hne].
    - right. rewrite dict_get_delete_eq, (dict_get_Some _ _ _ _ Hv).
      split; [exact Htruthy | reflexivity].
    - left. rewrite dict_get_delete_ne by exact Hne. reflexivity. }
  split; [apply Hint|]. split; apply Hint.
Qed.

Lemma overrides_same_reading opts opts' img :
  same_reading rt opts opts' →
  _apply_user_overrides rt img opts = _apply_user_overrides rt img opts'.
Proof.
  intros (Hg & Hd & Hc & Hb & Hs).
  assert (Hgray : ∀ w, user_grayscale rt opts w = user_grayscale rt opts' w).
  { intros w. unfold user_grayscale. rewrite Hg. reflexivity. }
  assert (Hden : ∀ w, user_denoise rt opts w = user_denoise rt opts' w).
  { intros w. unfold user_denoise. destruct Hd as [-> | [-> ->]]; reflexivity. }
  assert (Hcon : ∀ w, user_contrast rt opts w = user_contrast rt opts' w).
  { intros w. unfold user_contrast. rewrite Hc. reflexivity. }
  assert (Hbri : ∀ w, user_brightness rt opts w = user_brightness rt opts' w).
  { intros w. unfold user_brightness. rewrite Hb. reflexivity. }
  assert (Hsha : ∀ w, user_sharpen rt opts w = user_sharpen rt opts' w).
  { intros w. unfold user_sharpen. rewrite Hs. reflexivity. }
  unfold _apply_user_overrides.
  destruct (if ndim3 rt img then Some img else gray_to_rgb rt img) as [w0|];
    [|reflexivity]. simpl.
  rewrite Hgray. destruct (user_grayscale rt opts' w0) as [[w1 lg]|]; [|reflexivity].
  simpl. rewrite Hden. destruct (user_denoise rt opts' w1) as [w2 ld].
  rewrite Hcon. destruct (user_contrast rt opts' w2) as [[w3 lc]|]; [|reflexivity].
  simpl. rewrite Hbri. destruct (user_brightness rt opts' w3) as [[w4 lb]|]; [|reflexivity].
  simpl. rewrite Hsha. reflexivity.
Qed.

(** The block that reads a key holding [False] or [0] leaves the image as it
    is and logs nothing. *)
Lemma falsy_block_skipped opts k v w :
  opts !! k = Some v → v = VBool false ∨ v = VInt 0 →
  override_block rt k opts w = Some (w, []).
Proof.
  intros Hv Hf.
  assert (Htruthy : truthy v = false) by (destruct Hf as [-> | ->]; reflexivity).
  pose proof (int_option_falsy _ _ _ Hv Hf) as Hint.
  unfold override_block.
  repeat case_bool_decide; subst; try reflexivity.
  - unfold user_grayscale. rewrite (dict_get_Some _ _ _ _ Hv), Htruthy. reflexivity.
  - unfold user_denoise. rewrite (dict_get_Some _ _ _ _ Hv), Htruthy. reflexivity.
  - unfold user_contrast. rewrite Hint. reflexivity.
  - unfold user_brightness. rewrite Hint. reflexivity.
  - unfold user_sharpen. rewrite Hint. reflexivity.
Qed.

End WithRuntime.

End DisableFacts.

(** C10. A user value [False] or [0] under a recognized key (grayscale,
    denoise, contrast, brightness, sharpen) survives the merge, replacing
    whatever the automatic options hold under that key, and makes the
    override pass skip the matching operator: its block returns the image
    unchanged and logs nothing, and the pass behaves as if the key were
    absent from the merged options. *)
Theorem falsy_option_disables {Img : Type} (rt : runtime Img)
    (auto_opts user_opts : gmap string value) (k : string) (v : value) (img : Img) :
  k ∈ recognized_keys →
  v = VBool false ∨ v = VInt 0 →
  user_opts !! k = Some v →
  let final_opts := Merge._merge_preprocessing_options auto_opts (Some user_opts) in
  final_opts !! k = Some v
  ∧ final_opts ≠ ∅
  ∧ (∀ w, override_block rt k final_opts w = Some (w, []))
  ∧ Overrides._apply_user_overrides rt img final_opts
      = Overrides._apply_user_overrides rt img (delete k final_opts).
Proof.
  intros Hk Hf Hu final_opts.
  assert (Hfinal : final_opts !! k = Some v).
  { subst final_opts. rewrite MergeFacts.merge_lookup, Hu.
    destruct Hf as [-> | ->]; reflexivity. }
  split; [exact Hfinal|].
  split.
  { intros Hempty. rewrite Hempty, lookup_empty in Hfinal. discriminate Hfinal. }
  split.
  { intros w. apply (DisableFacts.falsy_block_skipped rt _ _ v); assumption. }
  apply DisableFacts.overrides_same_reading.
  apply (DisableFacts.delete_falsy_same_reading rt _ _ v); assumption.
Qed.

Lemma falsy_option_disables_witness :
  Merge._merge_preprocessing_options
    (AutoOpts._derive_auto_preprocessing_options poor_scan_analysis)
    (Some {[ "brightness" := VInt 0 ]}) !! "brightness" = Some (VInt 0)
  ∧ ∀ w, override_block (test_runtime noisy_levels false) "brightness"
           (Merge._merge_preprocessing_options
              (AutoOpts._derive_auto_preprocessing_options poor_scan_analysis)
              (Some {[ "brightness" := VInt 0 ]})) w = Some (w, []).
Proof.
  assert (Hk : "brightness" ∈ recognized_keys)
    by (apply list_elem_of_In; simpl; tauto).
  assert (Hu : ({[ "brightness" := VInt 0 ]} : gmap string value) !! "brightness"
               = Some (VInt 0)) by reflexivity.
  destruct (falsy_option_disables (test_runtime noisy_levels false)
              (AutoOpts._derive_auto_preprocessing_options poor_scan_analysis)
              {[ "brightness" := VInt 0 ]} "brightness" (VInt 0) tt Hk
              (or_intror eq_refl) Hu)
    as (Hfinal & _ & Hskip & _).
  split; [exact Hfinal | exact Hskip].
Defined.

(** ** The skew detector *)

Module SkewFacts.
Import Skew.

Lemma in_range_spec a : in_range a = true ↔ (-45 <= a ∧ a <= 45)%Q.
Proof.
  unfold in_range. rewrite andb_true_iff, !Qle_bool_iff. reflexivity.
Qed.

Lemma insert_sorted_In x y l : In y (insert_sorted x l) ↔ y = x ∨ In y l.
Proof.
  induction l as [|z l IH]; simpl.
  - split; [intros [H|[]]; left; congruence | intros [H|[]]; left; congruence].
  - destruct (Qle_bool x z); simpl.
    + split; [intros [H|H]; [left; congruence | right; exact H]
             | intros [H|H]; [left; congruence | right; exact H]].
    + rewrite IH. split.
      * intros [H|[H|H]]; [right; left; exact H | left; exact H | right; right; exact H].
      * intros [H|[H|H]]; [right; left; exact H | left; exact H | right; right; exact H].
Qed.

Lemma sort_angles_In y l : In y (sort_angles l) ↔ In y l.
Proof.
  induction l as [|x l IH]; simpl; [reflexivity|].
  rewrite insert_sorted_In, IH. split; intros [H|H]; auto.
Qed.

Lemma insert_sorted_length x l : length (insert_sorted x l) = S (length l).
Proof.
  induction l as [|z l IH]; simpl; [reflexivity|].
  destruct (Qle_bool x z); simpl; [reflexivity | rewrite IH; reflexivity].
Qed.

Lemma sort_angles_length l : length (sort_angles l) = length l.
Proof.
  induction l as [|x l IH]; simpl; [reflexivity|].
  rewrite insert_sorted_length, IH. reflexivity.
Qed.

Lemma insert_sorted_perm x l : Permutation (insert_sorted x l) (x :: l).
Proof.
  induction l as [|z l IH]; simpl; [reflexivity|].
  destruct (Qle_bool x z); [reflexivity|].
  rewrite IH. apply perm_swap.
Qed.

Lemma sort_angles_perm l : Permutation (sort_angles l) l.
Proof.
  induction l as [|x l IH]; simpl; [reflexivity|].
  rewrite insert_sorted_perm, IH. reflexivity.
Qed.

Lemma insert_sorted_sorted x l :
  StronglySorted Qle l → StronglySorted Qle (insert_sorted x l).
Proof.
  induction 1 as [|z l Hs IH Hall]; simpl.
  - constructor; constructor.
  - destruct (Qle_bool x z) eqn:Hxz.
    + apply Qle_bool_iff in Hxz.
      constructor; [constructor; assumption|].
      constructor; [exact Hxz|].
      eapply Forall_impl; [exact Hall|].
      intros a Ha. simpl in Ha. eapply Qle_trans; eassumption.
    + assert (Hzx : (z <= x)%Q).
      { apply Qlt_le_weak, Qnot_le_lt. intros Hle.
        apply Qle_bool_iff in Hle. congruence. }
      constructor; [exact IH|].
      apply Forall_forall. intros a Ha.
      apply list_elem_of_In, insert_sorted_In in Ha.
      destruct Ha as [-> | Ha]; [exact Hzx|].
      rewrite Forall_forall in Hall. apply Hall, list_elem_of_In, Ha.
Qed.

Lemma sort_angles_sorted l : StronglySorted Qle (sort_angles l).
Proof.
  induction l as [|x l IH]; simpl; [constructor|].
  apply insert_sorted_sorted, IH.
Qed.

Section Detector.

Variable atan2_deg : Z → Z → Q.

Lemma hough_angles_range lines a :
  In a (hough_angles atan2_deg lines) → (-45 <= a ∧ a <= 45)%Q.
Proof.
  induction lines as [|s rest IH]; simpl; [intros []|].
  destruct (negb (x2 s - x1 s =? 0)); [|exact IH].
  destruct (in_range _) eqn:Hr; [|exact IH].
  intros [<- | H]; [apply in_range_spec, Hr | apply IH, H].
Qed.

Lemma rect_angles_range cs a :
  In a (rect_angles cs) → (-45 <= a ∧ a <= 45)%Q.
Proof.
  induction cs as [|c rest IH]; simpl; [intros []|].
  destruct (negb (Qle_bool (area c) 1000)); [|exact IH].
  destruct (in_range _) eqn:Hr; [|exact IH].
  intros [<- | H]; [apply in_range_spec, Hr | apply IH, H].
Qed.

Lemma pooled_angles_range i a :
  In a (pooled_angles atan2_deg i) → (-45 <= a ∧ a <= 45)%Q.
Proof.
  unfold pooled_angles. rewrite in_app_iff. intros [H|H].
  - destruct (hough i); try (destruct H; fail).
    eapply hough_angles_range, H.
  - destruct (contours i); [|destruct H].
    eapply rect_angles_range, H.
Qed.

End Detector.

Lemma div2_lt n : (0 < n)%nat → (Nat.div2 n < n)%nat.
Proof. intros H. apply Nat.lt_div2, H. Qed.

(** The median of a non-empty list lies between bounds that hold for all its
    elements. *)
Lemma np_median_range (lo hi : Q) l :
  l ≠ [] → (∀ a, In a l → (lo <= a ∧ a <= hi)%Q) →
  (lo <= np_median l ∧ np_median l <= hi)%Q.
Proof.
  intros Hne Hall. unfold np_median.
  set (s := sort_angles l).
  assert (Hlen : length s = length l) by apply sort_angles_length.
  assert (Hpos : (0 < length s)%nat).
  { rewrite Hlen. destruct l; [congruence | simpl; lia]. }
  assert (Hnth : ∀ k, (k < length s)%nat → (lo <= nth k s 0 ∧ nth k s 0 <= hi)%Q).
  { intros k Hk. apply Hall, sort_angles_In. apply nth_In, Hk. }
  destruct (Nat.even (length s)) eqn:Heven.
  - pose proof (div2_lt _ Hpos) as Hd.
    destruct (Hnth (Nat.div2 (length s) - 1)%nat ltac:(lia)) as [H1 H2].
    destruct (Hnth (Nat.div2 (length s)) Hd) as [H3 H4].
    split.
    + apply Qle_shift_div_l; [reflexivity|]. lra.
    + apply Qle_shift_div_r; [reflexivity|]. lra.
  - apply Hnth, div2_lt, Hpos.
Qed.

End SkewFacts.

(** C1 (as the code has it).  The detector returns the median of the pooled
    candidate angles of the Hough-line and min-area-rectangle estimators
    (angle 0 and confidence 0 when there is no candidate); level 'high' when
    |angle| > 5, 'medium' when |angle| > 1, else 'low'; and confidence equal
    to candidate_count / 10, which is at most 1 exactly when there are at
    most ten candidates.  Every candidate, and so the angle, lies in
    [-45, 45]. *)
Theorem detect_skew_result (atan2_deg : Z → Z → Q) (i : Skew.skew_input) :
  let angles := Skew.pooled_angles atan2_deg i in
  let r := Skew._detect_skew atan2_deg i in
  (angles = [] → Skew.angle r = 0%Q ∧ Skew.confidence r = 0%Q)
  ∧ (angles ≠ [] →
       Skew.angle r = Skew.np_median angles
       ∧ Skew.confidence r = (inject_Z (Z.of_nat (length angles)) / 10)%Q)
  ∧ ((5 < Qabs (Skew.angle r))%Q → Skew.level r = "high")
  ∧ (¬ (5 < Qabs (Skew.angle r))%Q → (1 < Qabs (Skew.angle r))%Q →
       Skew.level r = "medium")
  ∧ (¬ (1 < Qabs (Skew.angle r))%Q → Skew.level r = "low")
  ∧ ((Skew.confidence r <= 1)%Q ↔ (length angles <= 10)%nat)
  ∧ (-45 <= Skew.angle r ∧ Skew.angle r <= 45)%Q.
Proof.
  intros angles r.
  assert (Hgt : ∀ a b : Q, negb (Qle_bool a b) = true ↔ (b < a)%Q).
  { intros a b. rewrite negb_true_iff. split.
    - intros Hf. apply Qnot_le_lt. intros Hle.
      apply Qle_bool_iff in Hle. congruence.
    - intros Hlt. destruct (Qle_bool a b) eqn:Hle; [|reflexivity].
      apply Qle_bool_iff in Hle. exfalso. eapply Qlt_not_le; eassumption. }
  assert (Hlevel : Skew.level r = Skew.skew_level (Skew.angle r)) by reflexivity.
  split.
  { intros Hnil. subst r. unfold Skew._detect_skew. fold angles. rewrite Hnil.
    split; reflexivity. }
  split.
  { intros Hne. subst r. unfold Skew._detect_skew. fold angles.
    destruct angles; [congruence|]. split; reflexivity. }
  split.
  { intros H5. rewrite Hlevel. unfold Skew.skew_level.
    rewrite (proj2 (Hgt _ _) H5). reflexivity. }
  split.
  { intros H5 H1. rewrite Hlevel. unfold Skew.skew_level.
    destruct (negb (Qle_bool (Qabs (Skew.angle r)) 5)) eqn:E5.
    - exfalso. apply H5, Hgt, E5.
    - rewrite (proj2 (Hgt _ _) H1). reflexivity. }
  split.
  { intros H1. rewrite Hlevel. unfold Skew.skew_level.
    destruct (negb (Qle_bool (Qabs (Skew.angle r)) 5)) eqn:E5.
    - exfalso. apply H1. apply Hgt in E5. eapply Qlt_trans; [|exact E5]. reflexivity.
    - destruct (negb (Qle_bool (Qabs (Skew.angle r)) 1)) eqn:E1; [|reflexivity].
      exfalso. apply H1, Hgt, E1. }
  split.
  { subst r. unfold Skew._detect_skew. fold angles.
    destruct angles as [|a0 rest]; simpl Skew.confidence.
    - split; [intros _; simpl; lia | intros _; discriminate].
    - unfold Qle, Qdiv, Qmult, Qinv, inject_Z. simpl. lia. }
  subst r. unfold Skew._detect_skew. fold angles. simpl Skew.angle.
  destruct angles as [|a0 rest] eqn:Hangles.
  - split; discriminate.
  - apply SkewFacts.np_median_range; [discriminate|].
    intros a Ha. apply (SkewFacts.pooled_angles_range atan2_deg i).
    fold angles. rewrite Hangles. exact Ha.
Qed.

Lemma detect_skew_result_witness :
  Skew.angle (Skew._detect_skew level_atan2 tilted_page)
    = Skew.np_median (Skew.pooled_angles level_atan2 tilted_page)
  ∧ Skew.confidence (Skew._detect_skew level_atan2 tilted_page)
    = (inject_Z 3 / 10)%Q
  ∧ Skew.level (Skew._detect_skew level_atan2 tilted_page) = "low".
Proof.
  destruct (detect_skew_result level_atan2 tilted_page)
    as (_ & Hmedian & _ & _ & Hlow & _).
  split; [apply Hmedian; vm_compute; discriminate|].
  split; [apply Hmedian; vm_compute; discriminate|].
  apply Hlow. vm_compute. discriminate.
Defined.

(** C1, the claim as stated: with eleven candidates the confidence is 11/10,
    which is neither [min(1.0, 11/10)] nor at most 1. *)
Lemma skew_confidence_exceeds_one :
  length (Skew.pooled_angles level_atan2 eleven_blocks) = 11%nat
  ∧ ¬ (Skew.confidence (Skew._detect_skew level_atan2 eleven_blocks)
       == Qmin 1 (inject_Z (Z.of_nat
                   (length (Skew.pooled_angles level_atan2 eleven_blocks))) / 10))%Q
  ∧ (1 < Skew.confidence (Skew._detect_skew level_atan2 eleven_blocks))%Q.
Proof.
  split; [reflexivity|].
  split.
  - vm_compute. discriminate.
  - vm_compute. reflexivity.
Qed.

(** ** The first pass *)

Module Pass1Facts.
Import Pass1.

Lemma collect_steps_names items :
  map step_name (collect_steps items) = Entry.enabled_names items.
Proof.
  unfold Entry.enabled_names.
  induction items as [|[name v] rest IH]; [reflexivity|].
  destruct v; simpl;
    try (rewrite filter_cons_False by (simpl; discriminate); exact IH).
  destruct (truthy (dict_get g "enabled" (VBool false))) eqn:He.
  - rewrite filter_cons_True by (simpl; exact He). simpl. rewrite IH. reflexivity.
  - rewrite filter_cons_False by (simpl; congruence). exact IH.
Qed.

Lemma collect_steps_In items p name c :
  In (p, name, c) (collect_steps items) ↔
    In (name, VDict c) items ∧ is_enabled (VDict c) = true ∧ p = priority_of c.
Proof.
  induction items as [|[name' v] rest IH]; simpl.
  - split; [intros [] | intros [[] _]].
  - assert (Hskip : (∀ c', v ≠ VDict c') ∨ (∃ c', v = VDict c')).
    { destruct v; try (left; intros c' Hc'; discriminate Hc'). right. eauto. }
    destruct Hskip as [Hnd | [c' ->]].
    + assert (Hcs : collect_steps ((name', v) :: rest) = collect_steps rest)
        by (destruct v; try reflexivity; exfalso; eapply Hnd; reflexivity).
      simpl in Hcs. rewrite Hcs, IH. split.
      * intros (Hin & He & Hp). split; [right; exact Hin | split; assumption].
      * intros ([Heq | Hin] & He & Hp); [|split; [exact Hin | split; assumption]].
        inversion Heq; subst. exfalso. eapply Hnd. reflexivity.
    + destruct (truthy (dict_get c' "enabled" (VBool false))) eqn:He'; simpl.
      * rewrite IH. split.
        -- intros [Heq | (Hin & He & Hp)].
           ++ inversion Heq; subst. split; [left; reflexivity | split; [exact He' | reflexivity]].
           ++ split; [right; exact Hin | split; assumption].
        -- intros ([Heq | Hin] & He & Hp).
           ++ inversion Heq; subst. left. reflexivity.
           ++ right. split; [exact Hin | split; assumption].
      * rewrite IH. split.
        -- intros (Hin & He & Hp). split; [right; exact Hin | split; assumption].
        -- intros ([Heq | Hin] & He & Hp); [|split; [exact Hin | split; assumption]].
           inversion Heq; subst. simpl in He. congruence.
Qed.

(** *** The order on sort keys *)

Lemma str_compare_refl s : String.compare s s = Eq.
Proof.
  pose proof (String.compare_antisym s s) as H.
  destruct (String.compare s s); [reflexivity | discriminate H | discriminate H].
Qed.

Lemma str_lt_asym s t : String.ltb s t = true → String.ltb t s = false.
Proof.
  unfold String.ltb. rewrite (String.compare_antisym s t).
  destruct (String.compare t s); simpl; intros H; first [reflexivity | discriminate H].
Qed.

Lemma str_compare_ge_trans a b c :
  String.compare a b ≠ Lt → String.compare b c ≠ Lt → String.compare a c ≠ Lt.
Proof.
  revert b c. induction a as [|x a IH]; intros [|y b] [|z c]; simpl;
    try congruence.
  unfold Ascii.compare.
  destruct (N.compare_spec (Ascii.N_of_ascii x) (Ascii.N_of_ascii y)) as [Hxy|Hxy|Hxy];
    destruct (N.compare_spec (Ascii.N_of_ascii y) (Ascii.N_of_ascii z)) as [Hyz|Hyz|Hyz];
    destruct (N.compare_spec (Ascii.N_of_ascii x) (Ascii.N_of_ascii z)) as [Hxz|Hxz|Hxz];
    try congruence; try lia.
  apply IH.
Qed.

Lemma str_ge_trans a b c :
  String.ltb a b = false → String.ltb b c = false → String.ltb a c = false.
Proof.
  unfold String.ltb. intros Hab Hbc.
  pose proof (str_compare_ge_trans a b c) as H.
  destruct (String.compare a b); try discriminate Hab;
    destruct (String.compare b c); try discriminate Hbc;
    destruct (String.compare a c); try reflexivity;
    exfalso; apply H; congruence.
Qed.

Lemma py_lt_numbers a b x y :
  num_of_value a = Some x → num_of_value b = Some y →
  py_lt a b = Some (negb (Qle_bool y x)).
Proof.
  intros Ha Hb. unfold py_lt.
  destruct a; try discriminate Ha; rewrite Ha; simpl;
    destruct b; try discriminate Hb; rewrite Hb; reflexivity.
Qed.

(** Two keys that compare are two strings or two numbers. *)
Lemma py_lt_cases a b r :
  py_lt a b = Some r →
  (∃ s t, a = VStr s ∧ b = VStr t ∧ r = String.ltb s t)
  ∨ (∃ x y, num_of_value a = Some x ∧ num_of_value b = Some y
            ∧ r = negb (Qle_bool y x)).
Proof.
  unfold py_lt. intros H.
  destruct a, b; simpl in H; try discriminate H; inversion H; subst;
    first [ left; do 2 eexists; repeat split; reflexivity
          | right; do 2 eexists; repeat split; reflexivity ].
Qed.

Lemma Qlt_bool_asym x y :
  negb (Qle_bool y x) = true → negb (Qle_bool x y) = false.
Proof.
  intros H. apply negb_true_iff in H. apply negb_false_iff.
  apply Qle_bool_iff. apply Qlt_le_weak, Qnot_le_lt.
  intros Hle. apply Qle_bool_iff in Hle. congruence.
Qed.

Lemma Qge_bool_trans x y z :
  negb (Qle_bool y x) = false → negb (Qle_bool z y) = false →
  negb (Qle_bool z x) = false.
Proof.
  rewrite !negb_false_iff, !Qle_bool_iff. intros Hyx Hzy.
  eapply Qle_trans; eassumption.
Qed.

Lemma py_lt_asym a b : py_lt a b = Some true → py_lt b a = Some false.
Proof.
  intros H. destruct (py_lt_cases _ _ _ H) as [(s & t & -> & -> & Hr)
                                               | (x & y & Hx & Hy & Hr)].
  - simpl. f_equal. apply str_lt_asym. congruence.
  - rewrite (py_lt_numbers _ _ _ _ Hy Hx). f_equal.
    apply Qlt_bool_asym. congruence.
Qed.

Lemma py_ge_trans a b c :
  py_lt a b = Some false → py_lt b c = Some false → py_lt a c = Some false.
Proof.
  intros Hab Hbc.
  destruct (py_lt_cases _ _ _ Hab) as [(s & t & -> & -> & Hr)
                                       | (x & y & Hx & Hy & Hr)];
    destruct (py_lt_cases _ _ _ Hbc) as [(s' & t' & Hs' & -> & Hr')
                                         | (x' & y' & Hx' & Hy' & Hr')].
  - inversion Hs'; subst s'. simpl. f_equal.
    eapply str_ge_trans; symmetry; eassumption.
  - discriminate Hx'.
  - subst b. discriminate Hy.
  - rewrite Hy in Hx'. inversion Hx'; subst x'.
    rewrite (py_lt_numbers _ _ _ _ Hx Hy'). f_equal.
    eapply Qge_bool_trans; symmetry; eassumption.
Qed.

(** *** The sort *)

Lemma insert_step_perm s l l' :
  insert_step s l = Some l' → Permutation l' (s :: l).
Proof.
  revert l'. induction l as [|t l IH]; simpl; intros l' H.
  - inversion H. reflexivity.
  - destruct (py_lt (step_priority s) (step_priority t)) as [[|]|];
      [|inversion H; reflexivity|discriminate H].
    destruct (insert_step s l) as [rest'|]; [|discriminate H].
    simpl in H. inversion H; subst.
    rewrite (IH rest' eq_refl). apply perm_swap.
Qed.

Lemma sort_steps_perm l l' : sort_steps l = Some l' → Permutation l' l.
Proof.
  revert l'. induction l as [|s l IH]; simpl; intros l' H.
  - inversion H. reflexivity.
  - destruct (sort_steps l) as [sorted|]; [|discriminate H]. simpl in H.
    rewrite (insert_step_perm _ _ _ H), (IH sorted eq_refl). reflexivity.
Qed.

Lemma insert_step_sorted s l l' :
  StronglySorted priority_ge l → insert_step s l = Some l' →
  StronglySorted priority_ge l'.
Proof.
  revert l'. induction l as [|t l IH]; simpl; intros l' Hs H.
  - inversion H. repeat constructor.
  - apply StronglySorted_inv in Hs. destruct Hs as [Hs Hall].
    destruct (py_lt (step_priority s) (step_priority t)) as [[|]|] eqn:Hlt;
      [| |discriminate H].
    + destruct (insert_step s l) as [rest'|] eqn:Hi; [|discriminate H].
      simpl in H. inversion H; subst.
      constructor; [apply IH; [exact Hs | reflexivity]|].
      apply List.Forall_forall. intros u Hu.
      apply (Permutation_in _ (insert_step_perm _ _ _ Hi)) in Hu.
      destruct Hu as [<- | Hu].
      * apply py_lt_asym, Hlt.
      * rewrite List.Forall_forall in Hall. apply Hall, Hu.
    + inversion H; subst.
      constructor; [constructor; assumption|].
      constructor; [exact Hlt|].
      eapply Forall_impl; [exact Hall|].
      intros u Hu. unfold priority_ge in *. eapply py_ge_trans; eassumption.
Qed.

Lemma sort_steps_sorted l l' :
  sort_steps l = Some l' → StronglySorted priority_ge l'.
Proof.
  revert l'. induction l as [|s l IH]; simpl; intros l' H.
  - inversion H. constructor.
  - destruct (sort_steps l) as [sorted|]; [|discriminate H]. simpl in H.
    eapply insert_step_sorted; [apply IH; reflexivity | exact H].
Qed.

(** Two steps of the priority [p] are not exchanged. *)
Lemma same_priority_not_below p s t :
  same_priority p s = true → same_priority p t = true →
  py_lt (step_priority s) (step_priority t) ≠ Some true.
Proof.
  unfold same_priority. intros Hs Ht Hlt.
  destruct (py_lt p (step_priority s)) as [[|]|] eqn:Hps; try discriminate Hs.
  destruct (py_lt (step_priority s) p) as [[|]|] eqn:Hsp; try discriminate Hs.
  destruct (py_lt p (step_priority t)) as [[|]|] eqn:Hpt; try discriminate Ht.
  rewrite (py_ge_trans _ _ _ Hsp Hpt) in Hlt. discriminate Hlt.
Qed.

Lemma insert_step_stable p s l l' :
  insert_step s l = Some l' →
  filter (λ t, same_priority p t = true) l'
    = filter (λ t, same_priority p t = true) (s :: l).
Proof.
  revert l'. induction l as [|t l IH]; simpl; intros l' H.
  - inversion H. reflexivity.
  - destruct (py_lt (step_priority s) (step_priority t)) as [[|]|] eqn:Hlt;
      [|inversion H; reflexivity|discriminate H].
    destruct (insert_step s l) as [rest'|]; [|discriminate H].
    simpl in H. inversion H; subst.
    rewrite (filter_cons _ t), (IH rest' eq_refl), !(filter_cons _ s),
      (filter_cons _ t).
    destruct (decide (same_priority p s = true)) as [Hs | Hs];
      destruct (decide (same_priority p t = true)) as [Ht | Ht];
      try reflexivity.
    exfalso. exact (same_priority_not_below p s t Hs Ht Hlt).
Qed.

Lemma sort_steps_stable p l l' :
  sort_steps l = Some l' →
  filter (λ t, same_priority p t = true) l'
    = filter (λ t, same_priority p t = true) l.
Proof.
  revert l'. induction l as [|s l IH]; simpl; intros l' H.
  - inversion H. reflexivity.
  - destruct (sort_steps l) as [sorted|]; [|discriminate H]. simpl in H.
    rewrite (insert_step_stable p _ _ _ H), !(filter_cons _ s),
      (IH sorted eq_refl). reflexivity.
Qed.

(** The sort returns on keys that are numbers. *)
Lemma insert_step_numeric s l :
  numeric_priority s → Forall numeric_priority l → is_Some (insert_step s l).
Proof.
  intros [x Hx] Hall. induction Hall as [|t l [y Hy] Hall IH]; simpl.
  - eexists; reflexivity.
  - rewrite (py_lt_numbers _ _ _ _ Hx Hy).
    destruct (negb (Qle_bool y x)); [|eexists; reflexivity].
    destruct IH as [rest' ->]. eexists; reflexivity.
Qed.

Lemma sort_steps_numeric l :
  Forall numeric_priority l → is_Some (sort_steps l).
Proof.
  induction 1 as [|s l Hs Hall IH]; simpl; [eexists; reflexivity|].
  destruct IH as [sorted Hsorted]. rewrite Hsorted. simpl.
  apply insert_step_numeric; [exact Hs|].
  apply List.Forall_forall. intros t Ht.
  apply (Permutation_in _ (sort_steps_perm _ _ Hsorted)) in Ht.
  rewrite List.Forall_forall in Hall. apply Hall, Ht.
Qed.

Lemma py_lt_strings a b s t :
  a = VStr s → b = VStr t → py_lt a b = Some (String.ltb s t).
Proof. intros -> ->. reflexivity. Qed.

Lemma insert_step_strings s l :
  string_priority s → Forall string_priority l → is_Some (insert_step s l).
Proof.
  intros [x Hx] Hall. induction Hall as [|t l [y Hy] Hall IH]; simpl.
  - eexists; reflexivity.
  - rewrite (py_lt_strings _ _ _ _ Hx Hy).
    destruct (String.ltb x y); [|eexists; reflexivity].
    destruct IH as [rest' ->]. eexists; reflexivity.
Qed.

Lemma sort_steps_strings l :
  Forall string_priority l → is_Some (sort_steps l).
Proof.
  induction 1 as [|s l Hs Hall IH]; simpl; [eexists; reflexivity|].
  destruct IH as [sorted Hsorted]. rewrite Hsorted. simpl.
  apply insert_step_strings; [exact Hs|].
  apply List.Forall_forall. intros t Ht.
  apply (Permutation_in _ (sort_steps_perm _ _ Hsorted)) in Ht.
  rewrite List.Forall_forall in Hall. apply Hall, Ht.
Qed.

(** Two keys that compare are of one kind. *)
Lemma py_lt_same_kind s t :
  is_Some (py_lt (step_priority s) (step_priority t)) →
  (numeric_priority s ∧ numeric_priority t)
  ∨ (string_priority s ∧ string_priority t).
Proof.
  intros [r Hr].
  destruct (py_lt_cases _ _ _ Hr) as [(x & y & Hx & Hy & _) | (x & y & Hx & Hy & _)].
  - right. split; eexists; eassumption.
  - left. split; eexists; eassumption.
Qed.

Lemma numeric_not_string s : numeric_priority s → string_priority s → False.
Proof. intros [x Hx] [y Hy]. rewrite Hy in Hx. discriminate Hx. Qed.

(** The sort returns exactly on keys it can compare: at most one step, or
    numbers only, or strings only.  The kind of sort does not matter for
    this: any sort compares each neighbour pair of its result. *)
Lemma sort_steps_returns_iff l :
  is_Some (sort_steps l) ↔ comparable_priorities l.
Proof.
  unfold comparable_priorities. split.
  - induction l as [|s l IH]; [intros _; left; simpl; lia|].
    simpl. intros [l' H].
    destruct (sort_steps l) as [sorted|] eqn:Hsorted; [|discriminate H].
    simpl in H.
    pose proof (sort_steps_perm _ _ Hsorted) as Hperm.
    destruct sorted as [|t rest].
    { apply Permutation_nil in Hperm. subst l. left. simpl. lia. }
    assert (Ht : In t l) by (apply (Permutation_in _ Hperm); left; reflexivity).
    assert (Hcmp : is_Some (py_lt (step_priority s) (step_priority t))).
    { simpl in H. destruct (py_lt (step_priority s) (step_priority t));
        [eexists; reflexivity | discriminate H]. }
    destruct (IH ltac:(eexists; reflexivity)) as [Hlen | [Hnum | Hstr]].
    + destruct l as [|u [|v l]]; [destruct Ht | | simpl in Hlen; lia].
      destruct Ht as [<- | []].
      destruct (py_lt_same_kind _ _ Hcmp) as [[Hs Hu] | [Hs Hu]].
      * right. left. repeat constructor; assumption.
      * right. right. repeat constructor; assumption.
    + right. left. constructor; [|exact Hnum].
      rewrite List.Forall_forall in Hnum.
      destruct (py_lt_same_kind _ _ Hcmp) as [[Hs _] | [_ Hu]]; [exact Hs|].
      exfalso. exact (numeric_not_string t (Hnum t Ht) Hu).
    + right. right. constructor; [|exact Hstr].
      rewrite List.Forall_forall in Hstr.
      destruct (py_lt_same_kind _ _ Hcmp) as [[_ Hu] | [Hs _]]; [|exact Hs].
      exfalso. exact (numeric_not_string t Hu (Hstr t Ht)).
  - intros [Hlen | [Hnum | Hstr]].
    + destruct l as [|s [|t l]]; [eexists; reflexivity | eexists; reflexivity |].
      simpl in Hlen. lia.
    + apply sort_steps_numeric, Hnum.
    + apply sort_steps_strings, Hstr.
Qed.

Section WithRuntime.

Context {Img : Type} (rt : runtime Img).

Lemma dispatch_logs_no_step name config img gray :
  dispatched (dispatch rt name config img gray).2 = [].
Proof.
  unfold dispatch, _apply_deskew, _apply_denoise, _apply_contrast,
    _apply_brightness, _apply_sharpen.
  repeat case_bool_decide;
    repeat match goal with
           | |- context [match ?x with _ => _ end] => destruct x
           end; reflexivity.
Qed.

Lemma dispatched_app l1 l2 :
  dispatched (l1 ++ l2)%list = (dispatched l1 ++ dispatched l2)%list.
Proof. unfold dispatched. apply omap_app. Qed.

Lemma run_steps_dispatched steps current :
  dispatched (run_steps rt steps current).2 = map step_name steps.
Proof.
  revert current. induction steps as [|s rest IH]; intros current; [reflexivity|].
  simpl.
  pose proof (dispatch_logs_no_step (step_name s) (step_config s) current.1 current.2)
    as Hd.
  destruct (dispatch rt (step_name s) (step_config s) current.1 current.2)
    as [next log] eqn:Hdisp.
  specialize (IH next).
  destruct (run_steps rt rest next) as [final log'] eqn:Hrun.
  simpl in *. rewrite dispatched_app, Hd, IH. reflexivity.
Qed.

(** The dispatch applies the operator that the step's name stands for. *)
Lemma dispatch_operator s current :
  (dispatch rt (step_name s) (step_config s) current.1 current.2).1
    = operator_result rt current s.
Proof.
  unfold dispatch, operator_result, operators. cbn [assoc].
  destruct (decide (step_name s = "deskew")) as [-> | H1];
    [reflexivity|].
  rewrite (bool_decide_eq_false_2 (step_name s = "deskew")) by exact H1.
  rewrite (bool_decide_eq_false_2 ("deskew" = step_name s)) by congruence.
  destruct (decide (step_name s = "denoise")) as [-> | H2];
    [reflexivity|].
  rewrite (bool_decide_eq_false_2 (step_name s = "denoise")) by exact H2.
  rewrite (bool_decide_eq_false_2 ("denoise" = step_name s)) by congruence.
  destruct (decide (step_name s = "contrast")) as [-> | H3];
    [reflexivity|].
  rewrite (bool_decide_eq_false_2 (step_name s = "contrast")) by exact H3.
  rewrite (bool_decide_eq_false_2 ("contrast" = step_name s)) by congruence.
  destruct (decide (step_name s = "brightness")) as [-> | H4];
    [reflexivity|].
  rewrite (bool_decide_eq_false_2 (step_name s = "brightness")) by exact H4.
  rewrite (bool_decide_eq_false_2 ("brightness" = step_name s)) by congruence.
  destruct (decide (step_name s = "sharpen")) as [-> | H5];
    [reflexivity|].
  rewrite (bool_decide_eq_false_2 (step_name s = "sharpen")) by exact H5.
  rewrite (bool_decide_eq_false_2 ("sharpen" = step_name s)) by congruence.
  destruct current. reflexivity.
Qed.

(** The loop composes the operators of its steps, the first step first. *)
Lemma run_steps_image steps current :
  (run_steps rt steps current).1 = applied_in_order rt steps current.
Proof.
  unfold applied_in_order.
  revert current. induction steps as [|s rest IH]; intros current; [reflexivity|].
  simpl. rewrite <- dispatch_operator.
  destruct (dispatch rt (step_name s) (step_config s) current.1 current.2)
    as [next log] eqn:Hdisp.
  specialize (IH next).
  destruct (run_steps rt rest next) as [final log'] eqn:Hrun.
  simpl in *. exact IH.
Qed.

(** A run of the first pass that returns: the pair it starts from, the
    sorted steps, the image and the dispatched names. *)
Lemma adaptive_stages img recs out log :
  _apply_adaptive_preprocessing rt img recs = Some (out, log) →
  ∃ working steps,
    working_pair rt img = Some working
    ∧ sort_steps (collect_steps recs) = Some steps
    ∧ run_steps rt steps working = (applied_in_order rt steps working, log)
    ∧ out = (applied_in_order rt steps working).1
    ∧ dispatched log = map step_name steps.
Proof.
  unfold _apply_adaptive_preprocessing, working_pair. intros H.
  destruct (if ndim3 rt img
            then gray ← rgb_to_gray rt img; Some (img, gray)
            else rgb ← gray_to_rgb rt img; Some (rgb, img)) as [working|];
    [|discriminate H].
  simpl in H.
  destruct (sort_steps (collect_steps recs)) as [steps|]; [|discriminate H].
  simpl in H.
  pose proof (run_steps_dispatched steps working) as Hlog.
  pose proof (run_steps_image steps working) as Himg.
  destruct (run_steps rt steps working) as [final l] eqn:Hrun.
  inversion H; subst. simpl in *. subst final.
  exists working, steps.
  split; [reflexivity|]. split; [reflexivity|]. split; [exact Hrun|].
  split; [reflexivity | exact Hlog].
Qed.

Lemma adaptive_dispatch_perm img recs out log :
  _apply_adaptive_preprocessing rt img recs = Some (out, log) →
  Permutation (dispatched log) (Entry.enabled_names recs).
Proof.
  intros Hrun.
  destruct (adaptive_stages _ _ _ _ Hrun) as (working & steps & _ & Hsort & _ & _ & ->).
  rewrite <- collect_steps_names.
  apply Permutation_map, sort_steps_perm, Hsort.
Qed.

(** The pass returns exactly when its two conversions do and the sort can
    compare the priorities of the enabled entries. *)
Lemma adaptive_returns_iff img recs :
  is_Some (_apply_adaptive_preprocessing rt img recs)
  ↔ is_Some (working_pair rt img) ∧ comparable_priorities (collect_steps recs).
Proof.
  rewrite <- sort_steps_returns_iff.
  unfold working_pair, _apply_adaptive_preprocessing. split.
  - intros [r H].
    destruct (if ndim3 rt img
              then gray ← rgb_to_gray rt img; Some (img, gray)
              else rgb ← gray_to_rgb rt img; Some (rgb, img)) as [working|];
      [|discriminate H].
    simpl in H.
    destruct (sort_steps (collect_steps recs)) as [steps|]; [|discriminate H].
    split; eexists; reflexivity.
  - intros [[working ->] [steps ->]]. simpl.
    destruct (run_steps rt steps working). eexists; reflexivity.
Qed.

Lemma adaptive_returns img recs :
  is_Some (working_pair rt img) →
  Forall numeric_priority (collect_steps recs) →
  is_Some (_apply_adaptive_preprocessing rt img recs).
Proof.
  intros Hwork Hnum. apply adaptive_returns_iff. split; [exact Hwork|].
  right. left. exact Hnum.
Qed.

End WithRuntime.

End Pass1Facts.

Module OrderFacts.
Import Analyzer.

(** The analyzer's dictionary is five operator entries followed by the
    [threshold_method] string. *)
Lemma generated_shape m :
  ∃ body s,
    _generate_recommendations m = (body ++ [("threshold_method", VStr s)])%list
    ∧ body.*1 = ["deskew"; "denoise"; "contrast"; "brightness"; "sharpen"].
Proof.
  pose proof (RecommendFacts.recommendation_keys m) as Hk.
  pose proof (RecommendFacts.threshold_entry m) as Ht.
  set (method := if bool_decide (document_type m = "text_heavy")
                 then "adaptive" else "otsu") in Ht.
  clearbody method.
  destruct (_generate_recommendations m)
    as [|[k1 a1] [|[k2 a2] [|[k3 a3] [|[k4 a4] [|[k5 a5] [|[k6 a6] [|? ?]]]]]]];
    try discriminate Hk.
  inversion Hk; subst.
  cbn [assoc] in Ht.
  rewrite !bool_decide_eq_false_2 in Ht by discriminate.
  rewrite bool_decide_eq_true_2 in Ht by reflexivity.
  inversion Ht; subst.
  exists [("deskew", a1); ("denoise", a2); ("contrast", a3); ("brightness", a4);
          ("sharpen", a5)], method.
  split; reflexivity.
Qed.

Lemma enabled_names_sublist items : Entry.enabled_names items `sublist_of` items.*1.
Proof. unfold Entry.enabled_names. apply fmap_sublist, sublist_filter. Qed.

(** The operators the analyzer enables, in the order of its dictionary. *)
Lemma generated_enabled_order m :
  Entry.enabled_names (_generate_recommendations m)
    `sublist_of` ["deskew"; "denoise"; "contrast"; "brightness"; "sharpen"].
Proof.
  destruct (generated_shape m) as (body & s & -> & <-).
  unfold Entry.enabled_names. rewrite filter_app.
  rewrite (filter_cons_False _ _ []) by (simpl; discriminate).
  rewrite filter_nil, app_nil_r.
  apply enabled_names_sublist.
Qed.

Lemma assoc_cons_eq {A} k (v : A) l : assoc k ((k, v) :: l) = Some v.
Proof. simpl. rewrite bool_decide_eq_true_2; reflexivity. Qed.

Lemma assoc_cons_ne {A} k k' (v : A) l :
  k' ≠ k → assoc k ((k', v) :: l) = assoc k l.
Proof. intros H. simpl. rewrite bool_decide_eq_false_2; [reflexivity | exact H]. Qed.

(** The analyzer's dictionary, entry by entry. *)
Lemma generated_entries m :
  ∃ deskew denoise contrast brightness sharpen method,
    _generate_recommendations m
      = [("deskew", deskew); ("denoise", denoise); ("contrast", contrast);
         ("brightness", brightness); ("sharpen", sharpen);
         ("threshold_method", VStr method)]
    ∧ assoc "deskew" (_generate_recommendations m) = Some deskew
    ∧ assoc "denoise" (_generate_recommendations m) = Some denoise
    ∧ assoc "contrast" (_generate_recommendations m) = Some contrast
    ∧ assoc "brightness" (_generate_recommendations m) = Some brightness
    ∧ assoc "sharpen" (_generate_recommendations m) = Some sharpen.
Proof.
  pose proof (RecommendFacts.recommendation_keys m) as Hk.
  pose proof (RecommendFacts.threshold_entry m) as H6.
  set (method := if bool_decide (document_type m = "text_heavy")
                 then "adaptive" else "otsu") in H6.
  clearbody method.
  destruct (_generate_recommendations m)
    as [|[k1 a1] [|[k2 a2] [|[k3 a3] [|[k4 a4] [|[k5 a5] [|[k6 a6] [|? ?]]]]]]];
    try discriminate Hk.
  inversion Hk; subst. clear Hk.
  rewrite !assoc_cons_ne, assoc_cons_eq in H6 by discriminate.
  inversion H6; subst.
  exists a1, a2, a3, a4, a5, method.
  split; [reflexivity|].
  rewrite assoc_cons_eq.
  rewrite assoc_cons_ne, assoc_cons_eq by discriminate.
  rewrite !assoc_cons_ne, assoc_cons_eq by discriminate.
  rewrite !assoc_cons_ne, assoc_cons_eq by discriminate.
  rewrite !assoc_cons_ne, assoc_cons_eq by discriminate.
  repeat split.
Qed.

(** Every step the analyzer's dictionary yields has an integer priority, so
    the sort of the first pass never raises on it. *)
Lemma generated_priorities m :
  Forall numeric_priority (Pass1.collect_steps (_generate_recommendations m)).
Proof.
  apply List.Forall_forall. intros [[p name] c] Hin.
  apply Pass1Facts.collect_steps_In in Hin. destruct Hin as (Hin & _ & ->).
  destruct (generated_entries m)
    as (a1 & a2 & a3 & a4 & a5 & method & Heq & H1 & H2 & H3 & H4 & H5).
  rewrite Heq in Hin. clear Heq.
  rewrite RecommendFacts.deskew_entry in H1.
  rewrite RecommendFacts.denoise_entry in H2.
  rewrite RecommendFacts.contrast_entry in H3.
  rewrite RecommendFacts.brightness_entry in H4.
  rewrite RecommendFacts.sharpen_entry in H5.
  unfold numeric_priority, Pass1.step_priority, Pass1.priority_of. simpl.
  destruct Hin as [Hin | [Hin | [Hin | [Hin | [Hin | [Hin | []]]]]]];
    inversion Hin; subst; clear Hin;
    match goal with
    | H : _ = Some (VDict c) |- _ =>
        repeat match type of H with
               | context [if ?b then _ else _] => destruct b
               end;
        inversion H; subst; vm_compute; eexists; reflexivity
    end.
Qed.

End OrderFacts.

(** C8. The first pass applies exactly the dictionary-valued entries whose
    [enabled] is true, in descending order of priority, entries of equal
    priority in the order of the recommendation dictionary (for the
    analyzer's dictionary: deskew, denoise, contrast, brightness, sharpen):
    the image it returns is the start pair taken through the operators of
    these entries one after the other in that order, and the "Applying"
    lines of the log name them in that order; no disabled entry and no
    non-dictionary entry is applied.  The pass returns exactly when its two
    colour conversions do and the sort can compare the priorities (at most
    one enabled entry, or numbers only, or strings only); the priorities are
    numbers in every dictionary the analyzer builds. *)
Theorem first_pass_order {Img : Type} (rt : runtime Img)
    (img : Img) (recs : list (string * value)) :
  (is_Some (Pass1._apply_adaptive_preprocessing rt img recs)
   ↔ is_Some (working_pair rt img)
     ∧ comparable_priorities (Pass1.collect_steps recs))
  ∧ (∀ m, recs = Analyzer._generate_recommendations m →
       Forall numeric_priority (Pass1.collect_steps recs)
       ∧ Entry.enabled_names recs
           `sublist_of` ["deskew"; "denoise"; "contrast"; "brightness"; "sharpen"])
  ∧ (∀ out log,
       Pass1._apply_adaptive_preprocessing rt img recs = Some (out, log) →
       ∃ working steps,
         working_pair rt img = Some working
         ∧ Pass1.sort_steps (Pass1.collect_steps recs) = Some steps
         ∧ out = (applied_in_order rt steps working).1
         ∧ dispatched log = map Pass1.step_name steps
         ∧ Permutation steps (Pass1.collect_steps recs)
         ∧ (∀ p name c, In (p, name, c) steps ↔
              In (name, VDict c) recs ∧ Pass1.is_enabled (VDict c) = true
              ∧ p = dict_get c "priority" (VInt 0))
         ∧ StronglySorted priority_ge steps
         ∧ (∀ p, filter (λ s, same_priority p s = true) steps
                 = filter (λ s, same_priority p s = true) (Pass1.collect_steps recs))
         ∧ map Pass1.step_name (Pass1.collect_steps recs) = Entry.enabled_names recs
         ∧ Permutation (dispatched log) (Entry.enabled_names recs)
         ∧ (∀ name, In name (dispatched log) →
              ∃ c, In (name, VDict c) recs ∧ Pass1.is_enabled (VDict c) = true)).
Proof.
  split; [apply Pass1Facts.adaptive_returns_iff|].
  split.
  { intros m ->. split; [apply OrderFacts.generated_priorities|].
    apply OrderFacts.generated_enabled_order. }
  intros out log Hrun.
  destruct (Pass1Facts.adaptive_stages rt _ _ _ _ Hrun)
    as (working & steps & Hwork & Hsort & _ & Hout & Hlog).
  pose proof (Pass1Facts.adaptive_dispatch_perm rt _ _ _ _ Hrun) as Hperm.
  pose proof (Pass1Facts.sort_steps_perm _ _ Hsort) as Hsteps.
  exists working, steps.
  split; [exact Hwork|]. split; [exact Hsort|]. split; [exact Hout|].
  split; [exact Hlog|]. split; [exact Hsteps|].
  split.
  { intros p name c. rewrite <- Pass1Facts.collect_steps_In. split; intros Hin.
    - apply (Permutation_in _ Hsteps), Hin.
    - apply (Permutation_in _ (Permutation_sym Hsteps)), Hin. }
  split; [eapply Pass1Facts.sort_steps_sorted, Hsort|].
  split; [intros p; apply Pass1Facts.sort_steps_stable, Hsort|].
  split; [apply Pass1Facts.collect_steps_names|].
  split; [exact Hperm|].
  intros name Hin.
  apply (Permutation_in _ Hperm) in Hin.
  rewrite <- Pass1Facts.collect_steps_names in Hin.
  apply in_map_iff in Hin. destruct Hin as ([[p n] c] & Hn & Hin).
  unfold Pass1.step_name in Hn. simpl in Hn. subst name.
  apply Pass1Facts.collect_steps_In in Hin. destruct Hin as (Hin & He & _).
  exists c. split; assumption.
Qed.

Lemma first_pass_order_witness :
  ∃ log steps,
    Pass1._apply_adaptive_preprocessing (labelled_runtime noisy_levels slanted_page false)
      (true, []) (Analyzer._generate_recommendations mixed_measurements)
      = Some ((true, ["rotate"; "contrast"; "denoise"; "brightness"; "sharpen"]), log)
    ∧ (true, ["rotate"; "contrast"; "denoise"; "brightness"; "sharpen"])
      = (applied_in_order (labelled_runtime noisy_levels slanted_page false) steps
           ((true, []), (false, []))).1
    ∧ map Pass1.step_name steps
      = ["deskew"; "contrast"; "denoise"; "brightness"; "sharpen"]
    ∧ StronglySorted priority_ge steps
    ∧ Entry.enabled_names (Analyzer._generate_recommendations mixed_measurements)
      = ["deskew"; "denoise"; "contrast"; "brightness"; "sharpen"].
Proof.
  destruct (first_pass_order (labelled_runtime noisy_levels slanted_page false) (true, [])
              (Analyzer._generate_recommendations mixed_measurements))
    as (Hreturns & Hgenerated & Horder).
  destruct (proj2 Hreturns) as [[out log] Hrun].
  { split; [eexists; reflexivity|]. right. left.
    apply (Hgenerated mixed_measurements eq_refl). }
  assert (Hout : out = (true, ["rotate"; "contrast"; "denoise"; "brightness"; "sharpen"])).
  { vm_compute in Hrun. injection Hrun as <- _. reflexivity. }
  subst out.
  destruct (Horder _ log Hrun)
    as (working & steps & Hwork & _ & Himage & Hlog & _ & _ & Hsorted & _ & Hnames & _).
  injection Hwork as <-.
  exists log, steps.
  split; [exact Hrun|]. split; [exact Himage|].
  split.
  { rewrite <- Hlog. vm_compute in Hrun. injection Hrun as <-. reflexivity. }
  split; [exact Hsorted|].
  rewrite <- Hnames. vm_compute. reflexivity.
Defined.

(** The sort is on the raw priorities: a float priority is ordered by its
    value, and a string priority beside a number makes the pass raise. *)
Lemma first_pass_raw_priorities :
  (∃ log,
     Pass1._apply_adaptive_preprocessing (labelled_runtime noisy_levels slanted_page false)
       (true, []) float_priority_recommendations
       = Some ((true, ["sharpen"; "denoise"]), log))
  ∧ Pass1._apply_adaptive_preprocessing (labelled_runtime noisy_levels slanted_page false)
      (true, []) string_priority_recommendations = None.
Proof.
  split; [eexists; vm_compute; reflexivity | vm_compute; reflexivity].
Qed.

(** ** The report *)

Module ReportFacts.

Section WithRuntime.

Context {Img : Type} (rt : runtime Img).

(** An operator is logged as applied only by the step of its name. *)
Lemma dispatch_succeeded name config img gray op :
  In op (Entry.succeeded_in_pass1 (Pass1.dispatch rt name config img gray).2) →
  op = name.
Proof.
  unfold Pass1.dispatch, Pass1._apply_deskew, Pass1._apply_denoise,
    Pass1._apply_contrast, Pass1._apply_brightness, Pass1._apply_sharpen.
  repeat case_bool_decide; subst;
    repeat match goal with
           | |- context [match ?x with _ => _ end] => destruct x
           end;
    simpl; intros Hop; repeat destruct Hop as [Hop|Hop];
    try (symmetry; exact Hop); try contradiction.
Qed.

Lemma succeeded_app l1 l2 :
  Entry.succeeded_in_pass1 (l1 ++ l2)%list
    = (Entry.succeeded_in_pass1 l1 ++ Entry.succeeded_in_pass1 l2)%list.
Proof. unfold Entry.succeeded_in_pass1. apply omap_app. Qed.

Lemma run_steps_succeeded steps current op :
  In op (Entry.succeeded_in_pass1 (Pass1.run_steps rt steps current).2) →
  In op (map Pass1.step_name steps).
Proof.
  revert current. induction steps as [|s rest IH]; intros current; [intros []|].
  simpl.
  pose proof (dispatch_succeeded (Pass1.step_name s) (Pass1.step_config s)
                current.1 current.2 op) as Hd.
  destruct (Pass1.dispatch rt (Pass1.step_name s) (Pass1.step_config s)
              current.1 current.2) as [next log] eqn:Hdisp.
  specialize (IH next).
  destruct (Pass1.run_steps rt rest next) as [final log'] eqn:Hrun.
  simpl in *. rewrite succeeded_app, in_app_iff.
  intros [H|H]; [left; symmetry; apply Hd, H | right; apply IH, H].
Qed.

Lemma user_events_dispatched log : Forall user_event log → dispatched log = [].
Proof.
  induction 1 as [|e log He _ IH]; [reflexivity|].
  destruct e; try contradiction; exact IH.
Qed.

Lemma user_events_succeeded log :
  Forall user_event log → Entry.succeeded_in_pass1 log = [].
Proof.
  induction 1 as [|e log He _ IH]; [reflexivity|].
  destruct e; try contradiction; exact IH.
Qed.

Lemma user_grayscale_events opts w out log :
  Overrides.user_grayscale rt opts w = Some (out, log) → Forall user_event log.
Proof.
  unfold Overrides.user_grayscale.
  destruct (truthy _); [|intros Hres; inversion Hres; constructor].
  destruct (ndim3 rt w); [|intros Hres; inversion Hres; constructor].
  destruct (rgb_to_gray rt w); simpl; [|discriminate].
  intros Hres; inversion Hres; repeat constructor.
Qed.

Lemma user_denoise_events opts w :
  Forall user_event (Overrides.user_denoise rt opts w).2.
Proof.
  unfold Overrides.user_denoise.
  destruct (truthy _); [|constructor].
  destruct (Overrides.user_denoise_body _ _ _); repeat constructor.
Qed.

Lemma user_contrast_events opts w out log :
  Overrides.user_contrast rt opts w = Some (out, log) → Forall user_event log.
Proof.
  unfold Overrides.user_contrast.
  destruct (Overrides.int_option rt opts "contrast") as [c|]; simpl; [|discriminate].
  destruct (negb (c =? 0)); [|intros H; inversion H; constructor].
  destruct (Overrides.user_contrast_body rt c w);
    intros H; inversion H; repeat constructor.
Qed.

Lemma user_brightness_events opts w out log :
  Overrides.user_brightness rt opts w = Some (out, log) → Forall user_event log.
Proof.
  unfold Overrides.user_brightness.
  destruct (Overrides.int_option rt opts "brightness") as [c|]; simpl; [|discriminate].
  destruct (negb (c =? 0)); [|intros H; inversion H; constructor].
  destruct (convert_scale_abs rt w (VInt c));
    intros H; inversion H; repeat constructor.
Qed.

Lemma user_sharpen_events opts w out log :
  Overrides.user_sharpen rt opts w = Some (out, log) → Forall user_event log.
Proof.
  unfold Overrides.user_sharpen.
  destruct (Overrides.int_option rt opts "sharpen") as [c|]; simpl; [|discriminate].
  destruct (0 <? c); [|intros H; inversion H; constructor].
  destruct (filter2d_clip rt w _);
    intros H; inversion H; repeat constructor.
Qed.

Lemma overrides_events img opts out log :
  Overrides._apply_user_overrides rt img opts = Some (out, log) →
  Forall user_event log.
Proof.
  unfold Overrides._apply_user_overrides.
  destruct (if ndim3 rt img then Some img else gray_to_rgb rt img) as [w0|];
    [|discriminate]. simpl.
  destruct (Overrides.user_grayscale rt opts w0) as [[w1 lg]|] eqn:Hg;
    [|discriminate]. simpl.
  pose proof (user_denoise_events opts w1) as Hd.
  destruct (Overrides.user_denoise rt opts w1) as [w2 ld]. simpl in Hd.
  destruct (Overrides.user_contrast rt opts w2) as [[w3 lc]|] eqn:Hc;
    [|discriminate]. simpl.
  destruct (Overrides.user_brightness rt opts w3) as [[w4 lb]|] eqn:Hb;
    [|discriminate]. simpl.
  destruct (Overrides.user_sharpen rt opts w4) as [[w5 ls]|] eqn:Hs;
    [|discriminate]. simpl.
  intros H. inversion H; subst.
  repeat apply Forall_app_2.
  - eapply user_grayscale_events, Hg.
  - exact Hd.
  - eapply user_contrast_events, Hc.
  - eapply user_brightness_events, Hb.
  - eapply user_sharpen_events, Hs.
Qed.

End WithRuntime.

End ReportFacts.

Module EntryFacts.

Section WithRuntime.

Context {Img : Type} (rt : runtime Img).

Lemma analyze_complete img analysis :
  Pass1.analyze_document_quality rt img = Some analysis →
  ∃ m, analysis = Analyzer.complete m.
Proof.
  unfold Pass1.analyze_document_quality. intros H.
  destruct (if ndim3 rt img then rgb_to_gray rt img else Some img) as [gray|];
    [|discriminate H]. simpl in H.
  destruct (assess_levels rt gray) as [lv|]; [|discriminate H]. simpl in H.
  destruct (Pass1.detect_skew rt gray) as [sk|]; [|discriminate H]. simpl in H.
  inversion H. eexists. reflexivity.
Qed.

(** The stages behind a returned result. *)
Lemma entry_stages bytes user out report log :
  Entry.dynamic_preprocess_image rt bytes user = Some (out, report, log) →
  ∃ img analysis processed log1 log2,
    load_image rt bytes = Some img
    ∧ Pass1.analyze_document_quality rt img = Some analysis
    ∧ Pass1._apply_adaptive_preprocessing rt img (Analyzer.recommendations analysis)
      = Some (processed, log1)
    ∧ log = (log1 ++ log2)%list
    ∧ Forall user_event log2
    ∧ Entry.processing_applied report
      = Entry.enabled_names (Analyzer.recommendations analysis).
Proof.
  unfold Entry.dynamic_preprocess_image, Pass1.process_document. intros H.
  destruct (load_image rt bytes) as [img|]; [|discriminate H]. simpl in H.
  destruct (Pass1.analyze_document_quality rt img) as [analysis|] eqn:Ha;
    [|discriminate H]. simpl in H.
  destruct (Pass1._apply_adaptive_preprocessing rt img
              (Analyzer.recommendations analysis)) as [[processed log1]|] eqn:Hp;
    [|discriminate H]. simpl in H.
  match type of H with
  | context [if ?c then ?x else ?y] =>
      destruct (if c then x else y) as [[processed2 log2]|] eqn:Ho
  end; [|discriminate H]. simpl in H.
  destruct (if ndim3 rt processed2 then Some processed2
            else gray_to_rgb rt processed2) as [rgb|]; [|discriminate H].
  simpl in H.
  destruct (save_jpeg rt rgb) as [encoded|]; [|discriminate H]. simpl in H.
  inversion H; subst. clear H.
  exists img, analysis, processed, log1, log2.
  repeat split; try reflexivity; try assumption.
  destruct (negb _) in Ho.
  - eapply ReportFacts.overrides_events, Ho.
  - inversion Ho. constructor.
Qed.

End WithRuntime.

End EntryFacts.

(** C2 (as the code has it).  [processing_applied] is the list of the names
    of the recommendations the analysis enabled, in dictionary order: the
    operators the first pass dispatched, whatever the outcome of each.  Every
    operator that succeeded in the first pass is in the list; an operator
    whose application raised and was caught is in the list as well. *)
Theorem processing_applied_lists_enabled {Img : Type} (rt : runtime Img)
    (image_bytes out : list Byte.byte) (user_opts : option (gmap string value))
    (report : Entry.report) (log : list event) :
  Entry.dynamic_preprocess_image rt image_bytes user_opts = Some (out, report, log) →
  ∃ img analysis,
    load_image rt image_bytes = Some img
    ∧ Pass1.analyze_document_quality rt img = Some analysis
    ∧ Entry.processing_applied report
      = Entry.enabled_names (Analyzer.recommendations analysis)
    ∧ Entry.processing_applied report
        `sublist_of` ["deskew"; "denoise"; "contrast"; "brightness"; "sharpen"]
    ∧ Permutation (Entry.processing_applied report) (dispatched log)
    ∧ (∀ op, In op (Entry.succeeded_in_pass1 log) →
             In op (Entry.processing_applied report)).
Proof.
  intros Hrun.
  destruct (EntryFacts.entry_stages rt _ _ _ _ _ Hrun)
    as (img & analysis & processed & log1 & log2 & Hload & Han & Hpass & -> & Hev
        & Happlied).
  exists img, analysis.
  split; [exact Hload|]. split; [exact Han|]. split; [exact Happlied|].
  destruct (Pass1Facts.adaptive_stages rt _ _ _ _ Hpass)
    as (working & steps & _ & _ & Hsteps & _ & Hlog).
  pose proof (Pass1Facts.adaptive_dispatch_perm rt _ _ _ _ Hpass) as Hperm.
  split.
  { rewrite Happlied.
    destruct (EntryFacts.analyze_complete rt _ _ Han) as [m ->].
    apply OrderFacts.generated_enabled_order. }
  split.
  { rewrite Pass1Facts.dispatched_app, (ReportFacts.user_events_dispatched _ Hev),
      app_nil_r, Happlied.
    symmetry. exact Hperm. }
  intros op Hop.
  rewrite ReportFacts.succeeded_app, (ReportFacts.user_events_succeeded _ Hev),
    app_nil_r in Hop.
  rewrite Happlied. apply (Permutation_in _ Hperm).
  rewrite Hlog.
  pose proof (ReportFacts.run_steps_succeeded rt steps working op) as Hsucc.
  rewrite Hsteps in Hsucc. apply Hsucc, Hop.
Qed.

Lemma processing_applied_lists_enabled_witness :
  applied_of clean_run = ["denoise"]
  ∧ Permutation (applied_of clean_run) (dispatched (log_of clean_run)).
Proof.
  destruct clean_run as [[[out report] log]|] eqn:Hrun;
    [|vm_compute in Hrun; discriminate Hrun].
  destruct (processing_applied_lists_enabled _ _ _ _ _ _ Hrun)
    as (img & analysis & _ & _ & _ & _ & Hperm & _).
  split; [|exact Hperm].
  vm_compute in Hrun. inversion Hrun. reflexivity.
Defined.

(** C2, the claim as stated: on a noisy page whose denoising filter raises,
    the call returns, the log records the failure and no success of denoise,
    and yet [processing_applied] contains "denoise". *)
Lemma applied_list_counts_failed_operator :
  is_Some failed_denoise_run
  ∧ In (LogFailed "denoise") (log_of failed_denoise_run)
  ∧ ¬ In "denoise" (Entry.succeeded_in_pass1 (log_of failed_denoise_run))
  ∧ In "denoise" (applied_of failed_denoise_run).
Proof.
  split; [vm_compute; eexists; reflexivity|].
  split; [vm_compute; tauto|].
  split; [vm_compute; tauto|].
  vm_compute. tauto.
Qed.

(** ** Failure handling *)

Module FailSoftFacts.

Lemma auto_integer_option a k :
  In k integer_keys →
  AutoOpts._derive_auto_preprocessing_options a !! k = None
  ∨ ∃ n, AutoOpts._derive_auto_preprocessing_options a !! k = Some (VInt n).
Proof.
  intros [<- | [<- | [<- | []]]].
  - rewrite AutoFacts.auto_contrast.
    repeat match goal with
           | |- context [if ?c then _ else _] => destruct c
           end; eauto.
  - rewrite AutoFacts.auto_brightness.
    repeat match goal with
           | |- context [if ?c then _ else _] => destruct c
           end; eauto.
  - rewrite AutoFacts.auto_sharpen.
    repeat match goal with
           | |- context [if ?c then _ else _] => destruct c
           end; eauto.
Qed.

Section WithRuntime.

Context {Img : Type} (rt : runtime Img).

Lemma int_option_of_int opts k n :
  opts !! k = Some (VInt n) → is_Some (Overrides.int_option rt opts k).
Proof.
  intros H. unfold Overrides.int_option, dict_get, py_or. rewrite H.
  destruct (truthy (VInt n)); eexists; reflexivity.
Qed.

Lemma int_option_of_none opts k :
  opts !! k = None → is_Some (Overrides.int_option rt opts k).
Proof.
  intros H. unfold Overrides.int_option, dict_get. rewrite H.
  eexists; reflexivity.
Qed.

(** The merged option under an integer key converts whenever the user's
    own value does. *)
Lemma final_int_option auto_opts user_opts k :
  (auto_opts !! k = None ∨ ∃ n, auto_opts !! k = Some (VInt n)) →
  (∀ u v, user_opts = Some u → u !! k = Some v →
          is_Some (Overrides.py_int rt (py_or v (VInt 0)))) →
  is_Some (Overrides.int_option rt
             (Merge._merge_preprocessing_options auto_opts user_opts) k).
Proof.
  intros Hauto Huser.
  assert (Hplain : is_Some (Overrides.int_option rt auto_opts k)).
  { destruct Hauto as [Hn | [n Hn]];
      [eapply int_option_of_none | eapply int_option_of_int]; exact Hn. }
  destruct user_opts as [u|]; [|exact Hplain].
  destruct (u !! k) as [v|] eqn:Hu.
  - unfold Overrides.int_option, dict_get.
    rewrite MergeFacts.merge_lookup, Hu.
    assert (Hentry : Merge.merged_entry (auto_opts !! k) v = v).
    { destruct v; try reflexivity.
      destruct Hauto as [-> | [n ->]]; reflexivity. }
    rewrite Hentry. eapply Huser; [reflexivity | exact Hu].
  - unfold Overrides.int_option, dict_get in *.
    rewrite MergeFacts.merge_lookup, Hu. exact Hplain.
Qed.

Lemma run_adaptive_total img recs :
  (∀ i, ndim3 rt i = true → is_Some (rgb_to_gray rt i)) →
  (∀ i, ndim3 rt i = false → is_Some (gray_to_rgb rt i)) →
  Forall numeric_priority (Pass1.collect_steps recs) →
  is_Some (Pass1._apply_adaptive_preprocessing rt img recs).
Proof.
  intros Hg Hr Hnum. apply Pass1Facts.adaptive_returns; [|exact Hnum].
  unfold working_pair. destruct (ndim3 rt img) eqn:Hd.
  - destruct (Hg img Hd) as [g ->]. eexists; reflexivity.
  - destruct (Hr img Hd) as [r ->]. eexists; reflexivity.
Qed.

Lemma overrides_total img opts :
  (∀ i, ndim3 rt i = true → is_Some (rgb_to_gray rt i)) →
  (∀ i, ndim3 rt i = false → is_Some (gray_to_rgb rt i)) →
  (∀ k, In k integer_keys → is_Some (Overrides.int_option rt opts k)) →
  is_Some (Overrides._apply_user_overrides rt img opts).
Proof.
  intros Hg Hr Hint. unfold Overrides._apply_user_overrides.
  assert (Hw : is_Some (if ndim3 rt img then Some img else gray_to_rgb rt img)).
  { destruct (ndim3 rt img) eqn:Hd; [eexists; reflexivity | apply Hr, Hd]. }
  destruct Hw as [w0 ->]. simpl.
  assert (Hgs : is_Some (Overrides.user_grayscale rt opts w0)).
  { unfold Overrides.user_grayscale.
    destruct (truthy _); [|eexists; reflexivity].
    destruct (ndim3 rt w0) eqn:Hd; [|eexists; reflexivity].
    destruct (Hg w0 Hd) as [g ->]. eexists; reflexivity. }
  destruct Hgs as [[w1 lg] ->]. simpl.
  destruct (Overrides.user_denoise rt opts w1) as [w2 ld].
  assert (Hc : is_Some (Overrides.user_contrast rt opts w2)).
  { unfold Overrides.user_contrast.
    destruct (Hint "contrast") as [c ->]; [simpl; tauto|]. simpl.
    destruct (negb _); [|eexists; reflexivity].
    destruct (Overrides.user_contrast_body rt c w2); eexists; reflexivity. }
  destruct Hc as [[w3 lc] ->]. simpl.
  assert (Hb : is_Some (Overrides.user_brightness rt opts w3)).
  { unfold Overrides.user_brightness.
    destruct (Hint "brightness") as [c ->]; [simpl; tauto|]. simpl.
    destruct (negb _); [|eexists; reflexivity].
    destruct (convert_scale_abs rt w3 (VInt c)); eexists; reflexivity. }
  destruct Hb as [[w4 lb] ->]. simpl.
  assert (Hs : is_Some (Overrides.user_sharpen rt opts w4)).
  { unfold Overrides.user_sharpen.
    destruct (Hint "sharpen") as [c ->]; [simpl; tauto|]. simpl.
    destruct (0 <? c); [|eexists; reflexivity].
    destruct (filter2d_clip rt w4 _); eexists; reflexivity. }
  destruct Hs as [[w5 ls] ->]. simpl.
  eexists; reflexivity.
Qed.

(** The call returns whenever everything outside the operator bodies does:
    the decoder, the analysis of the decoded image, each colour conversion
    on an image of the layout it is for, the integer conversions of the
    options and the encoder on an image in three channels. *)
Lemma entry_total image_bytes user_opts :
  is_Some (load_image rt image_bytes) →
  (∀ img, load_image rt image_bytes = Some img →
          is_Some (Pass1.analyze_document_quality rt img)) →
  (∀ i, ndim3 rt i = true → is_Some (rgb_to_gray rt i)) →
  (∀ i, ndim3 rt i = false → is_Some (gray_to_rgb rt i)) →
  (∀ i rgb, (if ndim3 rt i then Some i else gray_to_rgb rt i) = Some rgb →
            is_Some (save_jpeg rt rgb)) →
  (∀ u k v, user_opts = Some u → In k integer_keys → u !! k = Some v →
            is_Some (Overrides.py_int rt (py_or v (VInt 0)))) →
  is_Some (Entry.dynamic_preprocess_image rt image_bytes user_opts).
Proof.
  intros [img Hload] Ha Hg Hr He Hu.
  unfold Entry.dynamic_preprocess_image, Pass1.process_document.
  rewrite Hload. simpl.
  destruct (Ha img Hload) as [analysis Han]. rewrite Han. simpl.
  assert (Hpass : is_Some (Pass1._apply_adaptive_preprocessing rt img
                             (Analyzer.recommendations analysis))).
  { apply run_adaptive_total; [exact Hg | exact Hr |].
    destruct (EntryFacts.analyze_complete rt _ _ Han) as [m ->].
    apply OrderFacts.generated_priorities. }
  destruct Hpass as [[processed log1] ->]. simpl.
  set (final_opts := Merge._merge_preprocessing_options _ _).
  assert (Hover : is_Some (if negb (bool_decide (final_opts = ∅))
                           then Overrides._apply_user_overrides rt processed final_opts
                           else Some (processed, []))).
  { destruct (negb _); [|eexists; reflexivity].
    apply overrides_total; [exact Hg | exact Hr |].
    intros k Hk. subst final_opts. apply final_int_option.
    - apply auto_integer_option, Hk.
    - intros u v Hsome Hv. eapply Hu; eassumption. }
  destruct Hover as [[processed2 log2] ->]. simpl.
  assert (Hrgb : is_Some (if ndim3 rt processed2 then Some processed2
                          else gray_to_rgb rt processed2)).
  { destruct (ndim3 rt processed2) eqn:Hd; [eexists; reflexivity | apply Hr, Hd]. }
  destruct Hrgb as [rgb Hrgb]. rewrite Hrgb. simpl.
  destruct (He processed2 rgb Hrgb) as [encoded ->]. simpl.
  eexists; reflexivity.
Qed.

(** The grayscale conversion of the override pass has no handler: when it
    raises, so does the pass. *)
Lemma grayscale_failure_propagates img opts :
  ndim3 rt img = true →
  truthy (dict_get opts "grayscale" (VBool false)) = true →
  rgb_to_gray rt img = None →
  Overrides._apply_user_overrides rt img opts = None.
Proof.
  intros Hd Ht Hg. unfold Overrides._apply_user_overrides, Overrides.user_grayscale.
  rewrite Hd. simpl. rewrite Ht, Hd, Hg. reflexivity.
Qed.

End WithRuntime.

End FailSoftFacts.




(* ================================================================= *)
(** * Further properties of the service *)

(** ** Score and merge *)

(** X1. The clamp of the quality score never fires: for every analysis the
    score is the plain sum of the base 50 and the five table look-ups, and it
    lies between 20 and 100. *)
Theorem score_clamp_inactive (m : Analyzer.measurements) :
  Analyzer._calculate_quality_score m = Analyzer.raw_score m
  ∧ 20 <= Analyzer._calculate_quality_score m <= 100.
Proof.
  pose proof (ScoreFacts.raw_score_range m) as Hr.
  assert (Hs : Analyzer._calculate_quality_score m
               = Z.max 0 (Z.min 100 (Analyzer.raw_score m))) by reflexivity.
  rewrite Hs. lia.
Qed.

(** X3. The merge never drops a key: the keys of the merged options are the
    keys of the automatic options together with the keys of the user
    options. *)
Theorem merge_keeps_all_keys (auto_opts user_opts : gmap string value) :
  dom (Merge._merge_preprocessing_options auto_opts (Some user_opts))
    = dom auto_opts ∪ dom user_opts.
Proof.
  apply set_eq. intros k.
  rewrite elem_of_union, !elem_of_dom, MergeFacts.merge_lookup.
  destruct (user_opts !! k) as [v|] eqn:Hu.
  - split; [intros _; right; eexists; reflexivity | intros _; eexists; reflexivity].
  - split; [intros H; left; exact H | intros [H | [? H]]; [exact H | discriminate H]].
Qed.

(** X4. Merging the same user options a second time changes nothing. *)
Theorem merge_idempotent (auto_opts user_opts : gmap string value) :
  Merge._merge_preprocessing_options
    (Merge._merge_preprocessing_options auto_opts (Some user_opts)) (Some user_opts)
  = Merge._merge_preprocessing_options auto_opts (Some user_opts).
Proof.
  apply map_eq. intros k.
  rewrite !MergeFacts.merge_lookup.
  destruct (user_opts !! k) as [v|] eqn:Hu; [|reflexivity].
  f_equal. destruct v as [| | | | |dv]; try reflexivity.
  assert (Hsame : ∀ d : gmap string value, dv ∪ (dv ∪ d) = dv ∪ d).
  { intros d. apply map_eq. intros s.
    rewrite !lookup_union. destruct (dv !! s), (d !! s); reflexivity. }
  destruct (auto_opts !! k) as [[| | | | |dm]|]; simpl; f_equal;
    try apply map_union_idemp.
  apply Hsame.
Qed.

(** X5. With no automatic option, the merged options are the user options. *)
Theorem merge_into_empty (user_opts : gmap string value) :
  Merge._merge_preprocessing_options ∅ (Some user_opts) = user_opts.
Proof.
  apply map_eq. intros k.
  rewrite MergeFacts.merge_lookup, lookup_empty.
  destruct (user_opts !! k) as [v|]; [|reflexivity].
  destruct v; reflexivity.
Qed.

(** ** The level classifiers *)

Module MeasureFacts.
Import Measures.

Lemma Qgt_bool_spec a b : Qgt_bool a b = true ↔ (b < a)%Q.
Proof.
  unfold Qgt_bool. rewrite negb_true_iff. split.
  - intros Hf. apply Qnot_le_lt. intros Hle.
    apply Qle_bool_iff in Hle. congruence.
  - intros Hlt. destruct (Qle_bool a b) eqn:Hle; [|reflexivity].
    apply Qle_bool_iff in Hle. exfalso. eapply Qlt_not_le; eassumption.
Qed.

Lemma Qgt_bool_weaken a b c :
  (c <= b)%Q → Qgt_bool a b = true → Qgt_bool a c = true.
Proof.
  rewrite !Qgt_bool_spec. intros Hcb Hba. eapply Qle_lt_trans; eassumption.
Qed.

Lemma count_text_like_bound cs : 0 <= count_text_like cs <= Z.of_nat (length cs).
Proof.
  induction cs as [|c rest IH]; simpl count_text_like; simpl length; [lia|].
  destruct (_ && _); [|lia].
  destruct (_ && _); lia.
Qed.

Section WithMeasures.

Context {Img : Type} (cv : cv_measures Img).

(** The two classifiers that read the Laplacian variance, side by side. *)
Lemma noise_blur_cases gray :
  (noise_level (_assess_noise_level cv gray) = "high"
   ∧ blur_level (_assess_blur cv gray) = "sharp")
  ∨ (noise_level (_assess_noise_level cv gray) = "medium"
     ∧ (blur_level (_assess_blur cv gray) = "sharp"
        ∨ blur_level (_assess_blur cv gray) = "moderate"))
  ∨ noise_level (_assess_noise_level cv gray) = "low".
Proof.
  unfold _assess_noise_level, _assess_blur. simpl.
  destruct (Qgt_bool (laplacian_variance cv gray) 1000) eqn:H1000.
  - assert (H800 : Qgt_bool (laplacian_variance cv gray) 800 = true)
      by (eapply Qgt_bool_weaken; [|exact H1000]; discriminate).
    assert (H500 : Qgt_bool (laplacian_variance cv gray) 500 = true)
      by (eapply Qgt_bool_weaken; [|exact H1000]; discriminate).
    rewrite H800, H500. simpl.
    destruct (Qgt_bool (highpass_variance cv gray) 50);
      [left; split; reflexivity|].
    destruct (Qgt_bool (highpass_variance cv gray) 20);
      [right; left; split; [reflexivity | left; reflexivity] | right; right; reflexivity].
  - simpl.
    destruct (Qgt_bool (laplacian_variance cv gray) 500) eqn:H500;
      [|right; right; reflexivity].
    assert (H200 : Qgt_bool (laplacian_variance cv gray) 200 = true)
      by (eapply Qgt_bool_weaken; [|exact H500]; discriminate).
    rewrite H200. simpl.
    destruct (Qgt_bool (highpass_variance cv gray) 20);
      [|right; right; reflexivity].
    right; left. split; [reflexivity|].
    destruct (Qgt_bool (laplacian_variance cv gray) 800);
      [left | right]; reflexivity.
Qed.

Lemma blur_level_cases gray :
  blur_level (_assess_blur cv gray) = "sharp"
  ∨ blur_level (_assess_blur cv gray) = "moderate"
  ∨ blur_level (_assess_blur cv gray) = "blurry".
Proof.
  unfold _assess_blur. simpl.
  destruct (Qgt_bool _ 800); [left; reflexivity|].
  destruct (Qgt_bool _ 200); [right; left | right; right]; reflexivity.
Qed.

End WithMeasures.

End MeasureFacts.

(** X6. Noise and blur are both classified from the same Laplacian variance
    of the page, so they constrain each other: a page with noise level high
    has blur level sharp, and a page whose noise level is not low is never
    blurry.  Hence the recommendations never enable denoise and sharpen
    together. *)
Theorem noise_excludes_blur {Img : Type} (cv : Measures.cv_measures Img)
    (gray : Img) (brightness_level : string) (skew : Skew.skew_result) :
  (Measures.noise_level (Measures._assess_noise_level cv gray) = "high" →
     Measures.blur_level (Measures._assess_blur cv gray) = "sharp")
  ∧ (Measures.noise_level (Measures._assess_noise_level cv gray) ≠ "low" →
     Measures.blur_level (Measures._assess_blur cv gray) ≠ "blurry")
  ∧ ¬ (enabled_at (Analyzer._generate_recommendations
                     (Measures.measurements_of cv gray brightness_level skew))
         "denoise" = true
       ∧ enabled_at (Analyzer._generate_recommendations
                       (Measures.measurements_of cv gray brightness_level skew))
           "sharpen" = true).
Proof.
  pose proof (MeasureFacts.noise_blur_cases cv gray) as Hcases.
  assert (Hexcl : Measures.noise_level (Measures._assess_noise_level cv gray) ≠ "low" →
                  Measures.blur_level (Measures._assess_blur cv gray) ≠ "blurry").
  { intros Hn Hb.
    destruct Hcases as [[_ Hs] | [[_ [Hs | Hs]] | Hl]];
      try (rewrite Hs in Hb; discriminate Hb).
    contradiction. }
  split.
  { intros Hh. destruct Hcases as [[_ Hs] | [[Hm _] | Hl]]; [exact Hs | |];
      rewrite Hh in *; discriminate. }
  split; [exact Hexcl|].
  unfold enabled_at.
  rewrite RecommendFacts.denoise_entry, RecommendFacts.sharpen_entry.
  unfold Analyzer.one_of, Measures.measurements_of.
  cbn [Analyzer.noise_level Analyzer.blur_level].
  intros [Hd Hs].
  case_bool_decide as Hblurry; [|simpl in Hs; discriminate Hs].
  apply Hexcl; [|exact Hblurry].
  intros Hlow. rewrite Hlow in Hd. simpl in Hd. discriminate Hd.
Qed.

Lemma noise_excludes_blur_witness :
  Measures.blur_level (Measures._assess_blur (flat_measures 1500 80 0 255) tt)
    = "sharp"
  ∧ Measures.blur_level (Measures._assess_blur (flat_measures 600 30 0 255) tt)
    ≠ "blurry".
Proof.
  split.
  - apply (noise_excludes_blur (flat_measures 1500 80 0 255) tt "normal"
             {| Skew.angle := 0; Skew.level := "low"; Skew.confidence := 0 |}).
    reflexivity.
  - apply (noise_excludes_blur (flat_measures 600 30 0 255) tt "normal"
             {| Skew.angle := 0; Skew.level := "low"; Skew.confidence := 0 |}).
    vm_compute. discriminate.
Defined.

(** X7. Because noise and blur share the Laplacian variance, the lowest
    scores of the tables cannot be combined: the quality score of an
    analysed page is at least 35 (and at most 100), and 35 is reached by a
    blurry, dark, flat, strongly tilted page. *)
Theorem analysed_score_at_least_35 {Img : Type} (cv : Measures.cv_measures Img)
    (gray : Img) (brightness_level : string) (skew : Skew.skew_result) :
  35 <= Analyzer._calculate_quality_score
          (Measures.measurements_of cv gray brightness_level skew) <= 100
  ∧ Analyzer._calculate_quality_score
      (Measures.measurements_of (flat_measures 100 0 0 0) tt "very_dark"
         {| Skew.angle := 9; Skew.level := "high"; Skew.confidence := 1 # 2 |}) = 35.
Proof.
  split; [|reflexivity].
  set (m := Measures.measurements_of cv gray brightness_level skew).
  assert (Hs : Analyzer._calculate_quality_score m
               = Z.max 0 (Z.min 100 (Analyzer.raw_score m))) by reflexivity.
  pose proof (ScoreFacts.raw_score_range m) as Hr.
  rewrite Hs.
  pose proof (ScoreFacts.contrast_bonus_range (Analyzer.contrast_quality m)) as Hc.
  pose proof (ScoreFacts.brightness_bonus_range (Analyzer.brightness_level m)) as Hb.
  pose proof (ScoreFacts.skew_penalty_range (Skew.level (Analyzer.skew_angle m))) as Hk.
  pose proof (ScoreFacts.blur_bonus_range (Analyzer.blur_level m)) as Hbl.
  assert (Hnb : -10 <= Analyzer.bonus Analyzer.noise_table (Analyzer.noise_level m)
                       + Analyzer.bonus Analyzer.blur_table (Analyzer.blur_level m)).
  { subst m. unfold Measures.measurements_of.
    cbn [Analyzer.noise_level Analyzer.blur_level].
    destruct (MeasureFacts.noise_blur_cases cv gray)
      as [[-> ->] | [[-> [-> | ->]] | ->]];
      try (vm_compute; discriminate).
    pose proof (ScoreFacts.blur_bonus_range
                  (Measures.blur_level (Measures._assess_blur cv gray))) as Hb2.
    change (Analyzer.bonus Analyzer.noise_table "low") with 0. lia. }
  unfold Analyzer.raw_score in *. lia.
Qed.

(** X8. A page whose darkest and brightest pixel coincide has Michelson
    contrast 0 and contrast level low, whatever its standard deviation is
    reported to be; this holds for the all-black page too, where the
    denominator [max + min] is zero and the guard returns 0. *)
Theorem uniform_page_has_low_contrast {Img : Type} (cv : Measures.cv_measures Img)
    (gray : Img) :
  (Measures.max_value cv gray == Measures.min_value cv gray)%Q →
  (Measures.michelson_contrast (Measures._assess_contrast cv gray) == 0)%Q
  ∧ Measures.contrast_level (Measures._assess_contrast cv gray) = "low".
Proof.
  intros Heq.
  assert (Hm : (Measures.michelson_contrast (Measures._assess_contrast cv gray) == 0)%Q).
  { unfold Measures._assess_contrast. simpl.
    destruct (Measures.Qgt_bool _ 0); [|reflexivity].
    unfold Qdiv. rewrite Heq. ring. }
  split; [exact Hm|].
  assert (Hno : ∀ t : Q, (0 < t)%Q →
            Measures.Qgt_bool
              (Measures.michelson_contrast (Measures._assess_contrast cv gray)) t
            = false).
  { intros t Ht. apply not_true_is_false. intros Hgt.
    apply MeasureFacts.Qgt_bool_spec in Hgt. rewrite Hm in Hgt.
    eapply Qlt_irrefl, Qlt_trans; eassumption. }
  pose proof (Hno (7 # 10)%Q eq_refl) as H7.
  pose proof (Hno (4 # 10)%Q eq_refl) as H4.
  unfold Measures._assess_contrast in *. simpl in *.
  rewrite H7, H4, !andb_false_r. reflexivity.
Qed.

Lemma uniform_page_has_low_contrast_witness :
  Measures.contrast_level (Measures._assess_contrast (flat_measures 0 0 0 0) tt) = "low"
  ∧ Measures.contrast_level
      (Measures._assess_contrast (flat_measures 0 0 128 128) tt) = "low".
Proof.
  split.
  - apply (uniform_page_has_low_contrast (flat_measures 0 0 0 0) tt). reflexivity.
  - apply (uniform_page_has_low_contrast (flat_measures 0 0 128 128) tt). reflexivity.
Defined.

(** X9. The count of text-like contours never exceeds the number of
    contours found, so a page is classified text_heavy only if more than 50
    contours were found on it and its edge density is above 0.05; a page
    classified simple_text has edge density at most 0.1. *)
Theorem text_heavy_needs_contours {Img : Type} (cv : Measures.cv_measures Img)
    (gray : Img) :
  0 <= Measures.text_regions (Measures._classify_document_type cv gray)
    <= Z.of_nat (length (Measures.closed_contours cv gray))
  ∧ (Measures.doc_type (Measures._classify_document_type cv gray) = "text_heavy" →
       (50 < length (Measures.closed_contours cv gray))%nat
       ∧ (5 # 100 < Measures.edge_density cv gray)%Q)
  ∧ (Measures.doc_type (Measures._classify_document_type cv gray) = "simple_text" →
       (Measures.edge_density cv gray <= 1 # 10)%Q).
Proof.
  pose proof (MeasureFacts.count_text_like_bound (Measures.closed_contours cv gray))
    as Hcount.
  split; [exact Hcount|].
  unfold Measures._classify_document_type. simpl.
  destruct (Measures.Qgt_bool (Measures.edge_density cv gray) (5 # 100)) eqn:He;
    destruct (50 <? Measures.count_text_like (Measures.closed_contours cv gray))
      eqn:Hc; simpl;
    destruct (Measures.Qgt_bool (Measures.edge_density cv gray) (1 # 10)) eqn:Hd;
    (split; [try discriminate | try discriminate]).
  all: try (intros _; split;
            [apply Z.ltb_lt in Hc; lia | apply MeasureFacts.Qgt_bool_spec, He]).
  all: intros _; apply Qnot_lt_le; intros Hlt;
       apply MeasureFacts.Qgt_bool_spec in Hlt; congruence.
Qed.

Lemma text_heavy_needs_contours_witness :
  (50 < length (Measures.closed_contours (contour_measures (8 # 100) 60) tt))%nat
  ∧ (Measures.edge_density (contour_measures (3 # 100) 4) tt <= 1 # 10)%Q.
Proof.
  split.
  - apply (text_heavy_needs_contours (contour_measures (8 # 100) 60) tt).
    vm_compute. reflexivity.
  - apply (text_heavy_needs_contours (contour_measures (3 # 100) 4) tt).
    vm_compute. reflexivity.
Defined.

(** ** Brightness *)

Module BrightnessFacts.
Import Analyzer.

Lemma count_if_all (p : Z → bool) l :
  (∀ x, In x l → p x = true) → count_if p l = Z.of_nat (length l).
Proof.
  intros Hall. unfold count_if. f_equal. f_equal.
  induction l as [|x l IH]; [reflexivity|].
  rewrite filter_cons_True by (apply Hall; left; reflexivity).
  f_equal. apply IH. intros y Hy. apply Hall. right. exact Hy.
Qed.

Lemma count_if_none (p : Z → bool) l :
  (∀ x, In x l → p x = false) → count_if p l = 0.
Proof.
  intros Hall. unfold count_if.
  replace (filter (λ x, p x = true) l) with (@nil Z); [reflexivity|].
  induction l as [|x l IH]; [reflexivity|].
  rewrite filter_cons_False
    by (rewrite (Hall x (or_introl eq_refl)); discriminate).
  apply IH. intros y Hy. apply Hall. right. exact Hy.
Qed.

Lemma sum_upper (b : Z) l :
  (∀ x, In x l → x <= b) → fold_right Z.add 0 l <= b * Z.of_nat (length l).
Proof.
  induction l as [|x l IH]; intros Hall; simpl fold_right; simpl length; [lia|].
  pose proof (Hall x (or_introl eq_refl)).
  assert (fold_right Z.add 0 l <= b * Z.of_nat (length l))
    by (apply IH; intros y Hy; apply Hall; right; exact Hy).
  lia.
Qed.

Lemma sum_lower (b : Z) l :
  (∀ x, In x l → b <= x) → b * Z.of_nat (length l) <= fold_right Z.add 0 l.
Proof.
  induction l as [|x l IH]; intros Hall; simpl fold_right; simpl length; [lia|].
  pose proof (Hall x (or_introl eq_refl)).
  assert (b * Z.of_nat (length l) <= fold_right Z.add 0 l)
    by (apply IH; intros y Hy; apply Hall; right; exact Hy).
  lia.
Qed.

Lemma ratio_le (s n b : Z) :
  0 < n → s <= b * n → (inject_Z s / inject_Z n <= inject_Z b)%Q.
Proof.
  intros Hn Hs. apply Qle_shift_div_r.
  - change 0%Q with (inject_Z 0). rewrite <- Zlt_Qlt. exact Hn.
  - rewrite <- inject_Z_mult, <- Zle_Qle. exact Hs.
Qed.

Lemma ratio_ge (s n b : Z) :
  0 < n → b * n <= s → (inject_Z b <= inject_Z s / inject_Z n)%Q.
Proof.
  intros Hn Hs. apply Qle_shift_div_l.
  - change 0%Q with (inject_Z 0). rewrite <- Zlt_Qlt. exact Hn.
  - rewrite <- inject_Z_mult, <- Zle_Qle. exact Hs.
Qed.

Lemma Qle_bool_false a b : (b < a)%Q → Qle_bool a b = false.
Proof.
  intros Hlt. apply not_true_is_false. intros Hle.
  apply Qle_bool_iff in Hle. eapply Qlt_not_le; eassumption.
Qed.

Lemma Qle_bool_true a b : (a <= b)%Q → Qle_bool a b = true.
Proof. apply Qle_bool_iff. Qed.

Lemma full_ratio (n : Z) : 0 < n → (3 # 10 < inject_Z n / inject_Z n)%Q.
Proof.
  intros Hn. apply Qlt_shift_div_l.
  - change 0%Q with (inject_Z 0). rewrite <- Zlt_Qlt. exact Hn.
  - unfold Qlt, Qmult, inject_Z. simpl. lia.
Qed.

End BrightnessFacts.

(** X10. On a non-empty page, [_assess_brightness] reports very_dark when
    every pixel is below 50, overexposed when every pixel is at least 200,
    and normal when every pixel lies between 80 and 180. *)
Theorem brightness_of_even_pages (gray : list Z) :
  gray ≠ [] →
  ((∀ p, In p gray → p < 50) →
     Analyzer.level (Analyzer._assess_brightness gray) = "very_dark")
  ∧ ((∀ p, In p gray → 200 <= p) →
     Analyzer.level (Analyzer._assess_brightness gray) = "overexposed")
  ∧ ((∀ p, In p gray → 80 <= p <= 180) →
     Analyzer.level (Analyzer._assess_brightness gray) = "normal").
Proof.
  intros Hne.
  assert (Hn : 0 < Z.of_nat (length gray)) by (destruct gray; [congruence | simpl; lia]).
  unfold Analyzer._assess_brightness. cbn [Analyzer.level].
  set (n := Z.of_nat (length gray)) in *.
  set (total := fold_right Z.add 0 gray).
  split; [|split].
  - intros Hall.
    assert (Hmean : (inject_Z total / inject_Z n <= inject_Z 49)%Q).
    { apply BrightnessFacts.ratio_le; [exact Hn|].
      apply BrightnessFacts.sum_upper. intros x Hx. specialize (Hall x Hx). lia. }
    rewrite (BrightnessFacts.Qle_bool_false 80 (inject_Z total / inject_Z n))
      by (eapply Qle_lt_trans; [exact Hmean | reflexivity]).
    rewrite (BrightnessFacts.count_if_all (λ p, p <? 50))
      by (intros x Hx; apply Z.ltb_lt, Hall, Hx).
    fold n. rewrite (BrightnessFacts.Qle_bool_false _ _ (BrightnessFacts.full_ratio n Hn)).
    reflexivity.
  - intros Hall.
    assert (Hmean : (inject_Z 200 <= inject_Z total / inject_Z n)%Q).
    { apply BrightnessFacts.ratio_ge; [exact Hn|].
      apply BrightnessFacts.sum_lower. exact Hall. }
    rewrite (BrightnessFacts.Qle_bool_true 80 (inject_Z total / inject_Z n))
      by (eapply Qle_trans; [|exact Hmean]; discriminate).
    rewrite (BrightnessFacts.Qle_bool_false (inject_Z total / inject_Z n) 180)
      by (eapply Qlt_le_trans; [|exact Hmean]; reflexivity).
    rewrite (BrightnessFacts.count_if_all (λ p, 200 <=? p))
      by (intros x Hx; apply Z.leb_le, Hall, Hx).
    fold n. rewrite (BrightnessFacts.Qle_bool_false _ _ (BrightnessFacts.full_ratio n Hn)).
    reflexivity.
  - intros Hall.
    assert (Hlo : (inject_Z 80 <= inject_Z total / inject_Z n)%Q).
    { apply BrightnessFacts.ratio_ge; [exact Hn|].
      apply BrightnessFacts.sum_lower. intros x Hx. apply Hall, Hx. }
    assert (Hhi : (inject_Z total / inject_Z n <= inject_Z 180)%Q).
    { apply BrightnessFacts.ratio_le; [exact Hn|].
      apply BrightnessFacts.sum_upper. intros x Hx. apply Hall, Hx. }
    rewrite (BrightnessFacts.Qle_bool_true 80 (inject_Z total / inject_Z n)) by exact Hlo.
    rewrite (BrightnessFacts.Qle_bool_true (inject_Z total / inject_Z n) 180) by exact Hhi.
    reflexivity.
Qed.

Lemma brightness_of_even_pages_witness :
  Analyzer.level (Analyzer._assess_brightness [10; 20; 49; 0]) = "very_dark"
  ∧ Analyzer.level (Analyzer._assess_brightness [200; 255; 230]) = "overexposed"
  ∧ Analyzer.level (Analyzer._assess_brightness [80; 128; 180]) = "normal".
Proof.
  split; [|split].
  - apply (brightness_of_even_pages [10; 20; 49; 0]); [discriminate|].
    simpl. intros p Hp. lia.
  - apply (brightness_of_even_pages [200; 255; 230]); [discriminate|].
    simpl. intros p Hp. lia.
  - apply (brightness_of_even_pages [80; 128; 180]); [discriminate|].
    simpl. intros p Hp. lia.
Defined.

(** ** Operators and passes *)

Module PassFacts.
Import Analyzer.

Lemma In_assoc {A} k (v : A) (l : list (string * A)) :
  NoDup l.*1 → In (k, v) l → assoc k l = Some v.
Proof.
  induction l as [|[k0 v0] l IH]; [intros _ []|].
  rewrite fmap_cons, NoDup_cons. simpl. intros [Hnot Hnd] [Heq | Hin].
  - inversion Heq; subst. rewrite bool_decide_eq_true_2; reflexivity.
  - rewrite bool_decide_eq_false_2; [apply IH; assumption|].
    intros ->. apply Hnot. apply list_elem_of_In.
    apply (in_map fst) in Hin. exact Hin.
Qed.

Lemma generated_keys_NoDup m : NoDup (_generate_recommendations m).*1.
Proof.
  rewrite RecommendFacts.recommendation_keys.
  repeat (apply NoDup_cons; split;
          [rewrite list_elem_of_In; simpl; intros H;
           repeat destruct H as [H|H]; try discriminate H; contradiction|]).
  apply NoDup_nil. exact I.
Qed.

(** An operator is listed as enabled exactly when its entry says so. *)
Lemma enabled_name_iff m name :
  In name (Entry.enabled_names (_generate_recommendations m)) ↔
    enabled_at (_generate_recommendations m) name = true.
Proof.
  unfold Entry.enabled_names, enabled_at. split.
  - intros Hin. apply in_map_iff in Hin. destruct Hin as ([k v] & Hk & Hin).
    simpl in Hk. subst k.
    apply list_elem_of_In, list_elem_of_filter in Hin. destruct Hin as [He Hin].
    apply list_elem_of_In in Hin.
    rewrite (In_assoc _ _ _ (generated_keys_NoDup m) Hin). exact He.
  - destruct (assoc name (_generate_recommendations m)) as [v|] eqn:Ha;
      [|discriminate].
    intros He. apply in_map_iff. exists (name, v). split; [reflexivity|].
    apply list_elem_of_In, list_elem_of_filter. split; [exact He|].
    apply list_elem_of_In. clear He.
    induction (_generate_recommendations m) as [|[k0 v0] l IH];
      [discriminate Ha|].
    simpl in Ha. case_bool_decide as Hk.
    + inversion Ha; subst. left. reflexivity.
    + right. apply IH, Ha.
Qed.

Lemma collect_steps_nil items :
  Entry.enabled_names items = [] → Pass1.collect_steps items = [].
Proof.
  rewrite <- Pass1Facts.collect_steps_names.
  destruct (Pass1.collect_steps items); [reflexivity | discriminate].
Qed.

End PassFacts.

(** X11. The deskew operator reads nothing of its recommendation but
    [angle_threshold]: two configurations with the same threshold give the
    same result, so [max_angle] is never enforced on the rotation. *)
Theorem deskew_reads_only_threshold {Img : Type} (rt : runtime Img)
    (img gray : Img) (config config' : gmap string value) :
  config !! "angle_threshold" = config' !! "angle_threshold" →
  Pass1._apply_deskew rt img gray config = Pass1._apply_deskew rt img gray config'.
Proof.
  intros H. unfold Pass1._apply_deskew, Pass1.deskew_body, dict_get.
  rewrite H. reflexivity.
Qed.

Lemma deskew_reads_only_threshold_witness :
  Pass1._apply_deskew (test_runtime noisy_levels false) tt tt
    (<["max_angle" := VInt 10]> {[ "angle_threshold" := VFloat (1 # 2) ]})
  = Pass1._apply_deskew (test_runtime noisy_levels false) tt tt
      (<["max_angle" := VInt 90]> {[ "angle_threshold" := VFloat (1 # 2) ]}).
Proof.
  apply deskew_reads_only_threshold. reflexivity.
Defined.

(** X12. A page on which the analysis enables nothing (skew level low,
    noise level low, contrast level not low, brightness level neither dark,
    very_dark nor overexposed, blur level not blurry) leaves the first pass
    as it entered it: a three-channel image is returned unchanged and no
    operator is dispatched. *)
Theorem clean_page_untouched {Img : Type} (rt : runtime Img) (img : Img)
    (m : Analyzer.measurements) :
  ndim3 rt img = true →
  is_Some (rgb_to_gray rt img) →
  Skew.level (Analyzer.skew_angle m) = "low" →
  Analyzer.noise_level m = "low" →
  Analyzer.contrast_quality m ≠ "low" →
  Analyzer.brightness_level m ≠ "dark" →
  Analyzer.brightness_level m ≠ "very_dark" →
  Analyzer.brightness_level m ≠ "overexposed" →
  Analyzer.blur_level m ≠ "blurry" →
  Entry.enabled_names (Analyzer._generate_recommendations m) = []
  ∧ Pass1._apply_adaptive_preprocessing rt img (Analyzer._generate_recommendations m)
    = Some (img, []).
Proof.
  intros Hdim [g Hg] Hskew Hnoise Hcontrast Hdark Hvdark Hover Hblur.
  assert (Hnone : Entry.enabled_names (Analyzer._generate_recommendations m) = []).
  { destruct (Entry.enabled_names (Analyzer._generate_recommendations m))
      as [|name rest] eqn:Hnames; [reflexivity|].
    exfalso.
    assert (Hin : In name (Entry.enabled_names (Analyzer._generate_recommendations m)))
      by (rewrite Hnames; left; reflexivity).
    pose proof (OrderFacts.generated_enabled_order m) as Hsub.
    assert (Hname : In name ["deskew"; "denoise"; "contrast"; "brightness"; "sharpen"]).
    { apply list_elem_of_In. eapply elem_of_sublist; [|exact Hsub].
      apply list_elem_of_In, Hin. }
    apply PassFacts.enabled_name_iff in Hin. unfold enabled_at in Hin.
    simpl in Hname.
    destruct Hname as [<- | [<- | [<- | [<- | [<- | []]]]]].
    - rewrite RecommendFacts.deskew_entry in Hin. unfold Analyzer.one_of in Hin.
      rewrite Hskew in Hin. discriminate Hin.
    - rewrite RecommendFacts.denoise_entry in Hin. unfold Analyzer.one_of in Hin.
      rewrite Hnoise in Hin. discriminate Hin.
    - rewrite RecommendFacts.contrast_entry in Hin.
      rewrite bool_decide_eq_false_2 in Hin by exact Hcontrast. discriminate Hin.
    - rewrite RecommendFacts.brightness_entry in Hin. unfold Analyzer.one_of in Hin.
      rewrite !bool_decide_eq_false_2 in Hin by assumption. discriminate Hin.
    - rewrite RecommendFacts.sharpen_entry in Hin.
      rewrite bool_decide_eq_false_2 in Hin by exact Hblur. discriminate Hin. }
  split; [exact Hnone|].
  unfold Pass1._apply_adaptive_preprocessing.
  rewrite Hdim, Hg. simpl.
  rewrite (PassFacts.collect_steps_nil _ Hnone). reflexivity.
Qed.

Lemma clean_page_untouched_witness :
  Pass1._apply_adaptive_preprocessing (test_runtime noisy_levels false) tt
    (Analyzer._generate_recommendations clean_measurements) = Some (tt, []).
Proof.
  apply (clean_page_untouched (test_runtime noisy_levels false) tt clean_measurements);
    try reflexivity; try discriminate.
  eexists; reflexivity.
Defined.

(** X13. Option keys other than grayscale, denoise, contrast, brightness and
    sharpen are inert: two option dictionaries that agree on these five keys
    give the same override pass, image and log. *)
Theorem unrecognized_keys_inert {Img : Type} (rt : runtime Img) (img : Img)
    (opts opts' : gmap string value) :
  (∀ k, In k recognized_keys → opts !! k = opts' !! k) →
  Overrides._apply_user_overrides rt img opts
    = Overrides._apply_user_overrides rt img opts'.
Proof.
  intros Hsame.
  assert (Hget : ∀ k d, In k recognized_keys → dict_get opts k d = dict_get opts' k d).
  { intros k d Hk. unfold dict_get. rewrite (Hsame k Hk). reflexivity. }
  apply DisableFacts.overrides_same_reading.
  unfold same_reading, Overrides.int_option.
  rewrite (Hget "grayscale"), (Hget "denoise"), (Hget "contrast"),
    (Hget "brightness"), (Hget "sharpen") by (simpl; tauto).
  repeat split. left. reflexivity.
Qed.

Lemma unrecognized_keys_inert_witness :
  Overrides._apply_user_overrides (test_runtime noisy_levels false) tt
    {[ "denoise" := VInt 5 ]}
  = Overrides._apply_user_overrides (test_runtime noisy_levels false) tt
      (<["rotate" := VInt 90]> {[ "denoise" := VInt 5 ]}).
Proof.
  apply unrecognized_keys_inert.
  intros k Hk. simpl in Hk.
  destruct Hk as [<- | [<- | [<- | [<- | [<- | []]]]]]; reflexivity.
Defined.

(** X14. Whatever value the denoise option holds, the strength handed to
    the denoising filter of the override pass lies between 1 and 15. *)
Theorem denoise_strength_bounded {Img : Type} (rt : runtime Img)
    (denoise_opt : value) (strength template search : Z) :
  Overrides.denoise_params rt denoise_opt = Some (strength, template, search) →
  1 <= strength <= 15.
Proof.
  pose proof OverrideFacts.clamp_strength_range as Hclamp.
  destruct denoise_opt as [| b | n | q | s | d]; simpl; intros H;
    try (inversion H; subst; first [lia | apply Hclamp]).
  destruct (Overrides.py_int rt (dict_get d "strength" (VInt 3))) as [a|];
    [|discriminate H]. simpl in H.
  destruct (Overrides.py_int rt (dict_get d "template" (VInt 7))) as [b|];
    [|discriminate H]. simpl in H.
  destruct (Overrides.py_int rt (dict_get d "search" (VInt 21))) as [c|];
    [|discriminate H]. simpl in H.
  inversion H; subst. apply Hclamp.
Qed.

Lemma denoise_strength_bounded_witness :
  1 <= 15 <= 15 ∧ 1 <= 1 <= 15.
Proof.
  split.
  - apply (denoise_strength_bounded (test_runtime noisy_levels false)
             (VInt 1000) 15 7 21). reflexivity.
  - apply (denoise_strength_bounded (test_runtime noisy_levels false)
             (VDict (<["strength" := VInt (-4)]> {[ "template" := VInt 3 ]})) 1 3 21).
    reflexivity.
Defined.

(** X15. The two heuristics overlap: whenever the first pass is told to
    correct brightness or contrast, the automatic options of the override
    pass ask for the same correction again with the same amount, and whenever
    it is told to denoise, the automatic options ask for denoising again with
    a larger strength. *)
Theorem corrections_repeat_in_override_pass (m : Analyzer.measurements) :
  let recs := Analyzer._generate_recommendations m in
  let auto_opts := AutoOpts._derive_auto_preprocessing_options (Analyzer.complete m) in
  (enabled_at recs "brightness" = true →
     ∃ n, field_at recs "brightness" "adjustment" = Some (VInt n)
          ∧ auto_opts !! "brightness" = Some (VInt n))
  ∧ (enabled_at recs "contrast" = true →
     field_at recs "contrast" "adjustment" = Some (VInt 30)
     ∧ auto_opts !! "contrast" = Some (VInt 30))
  ∧ (enabled_at recs "denoise" = true →
     ∃ n k, field_at recs "denoise" "strength" = Some (VInt n)
            ∧ auto_opts !! "denoise" = Some (dict_of [("strength", VInt k)])
            ∧ n < k).
Proof.
  intros recs auto_opts. subst recs auto_opts.
  unfold enabled_at, field_at.
  rewrite RecommendFacts.brightness_entry, RecommendFacts.contrast_entry,
    RecommendFacts.denoise_entry.
  rewrite AutoFacts.auto_brightness, AutoFacts.auto_contrast, AutoFacts.auto_denoise.
  unfold Analyzer.one_of, Analyzer.complete. cbn [Analyzer.measured].
  generalize (Analyzer.noise_level m) (Analyzer.contrast_quality m)
    (Analyzer.brightness_level m).
  intros noise contrast brightness.
  split; [|split].
  - destruct (bool_decide (brightness = "very_dark")) eqn:Hv.
    + rewrite orb_true_r. intros _. exists 40. split; reflexivity.
    + rewrite orb_false_r.
      destruct (bool_decide (brightness = "dark")) eqn:Hd.
      * intros _. exists 20. split; reflexivity.
      * destruct (bool_decide (brightness = "overexposed")) eqn:Ho.
        -- intros _. exists (-20). split; reflexivity.
        -- intros H. discriminate H.
  - destruct (bool_decide (contrast = "low")) eqn:Hc.
    + intros _. split; reflexivity.
    + intros H. discriminate H.
  - destruct (bool_decide (noise = "high")) eqn:Hh.
    + rewrite orb_true_r. intros _. exists 3, 7. repeat split; try lia.
    + rewrite orb_false_r.
      destruct (bool_decide (noise = "medium")) eqn:Hm.
      * intros _. exists 2, 4. repeat split; try lia.
      * intros H. discriminate H.
Qed.

Lemma corrections_repeat_in_override_pass_witness :
  AutoOpts._derive_auto_preprocessing_options poor_scan_analysis !! "contrast"
    = Some (VInt 30)
  ∧ ∃ n, field_at (Analyzer._generate_recommendations poor_scan_measurements)
           "brightness" "adjustment" = Some (VInt n)
         ∧ AutoOpts._derive_auto_preprocessing_options poor_scan_analysis
             !! "brightness" = Some (VInt n).
Proof.
  destruct (corrections_repeat_in_override_pass poor_scan_measurements)
    as (Hbrightness & Hcontrast & _).
  split.
  - apply Hcontrast. vm_compute. reflexivity.
  - apply Hbrightness. vm_compute. reflexivity.
Defined.

Module FirstStepFacts.
Import Analyzer.

(** A step that no other step is above stays at the head of the sorted
    list. *)
Lemma sort_steps_head s l :
  (∀ t, In t l → Pass1.py_lt (Pass1.step_priority s) (Pass1.step_priority t)
                 = Some false) →
  is_Some (Pass1.sort_steps l) →
  ∃ rest, Pass1.sort_steps (s :: l) = Some (s :: rest)
          ∧ Pass1.sort_steps l = Some rest.
Proof.
  intros Hs [sorted Hsorted]. simpl. rewrite Hsorted. simpl.
  exists sorted. split; [|reflexivity].
  destruct sorted as [|t rest]; [reflexivity|]. simpl.
  rewrite (Hs t); [reflexivity|].
  apply (Permutation_in _ (Pass1Facts.sort_steps_perm _ _ Hsorted)).
  left. reflexivity.
Qed.

Lemma collect_steps_enabled name c rest :
  truthy (dict_get c "enabled" (VBool false)) = true →
  Pass1.collect_steps ((name, VDict c) :: rest)
    = (Pass1.priority_of c, name, c) :: Pass1.collect_steps rest.
Proof. intros H. simpl. rewrite H. reflexivity. Qed.

(** With deskew enabled, the sorted steps of the analyzer's dictionary
    start with the deskew entry. *)
Lemma sorted_steps_head m :
  enabled_at (_generate_recommendations m) "deskew" = true →
  ∃ priority config rest,
    assoc "deskew" (_generate_recommendations m) = Some (VDict config)
    ∧ Pass1.sort_steps (Pass1.collect_steps (_generate_recommendations m))
      = Some ((priority, "deskew", config) :: rest).
Proof.
  unfold enabled_at. intros Hen.
  pose proof (OrderFacts.generated_priorities m) as Hnum.
  destruct (OrderFacts.generated_entries m)
    as (a1 & a2 & a3 & a4 & a5 & method & Heq & H1 & H2 & H3 & H4 & H5).
  rewrite H1 in Hen.
  rewrite RecommendFacts.deskew_entry in H1.
  rewrite RecommendFacts.denoise_entry in H2.
  rewrite RecommendFacts.contrast_entry in H3.
  rewrite RecommendFacts.brightness_entry in H4.
  rewrite RecommendFacts.sharpen_entry in H5.
  rewrite Heq in Hnum |- *. clear Heq.
  destruct a1 as [| | | | |config]; try discriminate Hen.
  simpl in Hen.
  rewrite (collect_steps_enabled _ _ _ Hen) in Hnum |- *.
  apply Forall_cons in Hnum. destruct Hnum as [_ Hnum].
  destruct (sort_steps_head (Pass1.priority_of config, "deskew", config)
              (Pass1.collect_steps
                 [("denoise", a2); ("contrast", a3); ("brightness", a4);
                  ("sharpen", a5); ("threshold_method", VStr method)]))
    as (rest & Hsort & _).
  - intros [[p name] c] Hin.
    apply Pass1Facts.collect_steps_In in Hin. destruct Hin as (Hin & _ & ->).
    unfold Pass1.step_priority, Pass1.priority_of. simpl.
    assert (Hdeskew : ∃ p, (p = 2 ∨ p = 3)
                           ∧ dict_get config "priority" (VInt 0) = VInt p).
    { destruct (one_of (Skew.level (skew_angle m)) "medium" "high");
        [|inversion H1; subst; discriminate Hen].
      destruct (bool_decide (Skew.level (skew_angle m) = "high"));
        inversion H1; subst; eexists; (split; [|reflexivity]); tauto. }
    destruct Hdeskew as (pd & Hpd & ->).
    assert (Hother : ∃ n, n <= 2 ∧ dict_get c "priority" (VInt 0) = VInt n).
    { destruct Hin as [Hin | [Hin | [Hin | [Hin | [Hin | []]]]]];
        inversion Hin; subst; clear Hin;
        match goal with
        | H : _ = Some (VDict c) |- _ =>
            repeat match type of H with
                   | context [if ?b then _ else _] => destruct b
                   end;
            inversion H; subst; eexists; (split; [|reflexivity]); lia
        end. }
    destruct Hother as (n & Hn & ->).
    unfold Pass1.py_lt. simpl. f_equal. apply negb_false_iff, Qle_bool_iff.
    rewrite <- Zle_Qle. lia.
  - apply Pass1Facts.sort_steps_numeric, Hnum.
  - exists (Pass1.priority_of config), config, rest. split; [reflexivity | exact Hsort].
Qed.

Lemma deskew_operator {Img : Type} (rt : runtime Img) priority config current :
  operator_result rt current (priority, "deskew", config)
    = (Pass1._apply_deskew rt current.1 current.2 config).1.
Proof. reflexivity. Qed.

End FirstStepFacts.

(** X16. When the analysis enables deskew, deskew is the first operator the
    first pass applies: its priority is at least that of every other
    recommendation and it comes first in the dictionary.  The deskew operator
    is therefore given the start pair, the page as it was analysed, and the
    image returned is its result taken through the remaining operators. *)
Theorem deskew_runs_first {Img : Type} (rt : runtime Img) (img out : Img)
    (m : Analyzer.measurements) (log : list event) :
  enabled_at (Analyzer._generate_recommendations m) "deskew" = true →
  Pass1._apply_adaptive_preprocessing rt img (Analyzer._generate_recommendations m)
    = Some (out, log) →
  ∃ working priority config rest,
    working_pair rt img = Some working
    ∧ assoc "deskew" (Analyzer._generate_recommendations m) = Some (VDict config)
    ∧ Pass1.sort_steps (Pass1.collect_steps (Analyzer._generate_recommendations m))
      = Some ((priority, "deskew", config) :: rest)
    ∧ out = (applied_in_order rt rest
               (Pass1._apply_deskew rt working.1 working.2 config).1).1
    ∧ head (dispatched log) = Some "deskew".
Proof.
  intros Hen Hrun.
  destruct (Pass1Facts.adaptive_stages rt _ _ _ _ Hrun)
    as (working & steps & Hwork & Hsort & _ & Hout & Hlog).
  destruct (FirstStepFacts.sorted_steps_head m Hen)
    as (priority & config & rest & Hentry & Hhead).
  rewrite Hhead in Hsort. injection Hsort as <-.
  exists working, priority, config, rest.
  split; [exact Hwork|]. split; [exact Hentry|]. split; [exact Hhead|].
  split.
  - rewrite Hout. unfold applied_in_order. simpl.
    rewrite FirstStepFacts.deskew_operator. reflexivity.
  - rewrite Hlog. reflexivity.
Qed.

Lemma deskew_runs_first_witness :
  ∃ log rest,
    Pass1._apply_adaptive_preprocessing (labelled_runtime noisy_levels slanted_page false)
      (true, []) (Analyzer._generate_recommendations mixed_measurements)
      = Some ((true, ["rotate"; "contrast"; "denoise"; "brightness"; "sharpen"]), log)
    ∧ (true, ["rotate"; "contrast"; "denoise"; "brightness"; "sharpen"])
      = (applied_in_order (labelled_runtime noisy_levels slanted_page false) rest
           ((true, ["rotate"]), (false, ["rotate"]))).1
    ∧ head (dispatched log) = Some "deskew".
Proof.
  destruct (Pass1._apply_adaptive_preprocessing
              (labelled_runtime noisy_levels slanted_page false) (true, [])
              (Analyzer._generate_recommendations mixed_measurements))
    as [[out log]|] eqn:Hrun; [|vm_compute in Hrun; discriminate Hrun].
  assert (Hval : out = (true, ["rotate"; "contrast"; "denoise"; "brightness"; "sharpen"])).
  { vm_compute in Hrun. injection Hrun as <- _. reflexivity. }
  subst out.
  assert (Hen : enabled_at (Analyzer._generate_recommendations mixed_measurements)
                  "deskew" = true) by (vm_compute; reflexivity).
  destruct (deskew_runs_first _ _ _ _ _ Hen Hrun)
    as (working & priority & config & rest & Hwork & Hentry & _ & Hout & Hhead).
  injection Hwork as <-.
  exists log, rest. split; [reflexivity|]. split; [|exact Hhead].
  rewrite Hout. f_equal. f_equal.
  assert (Hc : assoc "deskew" (Analyzer._generate_recommendations mixed_measurements)
               = Some (VDict (default ∅
                   (match assoc "deskew"
                            (Analyzer._generate_recommendations mixed_measurements) with
                    | Some (VDict c) => Some c
                    | _ => None
                    end)))) by (vm_compute; reflexivity).
  rewrite Hc in Hentry. injection Hentry as <-.
  vm_compute. reflexivity.
Defined.

(** ** The report and the standalone assessment *)

Module ReportFieldFacts.

Section WithRuntime.

Context {Img : Type} (rt : runtime Img).

(** Every field of a returned report, in terms of the analysis of the
    decoded image. *)
Lemma entry_report bytes user out report log :
  Entry.dynamic_preprocess_image rt bytes user = Some (out, report, log) →
  ∃ img analysis,
    load_image rt bytes = Some img
    ∧ Pass1.analyze_document_quality rt img = Some analysis
    ∧ report =
        {| Entry.quality_score := Analyzer.quality_score analysis;
           Entry.document_type := Analyzer.document_type (Analyzer.measured analysis);
           Entry.brightness_level :=
             Analyzer.brightness_level (Analyzer.measured analysis);
           Entry.contrast_level :=
             Analyzer.contrast_quality (Analyzer.measured analysis);
           Entry.noise_level := Analyzer.noise_level (Analyzer.measured analysis);
           Entry.skew_angle :=
             Skew.angle (Analyzer.skew_angle (Analyzer.measured analysis));
           Entry.blur_level := Analyzer.blur_level (Analyzer.measured analysis);
           Entry.processing_applied :=
             Entry.enabled_names (Analyzer.recommendations analysis);
           Entry.original_size_kb := Entry.size_kb bytes;
           Entry.processed_size_kb := Entry.size_kb out;
           Entry.auto_preprocessing_options :=
             AutoOpts._derive_auto_preprocessing_options analysis;
           Entry.final_preprocessing_options :=
             Merge._merge_preprocessing_options
               (AutoOpts._derive_auto_preprocessing_options analysis) user |}.
Proof.
  unfold Entry.dynamic_preprocess_image, Pass1.process_document. intros H.
  destruct (load_image rt bytes) as [img|]; [|discriminate H]. simpl in H.
  destruct (Pass1.analyze_document_quality rt img) as [analysis|] eqn:Ha;
    [|discriminate H]. simpl in H.
  destruct (Pass1._apply_adaptive_preprocessing rt img
              (Analyzer.recommendations analysis)) as [[processed log1]|] eqn:Hp;
    [|discriminate H]. simpl in H.
  match type of H with
  | context [if ?c then ?x else ?y] =>
      destruct (if c then x else y) as [[processed2 log2]|] eqn:Ho
  end; [|discriminate H]. simpl in H.
  destruct (if ndim3 rt processed2 then Some processed2
            else gray_to_rgb rt processed2) as [rgb|]; [|discriminate H].
  simpl in H.
  destruct (save_jpeg rt rgb) as [encoded|]; [|discriminate H]. simpl in H.
  inversion H; subst. clear H.
  exists img, analysis. repeat split; try reflexivity; try assumption.
Qed.

End WithRuntime.

End ReportFieldFacts.

(** X17. The analysis part of the report does not depend on the user's
    options: two calls on the same bytes that both return agree on the
    quality score, the five levels, the skew angle, the list
    [processing_applied], the original size and the automatic options. *)
Theorem analysis_ignores_user_options {Img : Type} (rt : runtime Img)
    (image_bytes out1 out2 : list Byte.byte)
    (user1 user2 : option (gmap string value))
    (report1 report2 : Entry.report) (log1 log2 : list event) :
  Entry.dynamic_preprocess_image rt image_bytes user1 = Some (out1, report1, log1) →
  Entry.dynamic_preprocess_image rt image_bytes user2 = Some (out2, report2, log2) →
  Entry.quality_score report1 = Entry.quality_score report2
  ∧ Entry.document_type report1 = Entry.document_type report2
  ∧ Entry.brightness_level report1 = Entry.brightness_level report2
  ∧ Entry.contrast_level report1 = Entry.contrast_level report2
  ∧ Entry.noise_level report1 = Entry.noise_level report2
  ∧ Entry.blur_level report1 = Entry.blur_level report2
  ∧ Entry.skew_angle report1 = Entry.skew_angle report2
  ∧ Entry.processing_applied report1 = Entry.processing_applied report2
  ∧ Entry.original_size_kb report1 = Entry.original_size_kb report2
  ∧ Entry.auto_preprocessing_options report1 = Entry.auto_preprocessing_options report2.
Proof.
  intros H1 H2.
  destruct (ReportFieldFacts.entry_report rt _ _ _ _ _ H1)
    as (img1 & a1 & Hl1 & Ha1 & ->).
  destruct (ReportFieldFacts.entry_report rt _ _ _ _ _ H2)
    as (img2 & a2 & Hl2 & Ha2 & ->).
  rewrite Hl1 in Hl2. inversion Hl2; subst img2.
  rewrite Ha1 in Ha2. inversion Ha2; subst a2.
  repeat split.
Qed.

Lemma analysis_ignores_user_options_witness :
  (Entry.processing_applied <$> report_of clean_run)
    = (Entry.processing_applied <$> report_of sharpened_run)
  ∧ (Entry.quality_score <$> report_of clean_run) = Some 85.
Proof.
  destruct clean_run as [[[out1 r1] l1]|] eqn:H1;
    [|vm_compute in H1; discriminate H1].
  destruct sharpened_run as [[[out2 r2] l2]|] eqn:H2;
    [|vm_compute in H2; discriminate H2].
  destruct (analysis_ignores_user_options _ _ _ _ _ _ _ _ _ _ H1 H2)
    as (_ & _ & _ & _ & _ & _ & _ & Happlied & _).
  simpl. split; [rewrite Happlied; reflexivity|].
  vm_compute in H1. inversion H1. reflexivity.
Defined.

(** X18. The report describes the returned bytes: its processed size is the
    size of the bytes returned, its original size is the size of the input,
    and its final options are the merge of its automatic options with the
    user's options. *)
Theorem report_describes_result {Img : Type} (rt : runtime Img)
    (image_bytes out : list Byte.byte) (user_opts : option (gmap string value))
    (report : Entry.report) (log : list event) :
  Entry.dynamic_preprocess_image rt image_bytes user_opts = Some (out, report, log) →
  Entry.processed_size_kb report = Entry.size_kb out
  ∧ Entry.original_size_kb report = Entry.size_kb image_bytes
  ∧ Entry.final_preprocessing_options report
    = Merge._merge_preprocessing_options
        (Entry.auto_preprocessing_options report) user_opts
  ∧ (∀ k, k ∉ recognized_keys → Entry.auto_preprocessing_options report !! k = None)
  ∧ 20 <= Entry.quality_score report <= 100.
Proof.
  intros H.
  destruct (ReportFieldFacts.entry_report rt _ _ _ _ _ H)
    as (img & a & Hl & Ha & ->).
  cbn [Entry.processed_size_kb Entry.original_size_kb
       Entry.final_preprocessing_options Entry.auto_preprocessing_options
       Entry.quality_score].
  repeat split; try reflexivity.
  - intros k Hk. apply AutoFacts.auto_other, Hk.
  - destruct (EntryFacts.analyze_complete rt _ _ Ha) as [m ->].
    pose proof (ScoreFacts.raw_score_range m) as Hr.
    change (Analyzer.quality_score (Analyzer.complete m))
      with (Z.max 0 (Z.min 100 (Analyzer.raw_score m))). lia.
  - destruct (EntryFacts.analyze_complete rt _ _ Ha) as [m ->].
    pose proof (ScoreFacts.raw_score_range m) as Hr.
    change (Analyzer.quality_score (Analyzer.complete m))
      with (Z.max 0 (Z.min 100 (Analyzer.raw_score m))). lia.
Qed.

Lemma report_describes_result_witness :
  (Entry.final_preprocessing_options <$> report_of sharpened_run)
    = (λ r, Merge._merge_preprocessing_options (Entry.auto_preprocessing_options r)
              (Some {[ "sharpen" := VInt 2 ]})) <$> report_of sharpened_run.
Proof.
  destruct sharpened_run as [[[out r] l]|] eqn:H;
    [|vm_compute in H; discriminate H].
  destruct (report_describes_result _ _ _ _ _ _ H) as (_ & _ & Hfinal & _).
  simpl. rewrite Hfinal. reflexivity.
Defined.

(** X19. The standalone assessment agrees with the pipeline: whenever
    [dynamic_preprocess_image] returns a report for some bytes,
    [assess_document_quality] returns for the same bytes, with the same
    quality score and the same levels, and the operators its recommendations
    enable are the report's [processing_applied]. *)
Theorem assessment_agrees_with_report {Img : Type} (rt : runtime Img)
    (image_bytes out : list Byte.byte) (user_opts : option (gmap string value))
    (report : Entry.report) (log : list event) :
  Entry.dynamic_preprocess_image rt image_bytes user_opts = Some (out, report, log) →
  ∃ a, Assess.assess_document_quality rt image_bytes = Some a
       ∧ Assess.quality_score a = Entry.quality_score report
       ∧ Entry.enabled_names (Assess.recommendations a)
         = Entry.processing_applied report
       ∧ Analyzer.brightness_level (Assess.detailed_analysis a)
         = Entry.brightness_level report
       ∧ Analyzer.contrast_quality (Assess.detailed_analysis a)
         = Entry.contrast_level report
       ∧ Analyzer.noise_level (Assess.detailed_analysis a) = Entry.noise_level report
       ∧ Analyzer.blur_level (Assess.detailed_analysis a) = Entry.blur_level report
       ∧ Analyzer.document_type (Assess.detailed_analysis a)
         = Entry.document_type report
       ∧ Skew.angle (Analyzer.skew_angle (Assess.detailed_analysis a))
         = Entry.skew_angle report.
Proof.
  intros H.
  destruct (ReportFieldFacts.entry_report rt _ _ _ _ _ H)
    as (img & analysis & Hl & Ha & ->).
  unfold Assess.assess_document_quality. rewrite Hl. simpl. rewrite Ha. simpl.
  eexists. split; [reflexivity|]. repeat split.
Qed.

Lemma assessment_agrees_with_report_witness :
  ∃ a, Assess.assess_document_quality (test_runtime noisy_levels false) png_bytes
         = Some a
       ∧ Some (Assess.quality_score a) = Entry.quality_score <$> report_of clean_run.
Proof.
  destruct clean_run as [[[out r] l]|] eqn:H;
    [|vm_compute in H; discriminate H].
  destruct (assessment_agrees_with_report _ _ _ _ _ _ H) as (a & Ha & Hq & _).
  exists a. split; [exact Ha|]. simpl. rewrite Hq. reflexivity.
Defined.

(** ** Temporary files *)

Module FileFacts.

Section WithRuntime.

Variable named_temporary_file : gmap string (list Byte.byte) → string → option string.

(** What [create_temp_file] leaves behind once the system has given a name. *)
Lemma create_temp_file_named content suffix st path :
  named_temporary_file (Files.files st) suffix = Some path →
  Files.create_temp_file named_temporary_file content suffix st
    = ({| Files.files := <[path := content]> (Files.files st);
          Files.temp_file_paths := (Files.temp_file_paths st ++ [path])%list |},
       None).
Proof. intros H. unfold Files.create_temp_file. rewrite H. reflexivity. Qed.

Lemma create_temp_file_raises content suffix st :
  (Files.create_temp_file named_temporary_file content suffix st).2 = None.
Proof.
  unfold Files.create_temp_file.
  destruct (named_temporary_file (Files.files st) suffix); reflexivity.
Qed.

End WithRuntime.

End FileFacts.

(** X20. [create_temp_file] reads the global name [logger], which its
    module never binds, so every call of it raises; hence
    [apply_dynamic_preprocessing_to_file] returns neither a path nor a report,
    whatever the file, the extension, the options and the imaging runtime. *)
Theorem file_preprocessing_never_returns {Img : Type} (rt : runtime Img)
    (named_temporary_file : gmap string (list Byte.byte) → string → option string)
    (file_bytes : list Byte.byte) (file_ext : string)
    (opts : option (gmap string value)) (st : Files.fs_state) :
  (Files.apply_dynamic_preprocessing_to_file rt named_temporary_file
     file_bytes file_ext opts st).2 = None
  ∧ (∀ content,
       (Files.create_temp_file named_temporary_file content file_ext st).2 = None).
Proof.
  split; [|intros content; apply FileFacts.create_temp_file_raises].
  unfold Files.apply_dynamic_preprocessing_to_file.
  destruct (Files.is_image_extension file_ext).
  - destruct (Entry.dynamic_preprocess_image rt file_bytes opts)
      as [[[processed report] log]|]; [|reflexivity].
    pose proof (FileFacts.create_temp_file_raises named_temporary_file
                  processed file_ext st) as Hc.
    destruct (Files.create_temp_file named_temporary_file processed file_ext st)
      as [st' created]. simpl in *. rewrite Hc. reflexivity.
  - pose proof (FileFacts.create_temp_file_raises named_temporary_file
                  file_bytes file_ext st) as Hc.
    destruct (Files.create_temp_file named_temporary_file file_bytes file_ext st)
      as [st' created]. simpl in *. rewrite Hc. reflexivity.
Qed.

(** X21. The call raises, but the temporary file stays behind and is
    tracked for cleanup.  For an extension that is not an image extension,
    once the system has given a name: after the call a file of that name
    holds the original bytes, the name is appended to [temp_file_paths] after
    the paths already there, and every other file is as it was.  The image
    pipeline is not run, so the outcome is the same with any imaging
    runtime. *)
Theorem temp_file_is_tracked {Img Img' : Type} (rt : runtime Img)
    (rt' : runtime Img')
    (named_temporary_file : gmap string (list Byte.byte) → string → option string)
    (file_bytes : list Byte.byte) (file_ext : string)
    (opts : option (gmap string value)) (st : Files.fs_state) (path : string) :
  Files.is_image_extension file_ext = false →
  named_temporary_file (Files.files st) file_ext = Some path →
  let after := (Files.apply_dynamic_preprocessing_to_file rt named_temporary_file
                  file_bytes file_ext opts st).1 in
  Files.files after !! path = Some file_bytes
  ∧ Files.temp_file_paths after = (Files.temp_file_paths st ++ [path])%list
  ∧ (∀ p, p ≠ path → Files.files after !! p = Files.files st !! p)
  ∧ Files.apply_dynamic_preprocessing_to_file rt' named_temporary_file
      file_bytes file_ext opts st
    = Files.apply_dynamic_preprocessing_to_file rt named_temporary_file
        file_bytes file_ext opts st.
Proof.
  intros Hext Hname after. subst after.
  unfold Files.apply_dynamic_preprocessing_to_file. rewrite Hext.
  rewrite (FileFacts.create_temp_file_named _ _ _ _ _ Hname). simpl.
  split; [apply lookup_insert_eq|]. split; [reflexivity|].
  split; [|reflexivity].
  intros p Hp. apply lookup_insert_ne. congruence.
Qed.

Lemma temp_file_is_tracked_witness :
  let after := (Files.apply_dynamic_preprocessing_to_file undecodable_runtime
                  single_name png_bytes ".pdf" None empty_disk).1 in
  Files.files after !! "/tmp/tmp0.pdf" = Some png_bytes
  ∧ Files.temp_file_paths after = ["/tmp/tmp0.pdf"].
Proof.
  assert (Hext : Files.is_image_extension ".pdf" = false) by reflexivity.
  assert (Hname : single_name (Files.files empty_disk) ".pdf" = Some "/tmp/tmp0.pdf")
    by reflexivity.
  destruct (temp_file_is_tracked undecodable_runtime undecodable_runtime single_name
              png_bytes ".pdf" None empty_disk "/tmp/tmp0.pdf" Hext Hname)
    as (Hfile & Hpaths & _ & _).
  split; [exact Hfile | exact Hpaths].
Defined.

(** X22. For an image extension (in any letter case): if the pipeline
    raises, the call raises and the disk and the list of paths are as they
    were; if the system gives no name, nothing is written either; if the
    pipeline returns and a name is given, a file of that name holds the bytes
    the pipeline returned, never the original bytes in their place, and the
    name is appended to [temp_file_paths]. *)
Theorem image_files_hold_processed_bytes {Img : Type} (rt : runtime Img)
    (named_temporary_file : gmap string (list Byte.byte) → string → option string)
    (file_bytes : list Byte.byte) (file_ext : string)
    (opts : option (gmap string value)) (st : Files.fs_state) :
  Files.is_image_extension file_ext = true →
  (Entry.dynamic_preprocess_image rt file_bytes opts = None →
     Files.apply_dynamic_preprocessing_to_file rt named_temporary_file
       file_bytes file_ext opts st = (st, None))
  ∧ (named_temporary_file (Files.files st) file_ext = None →
     Files.apply_dynamic_preprocessing_to_file rt named_temporary_file
       file_bytes file_ext opts st = (st, None))
  ∧ (∀ processed report log path,
       Entry.dynamic_preprocess_image rt file_bytes opts
         = Some (processed, report, log) →
       named_temporary_file (Files.files st) file_ext = Some path →
       let after := (Files.apply_dynamic_preprocessing_to_file rt named_temporary_file
                       file_bytes file_ext opts st).1 in
       Files.files after !! path = Some processed
       ∧ Files.temp_file_paths after = (Files.temp_file_paths st ++ [path])%list
       ∧ (∀ p, p ≠ path → Files.files after !! p = Files.files st !! p)).
Proof.
  intros Hext. unfold Files.apply_dynamic_preprocessing_to_file. rewrite Hext.
  split; [intros ->; reflexivity|].
  split.
  - intros Hname.
    destruct (Entry.dynamic_preprocess_image rt file_bytes opts)
      as [[[processed report] log]|]; [|reflexivity].
    unfold Files.create_temp_file. rewrite Hname. reflexivity.
  - intros processed report log path Hrun Hname. cbv zeta.
    rewrite Hrun, (FileFacts.create_temp_file_named _ _ _ _ _ Hname). simpl.
    split; [apply lookup_insert_eq|]. split; [reflexivity|].
    intros p Hp. apply lookup_insert_ne. congruence.
Qed.

Lemma image_files_hold_processed_bytes_witness :
  Files.apply_dynamic_preprocessing_to_file undecodable_runtime single_name
    png_bytes ".JPEG" None empty_disk = (empty_disk, None)
  ∧ Files.files
      (Files.apply_dynamic_preprocessing_to_file (test_runtime noisy_levels false)
         single_name png_bytes ".png" None empty_disk).1 !! "/tmp/tmp0.png"
    = Some [].
Proof.
  split.
  - assert (Hext : Files.is_image_extension ".JPEG" = true) by reflexivity.
    destruct (image_files_hold_processed_bytes undecodable_runtime single_name
                png_bytes ".JPEG" None empty_disk Hext) as (Hraises & _).
    apply Hraises. reflexivity.
  - destruct (Entry.dynamic_preprocess_image (test_runtime noisy_levels false)
                png_bytes None) as [[[processed report] log]|] eqn:Hrun;
      [|vm_compute in Hrun; discriminate Hrun].
    assert (Hbytes : processed = []).
    { vm_compute in Hrun. injection Hrun as <- _ _. reflexivity. }
    subst processed.
    assert (Hext : Files.is_image_extension ".png" = true) by reflexivity.
    destruct (image_files_hold_processed_bytes (test_runtime noisy_levels false)
                single_name png_bytes ".png" None empty_disk Hext)
      as (_ & _ & Hfile).
    destruct (Hfile [] report log "/tmp/tmp0.png" Hrun eq_refl) as (Hheld & _).
    exact Hheld.
Defined.

(** ** The OCR request handler *)

Module CallerFacts.

Lemma caller_has_no_integer_key k :
  In k integer_keys → Caller.caller_options !! k = None.
Proof. intros [<- | [<- | [<- | []]]]; reflexivity. Qed.

(** The handler's denoise dictionary names all three parameters, so nothing
    of an automatic denoise entry survives the merge. *)
Lemma caller_denoise_entry (old : option value) :
  (old = None ∨ ∃ n, old = Some (dict_of [("strength", VInt n)])) →
  Merge.merged_entry old
    (dict_of [("strength", VInt 7); ("template", VInt 7); ("search", VInt 21)])
  = dict_of [("strength", VInt 7); ("template", VInt 7); ("search", VInt 21)].
Proof.
  intros [-> | [n ->]]; [reflexivity|].
  unfold dict_of, Merge.merged_entry. f_equal.
Qed.

Lemma auto_denoise_shape a :
  AutoOpts._derive_auto_preprocessing_options a !! "denoise" = None
  ∨ ∃ n, AutoOpts._derive_auto_preprocessing_options a !! "denoise"
           = Some (dict_of [("strength", VInt n)]).
Proof.
  rewrite AutoFacts.auto_denoise.
  repeat match goal with
         | |- context [if ?c then _ else _] => destruct c
         end; eauto.
Qed.

End CallerFacts.

(** X23. The request handler never loses its input to preprocessing: a PDF
    or a non-image type is passed on unchanged; when the pipeline raises (a
    corrupt image, say) the original bytes and type are passed on; otherwise
    the bytes the pipeline returned are passed on with type image/jpeg. *)
Theorem handler_keeps_input_on_failure {Img : Type} (rt : runtime Img)
    (file_bytes : list Byte.byte) (file_type : string) :
  (Caller.wants_preprocessing file_type = false →
     Caller.preprocess_input rt file_bytes file_type = (file_bytes, file_type))
  ∧ (Entry.dynamic_preprocess_image rt file_bytes (Some Caller.caller_options) = None →
     Caller.preprocess_input rt file_bytes file_type = (file_bytes, file_type))
  ∧ (load_image rt file_bytes = None →
     Caller.preprocess_input rt file_bytes file_type = (file_bytes, file_type))
  ∧ (∀ processed report log,
       Caller.wants_preprocessing file_type = true →
       Entry.dynamic_preprocess_image rt file_bytes (Some Caller.caller_options)
         = Some (processed, report, log) →
       Caller.preprocess_input rt file_bytes file_type = (processed, "image/jpeg"))
  ∧ Caller.preprocess_input rt file_bytes "application/pdf"
    = (file_bytes, "application/pdf")
  ∧ Caller.preprocess_input rt file_bytes "" = (file_bytes, "").
Proof.
  unfold Caller.preprocess_input.
  split; [intros ->; reflexivity|].
  split; [intros ->; destruct (Caller.wants_preprocessing file_type); reflexivity|].
  split.
  { intros Hload. unfold Entry.dynamic_preprocess_image. rewrite Hload. simpl.
    destruct (Caller.wants_preprocessing file_type); reflexivity. }
  split; [intros processed report log -> ->; reflexivity|].
  split; reflexivity.
Qed.

Lemma handler_keeps_input_on_failure_witness :
  Caller.preprocess_input undecodable_runtime png_bytes "image/png"
    = (png_bytes, "image/png")
  ∧ Caller.preprocess_input (test_runtime noisy_levels false) png_bytes "text/plain"
    = (png_bytes, "text/plain").
Proof.
  split.
  - destruct (handler_keeps_input_on_failure undecodable_runtime png_bytes "image/png")
      as (_ & _ & Hload & _).
    apply Hload. reflexivity.
  - destruct (handler_keeps_input_on_failure (test_runtime noisy_levels false)
                png_bytes "text/plain") as (Hother & _).
    apply Hother. reflexivity.
Defined.

(** X24. With the options the handler passes, preprocessing raises only if a
    library routine outside an operator body does: when the image decodes,
    its analysis returns, each colour conversion succeeds on images of the
    layout it is for and the encoder succeeds on images in three channels, an
    image input always comes back as image/jpeg, whatever the operators do. *)
Theorem handler_receives_jpeg {Img : Type} (rt : runtime Img)
    (file_bytes : list Byte.byte) (file_type : string) :
  Caller.wants_preprocessing file_type = true →
  is_Some (load_image rt file_bytes) →
  (∀ img, load_image rt file_bytes = Some img →
          is_Some (Pass1.analyze_document_quality rt img)) →
  (∀ i, ndim3 rt i = true → is_Some (rgb_to_gray rt i)) →
  (∀ i, ndim3 rt i = false → is_Some (gray_to_rgb rt i)) →
  (∀ i rgb, (if ndim3 rt i then Some i else gray_to_rgb rt i) = Some rgb →
            is_Some (save_jpeg rt rgb)) →
  ∃ processed report log,
    Entry.dynamic_preprocess_image rt file_bytes (Some Caller.caller_options)
      = Some (processed, report, log)
    ∧ Caller.preprocess_input rt file_bytes file_type = (processed, "image/jpeg").
Proof.
  intros Hwant Hload Ha Hg Hr He.
  assert (Hrun : is_Some (Entry.dynamic_preprocess_image rt file_bytes
                            (Some Caller.caller_options))).
  { apply FailSoftFacts.entry_total; try assumption.
    intros u k v Hu Hk Hv. inversion Hu; subst u.
    rewrite (CallerFacts.caller_has_no_integer_key k Hk) in Hv. discriminate Hv. }
  destruct Hrun as [[[processed report] log] Hrun].
  exists processed, report, log. split; [exact Hrun|].
  unfold Caller.preprocess_input. rewrite Hwant, Hrun. reflexivity.
Qed.

Lemma handler_receives_jpeg_witness :
  ∃ processed,
    Caller.preprocess_input (labelled_runtime noisy_levels slanted_page true)
      png_bytes "image/png" = (processed, "image/jpeg").
Proof.
  destruct (handler_receives_jpeg (labelled_runtime noisy_levels slanted_page true)
              png_bytes "image/png")
    as (processed & report & log & _ & Hout).
  - reflexivity.
  - eexists; reflexivity.
  - intros img Hload. injection Hload as <-. vm_compute. eexists; reflexivity.
  - intros [[|] labels] Hdim; [eexists; reflexivity | discriminate Hdim].
  - intros [[|] labels] Hdim; [discriminate Hdim | eexists; reflexivity].
  - intros [[|] labels] rgb Hrgb; simpl in Hrgb; injection Hrgb as <-;
      eexists; reflexivity.
  - exists processed. exact Hout.
Defined.

(** X25. The handler's options fix the denoising of the override pass: for
    every analysis the merged options hold exactly
    {strength 7, template 7, search 21} under denoise, so the filter runs
    with (7, 7, 21) whatever strength the automatic options chose; every
    other key keeps its automatic value, and the merged options are never
    empty, so the override pass always runs. *)
Theorem handler_denoise_is_fixed {Img : Type} (rt : runtime Img)
    (a : Analyzer.analysis) :
  let final_opts :=
    Merge._merge_preprocessing_options
      (AutoOpts._derive_auto_preprocessing_options a) (Some Caller.caller_options) in
  final_opts !! "denoise"
    = Some (dict_of [("strength", VInt 7); ("template", VInt 7); ("search", VInt 21)])
  ∧ Overrides.denoise_params rt (dict_get final_opts "denoise" (VBool false))
    = Some (7, 7, 21)
  ∧ truthy (dict_get final_opts "denoise" (VBool false)) = true
  ∧ final_opts ≠ ∅
  ∧ (∀ k, k ≠ "denoise" →
       final_opts !! k = AutoOpts._derive_auto_preprocessing_options a !! k).
Proof.
  intros final_opts.
  assert (Hden : final_opts !! "denoise"
                 = Some (dict_of [("strength", VInt 7); ("template", VInt 7);
                                  ("search", VInt 21)])).
  { subst final_opts. rewrite MergeFacts.merge_lookup.
    change (Caller.caller_options !! "denoise")
      with (Some (dict_of [("strength", VInt 7); ("template", VInt 7);
                           ("search", VInt 21)])).
    f_equal. apply CallerFacts.caller_denoise_entry, CallerFacts.auto_denoise_shape. }
  split; [exact Hden|].
  unfold dict_get. rewrite Hden.
  split; [reflexivity|]. split; [reflexivity|].
  split.
  { intros Hempty. rewrite Hempty, lookup_empty in Hden. discriminate Hden. }
  intros k Hk. subst final_opts. rewrite MergeFacts.merge_lookup.
  unfold Caller.caller_options. rewrite lookup_singleton_ne by congruence.
  reflexivity.
Qed.

Lemma handler_denoise_is_fixed_witness :
  Merge._merge_preprocessing_options
    (AutoOpts._derive_auto_preprocessing_options poor_scan_analysis)
    (Some Caller.caller_options) !! "brightness"
  = AutoOpts._derive_auto_preprocessing_options poor_scan_analysis !! "brightness".
Proof.
  destruct (handler_denoise_is_fixed (test_runtime noisy_levels false) poor_scan_analysis)
    as (_ & _ & _ & _ & Hother).
  apply Hother. discriminate.
Defined.

Module OverrideOrderFacts.

Section WithRuntime.

Context {Img : Type} (rt : runtime Img).

(** What a block of the override pass logs: nothing, or one line about its
    own operator. *)
Definition block_log (name : string) (log : list event) : Prop :=
  event_op <$> log = [] ∨ event_op <$> log = [name].

Lemma block_log_sublist name log :
  block_log name log → (event_op <$> log) `sublist_of` [name].
Proof.
  intros [-> | ->]; [apply sublist_nil_l | reflexivity].
Qed.

Lemma user_grayscale_log opts w out log :
  Overrides.user_grayscale rt opts w = Some (out, log) → block_log "grayscale" log.
Proof.
  unfold Overrides.user_grayscale, block_log.
  destruct (truthy _); [|intros Hres; inversion Hres; left; reflexivity].
  destruct (ndim3 rt w); [|intros Hres; inversion Hres; left; reflexivity].
  destruct (rgb_to_gray rt w); simpl; [|discriminate].
  intros Hres; inversion Hres; right; reflexivity.
Qed.

Lemma user_denoise_log opts w :
  block_log "denoise" (Overrides.user_denoise rt opts w).2.
Proof.
  unfold Overrides.user_denoise, block_log.
  destruct (truthy _); [|left; reflexivity].
  destruct (Overrides.user_denoise_body _ _ _); right; reflexivity.
Qed.

Lemma user_contrast_log opts w out log :
  Overrides.user_contrast rt opts w = Some (out, log) → block_log "contrast" log.
Proof.
  unfold Overrides.user_contrast, block_log.
  destruct (Overrides.int_option rt opts "contrast") as [c|]; simpl; [|discriminate].
  destruct (negb (c =? 0)); [|intros H; inversion H; left; reflexivity].
  destruct (Overrides.user_contrast_body rt c w);
    intros H; inversion H; right; reflexivity.
Qed.

Lemma user_brightness_log opts w out log :
  Overrides.user_brightness rt opts w = Some (out, log) → block_log "brightness" log.
Proof.
  unfold Overrides.user_brightness, block_log.
  destruct (Overrides.int_option rt opts "brightness") as [c|]; simpl; [|discriminate].
  destruct (negb (c =? 0)); [|intros H; inversion H; left; reflexivity].
  destruct (convert_scale_abs rt w (VInt c));
    intros H; inversion H; right; reflexivity.
Qed.

Lemma user_sharpen_log opts w out log :
  Overrides.user_sharpen rt opts w = Some (out, log) → block_log "sharpen" log.
Proof.
  unfold Overrides.user_sharpen, block_log.
  destruct (Overrides.int_option rt opts "sharpen") as [c|]; simpl; [|discriminate].
  destruct (0 <? c); [|intros H; inversion H; left; reflexivity].
  destruct (filter2d_clip rt w _);
    intros H; inversion H; right; reflexivity.
Qed.

End WithRuntime.

End OverrideOrderFacts.

(** X26. The override pass has a fixed order that no option changes: a run
    that returns logs at most one line per operator, and the operators of its
    log appear in the order grayscale, denoise, contrast, brightness,
    sharpen. In particular it never deskews, and no priority is consulted. *)
Theorem override_pass_order {Img : Type} (rt : runtime Img) (img out : Img)
    (opts : gmap string value) (log : list event) :
  Overrides._apply_user_overrides rt img opts = Some (out, log) →
  (event_op <$> log)
    `sublist_of` ["grayscale"; "denoise"; "contrast"; "brightness"; "sharpen"]
  ∧ NoDup (event_op <$> log)
  ∧ dispatched log = [].
Proof.
  intros Hrun.
  assert (Hsub : (event_op <$> log)
            `sublist_of` ["grayscale"; "denoise"; "contrast"; "brightness"; "sharpen"]).
  { revert Hrun. unfold Overrides._apply_user_overrides.
    destruct (if ndim3 rt img then Some img else gray_to_rgb rt img) as [w0|];
      [|discriminate]. simpl.
    destruct (Overrides.user_grayscale rt opts w0) as [[w1 lg]|] eqn:Hg;
      [|discriminate]. simpl.
    pose proof (OverrideOrderFacts.user_denoise_log rt opts w1) as Hd.
    destruct (Overrides.user_denoise rt opts w1) as [w2 ld]. simpl in Hd.
    destruct (Overrides.user_contrast rt opts w2) as [[w3 lc]|] eqn:Hc;
      [|discriminate]. simpl.
    destruct (Overrides.user_brightness rt opts w3) as [[w4 lb]|] eqn:Hb;
      [|discriminate]. simpl.
    destruct (Overrides.user_sharpen rt opts w4) as [[w5 ls]|] eqn:Hs;
      [|discriminate]. simpl.
    intros H. inversion H; subst. clear H.
    rewrite !fmap_app.
    change ["grayscale"; "denoise"; "contrast"; "brightness"; "sharpen"]
      with (["grayscale"] ++ ["denoise"] ++ ["contrast"] ++ ["brightness"]
              ++ ["sharpen"])%list.
    repeat apply sublist_app; apply OverrideOrderFacts.block_log_sublist.
    - eapply OverrideOrderFacts.user_grayscale_log, Hg.
    - exact Hd.
    - eapply OverrideOrderFacts.user_contrast_log, Hc.
    - eapply OverrideOrderFacts.user_brightness_log, Hb.
    - eapply OverrideOrderFacts.user_sharpen_log, Hs. }
  split; [exact Hsub|]. split.
  - eapply sublist_NoDup; [|exact Hsub].
    repeat (apply NoDup_cons; split;
            [rewrite list_elem_of_In; simpl; intros H;
             repeat destruct H as [H|H]; try discriminate H; contradiction|]).
    apply NoDup_nil. exact I.
  - apply ReportFacts.user_events_dispatched.
    eapply ReportFacts.overrides_events, Hrun.
Qed.

Lemma override_pass_order_witness :
  ∃ log,
    Overrides._apply_user_overrides (test_runtime noisy_levels true) tt
      (<["sharpen" := VInt 2]> (<["denoise" := VInt 5]> {[ "grayscale" := VBool true ]}))
      = Some (tt, log)
    ∧ event_op <$> log = ["grayscale"; "denoise"; "sharpen"]
    ∧ NoDup (event_op <$> log).
Proof.
  eexists. split; [vm_compute; reflexivity|]. split; [reflexivity|].
  eapply (override_pass_order (test_runtime noisy_levels true) tt tt
            (<["sharpen" := VInt 2]>
               (<["denoise" := VInt 5]> {[ "grayscale" := VBool true ]}))).
  vm_compute. reflexivity.
Defined.
